(** * Vacuum-cleaner agents on a grid: a shallow embedding of [AI_Project.py]

    The development follows the Python source class by class:
    - a small model of the two library facilities the program leans on
      (integer indexing of a 2-D numpy array, and the two random sources);
    - [VacuumEnvironment] with [is_dirty], [clean], [get_total_dirt];
    - [SimpleReflexAgent] and [ModelBasedAgent] with [perceive], [act],
      [get_stats];
    - [run_simulation] with its [while] loop;
    - the data [animate] (inside [visualize_agent]) collects for its plot,
      and the averages [compare_agents] computes.

    Python exceptions are values of [exn]; a method that mutates its object
    before raising returns the mutated store together with the exception. *)

From Stdlib Require Import ZArith QArith Lia Bool String.
From stdpp Require Import base list.

Local Open Scope Z_scope.

(** ** Exceptions and results *)

Inductive exn : Type :=
| IndexError
| ValueError.

Inductive result (A : Type) : Type :=
| Ok (a : A)
| Raise (e : exn).
Arguments Ok {A} a.
Arguments Raise {A} e.

Definition is_ok {A} (r : result A) : bool :=
  match r with Ok _ => true | Raise _ => false end.

(** ** numpy arrays of shape (rows, cols), holding Python integers *)

Abbreviation ndarray := (list (list Z)).

(** Integer indexing along an axis of length [n]: [0 <= i < n] is taken as
    it is, [-n <= i < 0] counts from the end, anything else is an
    [IndexError]. *)
Definition np_index (n : nat) (i : Z) : option nat :=
  if (0 <=? i) && (i <? Z.of_nat n) then Some (Z.to_nat i)
  else if (- Z.of_nat n <=? i) && (i <? 0) then Some (Z.to_nat (Z.of_nat n + i))
  else None.

(** [a[r, c]] *)
Definition np_get (a : ndarray) (r c : Z) : result Z :=
  match np_index (length a) r with
  | None => Raise IndexError
  | Some i =>
      match a !! i with
      | None => Raise IndexError
      | Some row =>
          match np_index (length row) c with
          | None => Raise IndexError
          | Some j =>
              match row !! j with
              | None => Raise IndexError
              | Some v => Ok v
              end
          end
      end
  end.

(** [a[r, c] = v] *)
Definition np_set (a : ndarray) (r c : Z) (v : Z) : result ndarray :=
  match np_index (length a) r with
  | None => Raise IndexError
  | Some i =>
      match a !! i with
      | None => Raise IndexError
      | Some row =>
          match np_index (length row) c with
          | None => Raise IndexError
          | Some j => Ok (<[i := <[j := v]> row]> a)
          end
      end
  end.

(** [np.full((rows, cols), v)]; a negative dimension is a [ValueError]. *)
Definition np_full (rows cols : Z) (v : Z) : result ndarray :=
  if (rows <? 0) || (cols <? 0) then Raise ValueError
  else Ok (replicate (Z.to_nat rows) (replicate (Z.to_nat cols) v)).

Definition sum_Z (l : list Z) : Z := foldr Z.add 0 l.

(** [np.sum(a)] *)
Definition np_sum (a : ndarray) : Z := sum_Z (map sum_Z a).

(** Number of cells equal to 1. *)
Definition count_ones (a : ndarray) : Z :=
  sum_Z (map (fun row => Z.of_nat (length (filter (fun v => v = 1) row))) a).

(** ** Random sources

    Both [numpy.random] and Python's [random] module are global generators.
    A generator is the infinite sequence of its raw draws and a cursor.
    It is modelled call by call: each uniform sample, and each successful
    [random.choice], takes the value under the cursor and moves the cursor
    on by one.  How many bits the library reads from its underlying
    generator to serve one such call is not modelled. *)

Record random_state : Type := RandomState {
  draws : nat -> N;
  cursor : nat
}.

Definition advance (k : nat) (r : random_state) : random_state :=
  {| draws := draws r; cursor := (cursor r + k)%nat |}.

(** [random.choice(seq)]: an [IndexError] on the empty sequence, otherwise
    the element at a drawn position below [len(seq)]. *)
Definition random_choice {A} (seq : list A) (r : random_state)
  : result A * random_state :=
  match seq with
  | [] => (Raise IndexError, r)
  | a :: _ =>
      (Ok (nth (N.to_nat (draws r (cursor r) mod N.of_nat (length seq))) seq a),
       advance 1 r)
  end.

(** A uniform sample in [[0, 1)] from a raw draw: 53 random bits over 2^53. *)
Definition uniform (raw : N) : Q :=
  Qmake (Z.of_N raw mod 2 ^ 53) (2 ^ 53).

(** [np.random.choice([0, 1], size=(n, n), p=[p0, p1])].  The probabilities
    are validated first (a negative entry, or a sum different from 1, is a
    [ValueError]); a negative dimension is a [ValueError]; then every cell,
    in row-major order, is the position of its uniform sample in the
    cumulative distribution [[p0, p0 + p1]].  The limits of the machine are
    not part of this model: an array too large to allocate is an error in
    numpy and a list here. *)
Definition choose01 (p0 p1 : Q) (u : Q) : Z :=
  (if Qle_bool p0 u then 1 else 0) + (if Qle_bool (p0 + p1) u then 1 else 0).

Definition np_random_choice01 (n : Z) (p0 p1 : Q) (r : random_state)
  : result ndarray * random_state :=
  if negb (Qle_bool 0 p0) || negb (Qle_bool 0 p1) then (Raise ValueError, r)
  else if negb (Qeq_bool (p0 + p1) 1) then (Raise ValueError, r)
  else if n <? 0 then (Raise ValueError, r)
  else
    let k := Z.to_nat n in
    (Ok (map (fun i =>
            map (fun j => choose01 p0 p1
                            (uniform (draws r (cursor r + i * k + j)%nat)))
                (seq 0 k))
          (seq 0 k)),
     advance (k * k) r).

(** ** class VacuumEnvironment *)

Definition MAX_STEPS : Z := 200.

Record VacuumEnvironment : Type := Env {
  e_size : Z;
  e_grid : ndarray;
  e_initial_dirt : Z
}.

(** [__init__(self, size, dirt_probability)] *)
Definition VacuumEnvironment_init (size : Z) (dirt_probability : Q)
    (r : random_state) : result VacuumEnvironment * random_state :=
  match np_random_choice01 size (1 - dirt_probability) dirt_probability r with
  | (Raise e, r') => (Raise e, r')
  | (Ok g, r') =>
      (Ok {| e_size := size; e_grid := g; e_initial_dirt := np_sum g |}, r')
  end.

(** [is_dirty(self, x, y)] *)
Definition is_dirty (e : VacuumEnvironment) (x y : Z) : result bool :=
  match np_get (e_grid e) y x with
  | Raise ex => Raise ex
  | Ok v => Ok (v =? 1)
  end.

(** [clean(self, x, y)]: the answer and the environment after the call.
    An exception can only come from the index check, before any write. *)
Definition clean (e : VacuumEnvironment) (x y : Z)
  : result bool * VacuumEnvironment :=
  match np_get (e_grid e) y x with
  | Raise ex => (Raise ex, e)
  | Ok v =>
      if v =? 1 then
        match np_set (e_grid e) y x 0 with
        | Raise ex => (Raise ex, e)
        | Ok g => (Ok true,
                   {| e_size := e_size e; e_grid := g;
                      e_initial_dirt := e_initial_dirt e |})
        end
      else (Ok false, e)
  end.

(** [get_total_dirt(self)] *)
Definition get_total_dirt (e : VacuumEnvironment) : Z := np_sum (e_grid e).

(** ** Objects that share an environment

    An agent keeps a reference to its environment and draws from the global
    [random] generator, so a method call acts on the three together. *)

Record heap (A : Type) : Type := Heap {
  h_env : VacuumEnvironment;
  h_self : A;
  h_random : random_state
}.
Arguments Heap {A} _ _ _.
Arguments h_env {A} _.
Arguments h_self {A} _.
Arguments h_random {A} _.

(** A method body: it reads and writes the heap, and returns or raises. *)
Definition M (A T : Type) : Type := heap A -> result T * heap A.

Definition ret {A T} (t : T) : M A T := fun h => (Ok t, h).

Definition bind {A T U} (m : M A T) (k : T -> M A U) : M A U :=
  fun h =>
    match m h with
    | (Ok t, h') => k t h'
    | (Raise e, h') => (Raise e, h')
    end.

Notation "'let*' x ':=' m 'in' k" := (bind m (fun x => k))
  (at level 10, x name, m at level 100, k at level 200).

Definition get_self {A} : M A A := fun h => (Ok (h_self h), h).

Definition set_self {A} (a : A) : M A unit :=
  fun h => (Ok tt, Heap (h_env h) a (h_random h)).

Definition get_env {A} : M A VacuumEnvironment := fun h => (Ok (h_env h), h).

(** [self.env.is_dirty(x, y)] *)
Definition env_is_dirty {A} (x y : Z) : M A bool :=
  fun h => (is_dirty (h_env h) x y, h).

(** [self.env.clean(x, y)] *)
Definition env_clean {A} (x y : Z) : M A bool :=
  fun h =>
    let '(r, e) := clean (h_env h) x y in
    (r, Heap e (h_self h) (h_random h)).

(** [random.choice(seq)] *)
Definition choice {A T} (seq : list T) : M A T :=
  fun h =>
    let '(r, g) := random_choice seq (h_random h) in
    (r, Heap (h_env h) (h_self h) g).

Definition lift_result {A T} (r : result T) : M A T := fun h => (r, h).

(** ** Actions and candidate moves *)

Inductive action : Type := CLEAN | RIGHT | LEFT | DOWN | UP.

Definition move : Type := action * Z * Z.

(** The four [if ...: possible_moves.append(...)] lines, which both agent
    classes contain verbatim. *)
Definition possible_moves (size x y : Z) : list move :=
  (if x <? size - 1 then [(RIGHT, x + 1, y)] else []) ++
  (if 0 <? x then [(LEFT, x - 1, y)] else []) ++
  (if y <? size - 1 then [(DOWN, x, y + 1)] else []) ++
  (if 0 <? y then [(UP, x, y - 1)] else []).

(** [get_stats] returns a dictionary with these four keys. *)
Record stats : Type := Stats {
  st_type : string;
  st_moves : Z;
  st_cleaned : Z;
  st_efficiency : Q
}.

Definition efficiency (cleaned moves : Z) : Q :=
  if 0 <? moves then Qmake cleaned (Z.to_pos moves) else 0%Q.

(** ** class SimpleReflexAgent *)

Record SimpleReflexAgent : Type := SimpleReflex {
  sr_x : Z;
  sr_y : Z;
  sr_moves : Z;
  sr_cleaned : Z
}.

Definition SimpleReflexAgent_init (env : VacuumEnvironment)
  : result SimpleReflexAgent :=
  Ok {| sr_x := 0; sr_y := 0; sr_moves := 0; sr_cleaned := 0 |}.

Definition SimpleReflexAgent_perceive : M SimpleReflexAgent bool :=
  let* self := get_self in
  env_is_dirty (sr_x self) (sr_y self).

Definition SimpleReflexAgent_act : M SimpleReflexAgent (option action) :=
  let* self := get_self in
  if MAX_STEPS <=? sr_moves self then ret None
  else
    let* _ := set_self (SimpleReflex (sr_x self) (sr_y self)
                          (sr_moves self + 1) (sr_cleaned self)) in
    let* dirty := SimpleReflexAgent_perceive in
    if dirty : bool then
      let* self := get_self in
      let* cleaned := env_clean (sr_x self) (sr_y self) in
      let* _ := (if cleaned : bool then
                   set_self (SimpleReflex (sr_x self) (sr_y self)
                               (sr_moves self) (sr_cleaned self + 1))
                 else ret tt) in
      ret (Some CLEAN)
    else
      let* self := get_self in
      let* env := get_env in
      let* mv := choice (possible_moves (e_size env) (sr_x self) (sr_y self)) in
      let '(direction, new_x, new_y) := mv in
      let* _ := set_self (SimpleReflex new_x new_y
                            (sr_moves self) (sr_cleaned self)) in
      ret (Some direction).

Definition SimpleReflexAgent_get_stats (self : SimpleReflexAgent) : stats :=
  {| st_type := "Simple Reflex";
     st_moves := sr_moves self;
     st_cleaned := sr_cleaned self;
     st_efficiency := efficiency (sr_cleaned self) (sr_moves self) |}.

(** ** class ModelBasedAgent *)

Record ModelBasedAgent : Type := ModelBased {
  mb_x : Z;
  mb_y : Z;
  mb_moves : Z;
  mb_cleaned : Z;
  mb_memory : ndarray
}.

Definition with_memory (self : ModelBasedAgent) (m : ndarray) : ModelBasedAgent :=
  ModelBased (mb_x self) (mb_y self) (mb_moves self) (mb_cleaned self) m.

(** [__init__]: the memory is [np.full((size, size), -1)] with entry
    [[0, 0]] set to 0; on an empty array that write is an [IndexError]. *)
Definition ModelBasedAgent_init (env : VacuumEnvironment)
  : result ModelBasedAgent :=
  match np_full (e_size env) (e_size env) (-1) with
  | Raise ex => Raise ex
  | Ok m =>
      match np_set m 0 0 0 with
      | Raise ex => Raise ex
      | Ok m' =>
          Ok {| mb_x := 0; mb_y := 0; mb_moves := 0; mb_cleaned := 0;
                mb_memory := m' |}
      end
  end.

(** [self.memory[y, x] = v] *)
Definition memory_set (y x v : Z) : M ModelBasedAgent unit :=
  let* self := get_self in
  let* m := lift_result (np_set (mb_memory self) y x v) in
  set_self (with_memory self m).

Definition ModelBasedAgent_perceive : M ModelBasedAgent bool :=
  let* self := get_self in
  let* dirty := env_is_dirty (mb_x self) (mb_y self) in
  let* _ := memory_set (mb_y self) (mb_x self)
              (if dirty : bool then 1 else 0) in
  ret dirty.

(** [[m for m in moves if memory[y, x] == -1]]: the entries are read in
    order, and a failing read aborts the comprehension. *)
Fixpoint unvisited_of (memory : ndarray) (moves : list move)
  : result (list move) :=
  match moves with
  | [] => Ok []
  | (d, x, y) :: rest =>
      match np_get memory y x with
      | Raise ex => Raise ex
      | Ok v =>
          match unvisited_of memory rest with
          | Raise ex => Raise ex
          | Ok l => Ok (if v =? -1 then (d, x, y) :: l else l)
          end
      end
  end.

Definition ModelBasedAgent_act : M ModelBasedAgent (option action) :=
  let* self := get_self in
  if MAX_STEPS <=? mb_moves self then ret None
  else
    let* _ := set_self (ModelBased (mb_x self) (mb_y self) (mb_moves self + 1)
                          (mb_cleaned self) (mb_memory self)) in
    let* dirty := ModelBasedAgent_perceive in
    if dirty : bool then
      let* self := get_self in
      let* cleaned := env_clean (mb_x self) (mb_y self) in
      let* _ := (if cleaned : bool then
                   let* _ := set_self (ModelBased (mb_x self) (mb_y self)
                                         (mb_moves self) (mb_cleaned self + 1)
                                         (mb_memory self)) in
                   memory_set (mb_y self) (mb_x self) 0
                 else ret tt) in
      ret (Some CLEAN)
    else
      let* self := get_self in
      let* env := get_env in
      let moves := possible_moves (e_size env) (mb_x self) (mb_y self) in
      let* unvisited := lift_result (unvisited_of (mb_memory self) moves) in
      let* mv := choice (match unvisited with [] => moves | _ => unvisited end) in
      let '(direction, new_x, new_y) := mv in
      let* _ := set_self (ModelBased new_x new_y (mb_moves self)
                            (mb_cleaned self) (mb_memory self)) in
      ret (Some direction).

Definition ModelBasedAgent_get_stats (self : ModelBasedAgent) : stats :=
  {| st_type := "Model-Based";
     st_moves := mb_moves self;
     st_cleaned := mb_cleaned self;
     st_efficiency := efficiency (mb_cleaned self) (mb_moves self) |}.

(** ** Agent objects and their classes

    [run_simulation] receives the class as an argument and calls [act] and
    [get_stats] on whichever object it built. *)

Inductive agent_class : Type := SimpleReflexAgent_class | ModelBasedAgent_class.

Inductive agent : Type :=
| Simple (a : SimpleReflexAgent)
| Model (a : ModelBasedAgent).

Definition world : Type := heap agent.

(** [agent_class(env)] *)
Definition construct (c : agent_class) (env : VacuumEnvironment) : result agent :=
  match c with
  | SimpleReflexAgent_class =>
      match SimpleReflexAgent_init env with
      | Ok a => Ok (Simple a)
      | Raise ex => Raise ex
      end
  | ModelBasedAgent_class =>
      match ModelBasedAgent_init env with
      | Ok a => Ok (Model a)
      | Raise ex => Raise ex
      end
  end.

(** Running a method of class [A] on the object stored in the world. *)
Definition dispatch {A T} (inj : A -> agent) (m : M A T) (a : A) : M agent T :=
  fun w =>
    let '(r, h) := m (Heap (h_env w) a (h_random w)) in
    (r, Heap (h_env h) (inj (h_self h)) (h_random h)).

(** [agent.act()] *)
Definition act : M agent (option action) :=
  fun w =>
    match h_self w with
    | Simple a => dispatch Simple SimpleReflexAgent_act a w
    | Model a => dispatch Model ModelBasedAgent_act a w
    end.

(** [agent.perceive()] *)
Definition perceive : M agent bool :=
  fun w =>
    match h_self w with
    | Simple a => dispatch Simple SimpleReflexAgent_perceive a w
    | Model a => dispatch Model ModelBasedAgent_perceive a w
    end.

(** [agent.get_stats()] *)
Definition get_stats (a : agent) : stats :=
  match a with
  | Simple a => SimpleReflexAgent_get_stats a
  | Model a => ModelBasedAgent_get_stats a
  end.

Definition agent_x (a : agent) : Z :=
  match a with Simple a => sr_x a | Model a => mb_x a end.
Definition agent_y (a : agent) : Z :=
  match a with Simple a => sr_y a | Model a => mb_y a end.
Definition agent_moves (a : agent) : Z :=
  match a with Simple a => sr_moves a | Model a => mb_moves a end.
Definition agent_cleaned (a : agent) : Z :=
  match a with Simple a => sr_cleaned a | Model a => mb_cleaned a end.

(** The state after [k] successive calls of [act], whatever each call
    answered (a caller may go on after an exception). *)
Fixpoint after_acts (k : nat) (w : world) : world :=
  match k with
  | O => w
  | S k' => after_acts k' (snd (act w))
  end.

(** ** run_simulation *)

(** The local variables of [run_simulation] inside its loop. *)
Record runner : Type := Runner {
  r_world : world;
  r_steps : Z
}.

Inductive loop_status : Type :=
| Running              (* the body ran to its end; test the condition again *)
| Broke                (* [break]: no dirt left *)
| Exited               (* the condition [steps < max_steps] is false *)
| Raised (ex : exn)    (* [act] raised *)
| OutOfFuel.

(** One test of the loop condition followed by one run of the body. *)
Definition loop_step (max_steps : Z) (r : runner) : loop_status * runner :=
  if r_steps r <? max_steps then
    if get_total_dirt (h_env (r_world r)) =? 0 then (Broke, r)
    else
      match act (r_world r) with
      | (Raise ex, w) => (Raised ex, Runner w (r_steps r))
      | (Ok _, w) => (Running, Runner w (r_steps r + 1))
      end
  else (Exited, r).

Fixpoint while_loop (fuel : nat) (max_steps : Z) (r : runner)
  : loop_status * runner :=
  match fuel with
  | O => (OutOfFuel, r)
  | S fuel' =>
      match loop_step max_steps r with
      | (Running, r') => while_loop fuel' max_steps r'
      | out => out
      end
  end.

(** The runner's locals on entry to the loop. *)
Definition start (env : VacuumEnvironment) (a : agent) (rnd : random_state)
  : runner :=
  Runner (Heap env a rnd) 0.

(** The loop tests its condition at most [max_steps + 1] times. *)
Definition loop_fuel (max_steps : Z) : nat := S (Z.to_nat max_steps).

(** Lines 123-132: everything after the environment has been built.  [None]
    stands for a loop that has not finished within [loop_fuel]. *)
Definition run_simulation_in (env : VacuumEnvironment) (c : agent_class)
    (max_steps : Z) (rnd : random_state) : option (result (stats * Z)) :=
  match construct c env with
  | Raise ex => Some (Raise ex)
  | Ok a =>
      match while_loop (loop_fuel max_steps) max_steps (start env a rnd) with
      | (OutOfFuel, _) | (Running, _) => None
      | (Raised ex, _) => Some (Raise ex)
      | (Broke, r) | (Exited, r) =>
          Some (Ok (get_stats (h_self (r_world r)),
                    e_initial_dirt (h_env (r_world r))))
      end
  end.

(** [run_simulation(agent_class, max_steps)], with the two global generators
    made explicit: [np_rnd] is numpy's, [py_rnd] the [random] module's. *)
Definition run_simulation (c : agent_class) (max_steps : Z)
    (np_rnd py_rnd : random_state) : option (result (stats * Z)) :=
  match VacuumEnvironment_init 8 (3 # 10) np_rnd with
  | (Raise ex, _) => Some (Raise ex)
  | (Ok env, _) => run_simulation_in env c max_steps py_rnd
  end.

(** ** visualize_agent: the data behind the second plot

    Drawing calls are left out: they read these values and write none. *)

(** The lists [steps_list], [efficiency_list] and [dirt_list]. *)
Record plot_data : Type := PlotData {
  steps_list : list Z;
  efficiency_list : list Q;
  dirt_list : list (option Q)
}.

(** numpy's division of one integer by another: a float, and with a zero
    divisor [inf] or [nan] under a warning, not an exception: [None]. *)
Definition np_divide (a b : Z) : option Q :=
  if b =? 0 then None else Some (inject_Z a / inject_Z b)%Q.

(** [animate(frame)], the closure inside [visualize_agent]. *)
Definition animate (max_steps frame : Z) (w : world) (pd : plot_data)
  : result unit * world * plot_data :=
  if (max_steps <=? frame) || (get_total_dirt (h_env w) =? 0) then (Ok tt, w, pd)
  else
    match act w with
    | (Raise ex, w') => (Raise ex, w', pd)
    | (Ok _, w') =>
        let stats := get_stats (h_self w') in
        (Ok tt, w',
         {| steps_list := steps_list pd ++ [frame];
            efficiency_list := efficiency_list pd ++ [st_efficiency stats];
            dirt_list :=
              dirt_list pd ++
              [np_divide (get_total_dirt (h_env w'))
                         (e_initial_dirt (h_env w'))] |})
    end.

(** [animate] called on a sequence of frames, stopping at an exception. *)
Fixpoint animate_frames (max_steps : Z) (frames : list Z) (w : world)
    (pd : plot_data) : result unit * world * plot_data :=
  match frames with
  | [] => (Ok tt, w, pd)
  | frame :: rest =>
      match animate max_steps frame w pd with
      | (Ok _, w', pd') => animate_frames max_steps rest w' pd'
      | out => out
      end
  end.

(** ** compare_agents: the numbers behind the bar chart *)

(** [run_simulation] together with the two generators as it leaves them. *)
Definition run_simulation_st (c : agent_class) (max_steps : Z)
    (np_rnd py_rnd : random_state)
  : option (result (stats * Z)) * random_state * random_state :=
  match VacuumEnvironment_init 8 (3 # 10) np_rnd with
  | (Raise ex, np') => (Some (Raise ex), np', py_rnd)
  | (Ok env, np') =>
      match construct c env with
      | Raise ex => (Some (Raise ex), np', py_rnd)
      | Ok a =>
          match while_loop (loop_fuel max_steps) max_steps (start env a py_rnd) with
          | (OutOfFuel, r) | (Running, r) => (None, np', h_random (r_world r))
          | (Raised ex, r) => (Some (Raise ex), np', h_random (r_world r))
          | (Broke, r) | (Exited, r) =>
              (Some (Ok (get_stats (h_self (r_world r)),
                         e_initial_dirt (h_env (r_world r)))),
               np', h_random (r_world r))
          end
      end
  end.

(** The [for _ in range(num_trials)] loop: one reflex run and one
    model-based run per trial, both with [MAX_STEPS], their statistics
    appended to [reflex_stats] and [model_stats]. *)
Fixpoint trials (n : nat) (np_rnd py_rnd : random_state)
  : option (result (list stats * list stats)) :=
  match n with
  | O => Some (Ok ([], []))
  | S n' =>
      match run_simulation_st SimpleReflexAgent_class MAX_STEPS np_rnd py_rnd with
      | (None, _, _) => None
      | (Some (Raise ex), _, _) => Some (Raise ex)
      | (Some (Ok (reflex, _)), np1, py1) =>
          match run_simulation_st ModelBasedAgent_class MAX_STEPS np1 py1 with
          | (None, _, _) => None
          | (Some (Raise ex), _, _) => Some (Raise ex)
          | (Some (Ok (model, _)), np2, py2) =>
              match trials n' np2 py2 with
              | Some (Ok (rs, ms)) => Some (Ok (reflex :: rs, model :: ms))
              | out => out
              end
          end
      end
  end.

Definition sum_Q (l : list Q) : Q := foldr Qplus 0%Q l.

(** [np.mean] of a list; on the empty list it is [nan] under a warning:
    [None]. *)
Definition np_mean (l : list Q) : option Q :=
  match l with
  | [] => None
  | _ => Some (sum_Q l / inject_Z (Z.of_nat (length l)))%Q
  end.

(** The four averages [compare_agents] plots and prints. *)
Record averages : Type := Averages {
  avg_reflex_moves : option Q;
  avg_model_moves : option Q;
  avg_reflex_eff : option Q;
  avg_model_eff : option Q
}.

(** [compare_agents(num_trials)], up to the computation of the averages. *)
Definition compare_agents (num_trials : Z) (np_rnd py_rnd : random_state)
  : option (result averages) :=
  match trials (Z.to_nat num_trials) np_rnd py_rnd with
  | None => None
  | Some (Raise ex) => Some (Raise ex)
  | Some (Ok (reflex_stats, model_stats)) =>
      let reflex_moves := map (fun s => inject_Z (st_moves s)) reflex_stats in
      let model_moves := map (fun s => inject_Z (st_moves s)) model_stats in
      let reflex_eff := map st_efficiency reflex_stats in
      let model_eff := map st_efficiency model_stats in
      Some (Ok {| avg_reflex_moves := np_mean reflex_moves;
                  avg_model_moves := np_mean model_moves;
                  avg_reflex_eff := np_mean reflex_eff;
                  avg_model_eff := np_mean model_eff |})
  end.

(** ** Well-formed environments and agents *)

(** An array of shape (n, n). *)
Definition shapedb (n : Z) (a : ndarray) : bool :=
  (Z.of_nat (length a) =? n) &&
  forallb (fun row => Z.of_nat (length row) =? n) a.

(** Every cell is 0 or 1. *)
Definition binaryb (a : ndarray) : bool :=
  forallb (forallb (fun v => (v =? 0) || (v =? 1))) a.

(** What [VacuumEnvironment.__init__] establishes about the grid. *)
Definition env_wf (e : VacuumEnvironment) : Prop :=
  shapedb (e_size e) (e_grid e) && binaryb (e_grid e) = true.

(** A position on the grid. *)
Definition in_bounds (size x y : Z) : Prop :=
  0 <= x < size /\ 0 <= y < size.

(** The orthogonal neighbours of [(x, y)] that lie on the grid. *)
Definition neighbour (size x y : Z) (m : move) : Prop :=
  let '(d, x', y') := m in
  in_bounds size x' y' /\
  ((d = RIGHT /\ x' = x + 1 /\ y' = y) \/
   (d = LEFT /\ x' = x - 1 /\ y' = y) \/
   (d = DOWN /\ x' = x /\ y' = y + 1) \/
   (d = UP /\ x' = x /\ y' = y - 1)).

(** The agent stands on the grid, and a model-based agent's memory has the
    grid's shape. *)
Definition agent_wf (size : Z) (a : agent) : Prop :=
  in_bounds size (agent_x a) (agent_y a) /\
  match a with
  | Simple _ => True
  | Model m => shapedb size (mb_memory m) = true
  end.

Definition world_wf (w : world) : Prop :=
  env_wf (h_env w) /\ agent_wf (e_size (h_env w)) (h_self w).

(** ** Specification vocabulary *)

(** The comprehension's condition [memory[y, x] == -1] on a candidate. *)
Definition unknownb (memory : ndarray) (m : move) : bool :=
  let '(_, x, y) := m in
  match np_get memory y x with
  | Ok v => v =? -1
  | Raise _ => false
  end.

(** The four ways a call of [act] can go, for either class. *)
Inductive act_case (w : world) : result (option action) -> world -> Prop :=
| act_capped :
    MAX_STEPS <= agent_moves (h_self w) ->
    act_case w (Ok None) w
| act_cleaned (w' : world) :
    agent_moves (h_self w) < MAX_STEPS ->
    is_dirty (h_env w) (agent_x (h_self w)) (agent_y (h_self w)) = Ok true ->
    h_env w' = snd (clean (h_env w) (agent_x (h_self w)) (agent_y (h_self w))) ->
    agent_x (h_self w') = agent_x (h_self w) ->
    agent_y (h_self w') = agent_y (h_self w) ->
    agent_moves (h_self w') = agent_moves (h_self w) + 1 ->
    agent_cleaned (h_self w') = agent_cleaned (h_self w) + 1 ->
    act_case w (Ok (Some CLEAN)) w'
| act_moved (d : action) (nx ny : Z) (w' : world) :
    agent_moves (h_self w) < MAX_STEPS ->
    is_dirty (h_env w) (agent_x (h_self w)) (agent_y (h_self w)) = Ok false ->
    (d, nx, ny) ∈ possible_moves (e_size (h_env w))
                   (agent_x (h_self w)) (agent_y (h_self w)) ->
    h_env w' = h_env w ->
    agent_x (h_self w') = nx ->
    agent_y (h_self w') = ny ->
    agent_moves (h_self w') = agent_moves (h_self w) + 1 ->
    agent_cleaned (h_self w') = agent_cleaned (h_self w) ->
    act_case w (Ok (Some d)) w'
| act_stuck (w' : world) :
    agent_moves (h_self w) < MAX_STEPS ->
    is_dirty (h_env w) (agent_x (h_self w)) (agent_y (h_self w)) = Ok false ->
    possible_moves (e_size (h_env w))
      (agent_x (h_self w)) (agent_y (h_self w)) = [] ->
    h_env w' = h_env w ->
    agent_x (h_self w') = agent_x (h_self w) ->
    agent_y (h_self w') = agent_y (h_self w) ->
    agent_moves (h_self w') = agent_moves (h_self w) + 1 ->
    agent_cleaned (h_self w') = agent_cleaned (h_self w) ->
    act_case w (Raise IndexError) w'.

(** The agent is model-based, remembers [(x, y)] as clean, and the cell is
    clean. *)
Definition known_clean (x y : Z) (w : world) : Prop :=
  match h_self w with
  | Model m => np_get (mb_memory m) y x = Ok 0
  | Simple _ => False
  end /\ is_dirty (h_env w) x y = Ok false.

(** [loop_reaches max_steps r r']: from the locals [r], some number of
    complete iterations of the loop leads to the locals [r']. *)
Inductive loop_reaches (max_steps : Z) : runner -> runner -> Prop :=
| reaches_here (r : runner) : loop_reaches max_steps r r
| reaches_iter (r r' r'' : runner) :
    loop_step max_steps r = (Running, r') ->
    loop_reaches max_steps r' r'' ->
    loop_reaches max_steps r r''.

(** What holds of the locals at every test of the loop condition. *)
Definition run_inv (max_steps : Z) (r : runner) : Prop :=
  world_wf (r_world r) /\
  r_steps r = agent_moves (h_self (r_world r)) /\
  0 <= r_steps r <= max_steps.

(** ** Sample generators, environments and agents *)

(** A generator that always draws 0. *)
Definition zero_rnd : random_state := RandomState (fun _ => 0%N) 0.

(** A generator whose uniform samples are all just below 1: every cell
    comes out dirty. *)
Definition all_dirty_rnd : random_state :=
  RandomState (fun _ => (2 ^ 53 - 1)%N) 0.

(** A generator whose samples spread over [0, 1). *)
Definition mixed_rnd : random_state :=
  RandomState (fun k => (N.of_nat k * 5000000000000000) mod 2 ^ 53)%N 0.

Definition env_1x1 : VacuumEnvironment := Env 1 [[1]] 1.

Definition env_2x2 : VacuumEnvironment := Env 2 [[0; 1]; [0; 0]] 1.

Definition env_3x3 : VacuumEnvironment :=
  Env 3 [[0; 1; 0]; [0; 0; 0]; [0; 0; 1]] 2.

(** Agents of either class standing on the dirty cell (1, 0) of [env_2x2]. *)
Definition simple_on_dirt : world :=
  Heap env_2x2 (Simple (SimpleReflex 1 0 3 0)) zero_rnd.

Definition model_on_dirt : world :=
  Heap env_2x2 (Model (ModelBased 1 0 3 0 [[0; -1]; [-1; -1]])) zero_rnd.

(** A fresh model-based agent on a 1 x 1 grid whose cell is clean. *)
Definition model_on_clean_single_cell : world :=
  Heap (Env 1 [[0]] 0) (Model (ModelBased 0 0 0 0 [[0]])) zero_rnd.

(** A model-based agent in the corner (0, 0) that knows the cell below. *)
Definition model_at_corner : ModelBasedAgent :=
  ModelBased 0 0 0 0 [[0; -1]; [0; -1]].

(** ** Further vocabulary: movement and memory *)

(** The change of position that goes with an answer of [act]. *)
Definition displacement (r : result (option action)) : Z * Z :=
  match r with
  | Ok (Some RIGHT) => (1, 0)
  | Ok (Some LEFT) => (-1, 0)
  | Ok (Some DOWN) => (0, 1)
  | Ok (Some UP) => (0, -1)
  | _ => (0, 0)
  end.

(** What a model-based agent's memory says about the grid between two
    calls: every entry on the grid is -1 or 0, and an entry 0 belongs to
    the cell under the agent or to a clean cell. *)
Definition memory_sound (w : world) : Prop :=
  match h_self w with
  | Simple _ => True
  | Model m =>
      forall cx cy, in_bounds (e_size (h_env w)) cx cy ->
        np_get (mb_memory m) cy cx = Ok (-1) \/
        (np_get (mb_memory m) cy cx = Ok 0 /\
         ((cx, cy) = (mb_x m, mb_y m) \/ is_dirty (h_env w) cx cy = Ok false))
  end.

(** The memory of an agent object; a reflex agent has none. *)
Definition agent_memory (a : agent) : ndarray :=
  match a with
  | Simple _ => []
  | Model m => mb_memory m
  end.

(** What holds of the runner's locals at every test of the loop condition,
    for any budget: the agent's counter follows the step counter up to the
    cap, and the counts add up. *)
Definition run_inv_any (max_steps : Z) (r : runner) : Prop :=
  world_wf (r_world r) /\
  0 <= r_steps r <= Z.max 0 max_steps /\
  agent_moves (h_self (r_world r)) = Z.min (r_steps r) MAX_STEPS /\
  0 <= agent_cleaned (h_self (r_world r)) <= agent_moves (h_self (r_world r)) /\
  agent_cleaned (h_self (r_world r)) + get_total_dirt (h_env (r_world r)) =
    e_initial_dirt (h_env (r_world r)).

(** The counters of a world add up: cleaned cells are at most the moves
    made, and together with the dirt left they make the initial dirt. *)
Definition counts_ok (w : world) : Prop :=
  world_wf w /\
  0 <= agent_cleaned (h_self w) <= agent_moves (h_self w) /\
  agent_cleaned (h_self w) + get_total_dirt (h_env w) =
    e_initial_dirt (h_env w).

(** A number between 0 and 1. *)
Definition unit_range (q : Q) : Prop := (0 <= q)%Q /\ (q <= 1)%Q.

(** The plot lists go together, and hold defined values between 0 and 1. *)
Definition plot_ok (pd : plot_data) : Prop :=
  length (steps_list pd) = length (efficiency_list pd) /\
  length (steps_list pd) = length (dirt_list pd) /\
  Forall unit_range (efficiency_list pd) /\
  Forall (fun o => exists q, o = Some q /\ unit_range q) (dirt_list pd).

(** Statistics a run can return: moves within the cap, efficiency
    between 0 and 1. *)
Definition stats_ok (s : stats) : Prop :=
  0 <= st_moves s <= MAX_STEPS /\ unit_range (st_efficiency s).

(** ** Facts about array indexing *)

Section Indexing.

Lemma np_index_in (n : nat) (i : Z) :
  0 <= i < Z.of_nat n -> np_index n i = Some (Z.to_nat i).
Proof.
  intros Hi. unfold np_index.
  destruct (0 <=? i) eqn:E1; [| lia].
  destruct (i <? Z.of_nat n) eqn:E2; [reflexivity | lia].
Qed.

Lemma np_index_wrap (n : nat) (i : Z) :
  - Z.of_nat n <= i < 0 -> np_index n i = Some (Z.to_nat (Z.of_nat n + i)).
Proof.
  intros Hi. unfold np_index.
  destruct (0 <=? i) eqn:E1; [lia |]. cbn [andb].
  destruct (- Z.of_nat n <=? i) eqn:E2; [| lia].
  destruct (i <? 0) eqn:E3; [reflexivity | lia].
Qed.

Lemma np_index_out (n : nat) (i : Z) :
  i < - Z.of_nat n \/ Z.of_nat n <= i -> np_index n i = None.
Proof.
  intros Hi. unfold np_index.
  destruct (0 <=? i) eqn:E1, (i <? Z.of_nat n) eqn:E2,
    (- Z.of_nat n <=? i) eqn:E3, (i <? 0) eqn:E4; cbn; try reflexivity; lia.
Qed.

Lemma np_index_lt (n : nat) (i : Z) (k : nat) :
  np_index n i = Some k -> (k < n)%nat.
Proof.
  unfold np_index.
  destruct (0 <=? i) eqn:E1, (i <? Z.of_nat n) eqn:E2,
    (- Z.of_nat n <=? i) eqn:E3, (i <? 0) eqn:E4; cbn;
    intros [= <-]; lia.
Qed.

Lemma shapedb_spec (n : Z) (a : ndarray) :
  shapedb n a = true <->
  Z.of_nat (length a) = n /\
  forall i row, a !! i = Some row -> Z.of_nat (length row) = n.
Proof.
  unfold shapedb. rewrite andb_true_iff, Z.eqb_eq, forallb_forall.
  split; intros [Hl Hr]; split; try assumption.
  - intros i row Hrow. apply Z.eqb_eq, Hr.
    apply list_elem_of_In, list_elem_of_lookup. eauto.
  - intros row Hin. apply Z.eqb_eq.
    apply list_elem_of_In, list_elem_of_lookup in Hin as [i Hi]. eauto.
Qed.

(** Reading an entry of an (n, n) array at a position on the grid. *)
Lemma np_get_in (n : Z) (a : ndarray) (r c : Z) :
  shapedb n a = true -> 0 <= r < n -> 0 <= c < n ->
  exists row v,
    a !! Z.to_nat r = Some row /\ row !! Z.to_nat c = Some v /\
    np_get a r c = Ok v.
Proof.
  intros [Hl Hrows]%shapedb_spec Hr Hc.
  destruct (lookup_lt_is_Some_2 a (Z.to_nat r)) as [row Hrow]; [lia |].
  pose proof (Hrows _ _ Hrow) as Hlen.
  destruct (lookup_lt_is_Some_2 row (Z.to_nat c)) as [v Hv]; [lia |].
  exists row, v. repeat split; try assumption.
  unfold np_get. rewrite np_index_in by lia. rewrite Hrow.
  rewrite np_index_in by lia. now rewrite Hv.
Qed.

(** Outside [[-n, n)] on either axis, reading fails. *)
Lemma np_get_out (n : Z) (a : ndarray) (r c : Z) :
  shapedb n a = true ->
  ~ (- n <= r < n) \/ ~ (- n <= c < n) ->
  np_get a r c = Raise IndexError.
Proof.
  intros [Hl Hrows]%shapedb_spec Hout. unfold np_get.
  destruct (np_index (length a) r) as [i |] eqn:Ei; [| reflexivity].
  destruct (a !! i) as [row |] eqn:Hrow; [| reflexivity].
  pose proof (Hrows _ _ Hrow) as Hlen.
  destruct (np_index (length row) c) as [j |] eqn:Ej; [| reflexivity].
  exfalso.
  assert (- n <= r < n).
  { destruct (Z_lt_le_dec r (- n)); [rewrite np_index_out in Ei by lia; discriminate |].
    destruct (Z_lt_le_dec r n); [lia |].
    rewrite np_index_out in Ei by lia; discriminate. }
  assert (- n <= c < n).
  { destruct (Z_lt_le_dec c (- n)); [rewrite np_index_out in Ej by lia; discriminate |].
    destruct (Z_lt_le_dec c n); [lia |].
    rewrite np_index_out in Ej by lia; discriminate. }
  tauto.
Qed.

(** Inside [[-n, n)] on both axes, reading succeeds. *)
Lemma np_get_wrap (n : Z) (a : ndarray) (r c : Z) :
  shapedb n a = true -> - n <= r < n -> - n <= c < n ->
  exists v, np_get a r c = Ok v /\
            np_get a (r mod n) (c mod n) = Ok v.
Proof.
  intros Hs Hr Hc.
  assert (Hn : 0 < n) by lia.
  destruct (np_get_in n a (r mod n) (c mod n) Hs) as (row & v & Hrow & Hv & Hget).
  { now apply Z.mod_pos_bound. }
  { now apply Z.mod_pos_bound. }
  exists v. split; [| assumption].
  apply shapedb_spec in Hs as [Hl Hrows].
  pose proof (Hrows _ _ Hrow) as Hlen.
  assert (Hi : np_index (length a) r = Some (Z.to_nat (r mod n))).
  { destruct (Z_lt_le_dec r 0).
    - rewrite np_index_wrap by lia. f_equal. f_equal.
      rewrite Hl. apply Z.mod_unique with (q := -1); lia.
    - rewrite np_index_in by lia. now rewrite Z.mod_small by lia. }
  assert (Hj : np_index (length row) c = Some (Z.to_nat (c mod n))).
  { destruct (Z_lt_le_dec c 0).
    - rewrite np_index_wrap by lia. f_equal. f_equal.
      rewrite Hlen. apply Z.mod_unique with (q := -1); lia.
    - rewrite np_index_in by lia. now rewrite Z.mod_small by lia. }
  unfold np_get. now rewrite Hi, Hrow, Hj, Hv.
Qed.

(** Writing an entry: the shape is kept, the entry reads back, the other
    entries are untouched, and the sum moves by the difference. *)
Lemma np_set_in (n : Z) (a : ndarray) (r c v : Z) :
  shapedb n a = true -> 0 <= r < n -> 0 <= c < n ->
  exists row,
    a !! Z.to_nat r = Some row /\
    np_set a r c v = Ok (<[Z.to_nat r := <[Z.to_nat c := v]> row]> a).
Proof.
  intros Hs Hr Hc.
  destruct (np_get_in n a r c Hs Hr Hc) as (row & _ & Hrow & _ & _).
  apply shapedb_spec in Hs as [Hl Hrows].
  pose proof (Hrows _ _ Hrow) as Hlen.
  exists row. split; [assumption |].
  unfold np_set. rewrite np_index_in by lia. rewrite Hrow.
  now rewrite np_index_in by lia.
Qed.

Lemma np_set_shaped (n : Z) (a a' : ndarray) (r c v : Z) :
  np_set a r c v = Ok a' -> shapedb n a = true -> shapedb n a' = true.
Proof.
  unfold np_set.
  destruct (np_index (length a) r) as [i |]; [| discriminate].
  destruct (a !! i) as [row |] eqn:Hrow; [| discriminate].
  destruct (np_index (length row) c) as [j |]; [| discriminate].
  intros [= <-]. rewrite !shapedb_spec. intros [Hl Hrows].
  split; [now rewrite length_insert |].
  intros k row' Hk.
  destruct (decide (i = k)) as [-> | Hne].
  - rewrite list_lookup_insert_eq in Hk by (eapply lookup_lt_Some; eauto).
    injection Hk as <-. rewrite length_insert. eauto.
  - rewrite list_lookup_insert_ne in Hk by assumption. eauto.
Qed.

Lemma np_get_set_same (a a' : ndarray) (r c v : Z) :
  np_set a r c v = Ok a' -> np_get a' r c = Ok v.
Proof.
  unfold np_set, np_get.
  destruct (np_index (length a) r) as [i |] eqn:Ei; [| discriminate].
  destruct (a !! i) as [row |] eqn:Hrow; [| discriminate].
  destruct (np_index (length row) c) as [j |] eqn:Ej; [| discriminate].
  intros [= <-]. rewrite length_insert, Ei.
  rewrite list_lookup_insert_eq by (eapply lookup_lt_Some; eauto).
  rewrite length_insert, Ej.
  rewrite list_lookup_insert_eq by (eapply np_index_lt; eauto).
  reflexivity.
Qed.

Lemma np_get_set_other (n : Z) (a a' : ndarray) (r c v r' c' : Z) :
  shapedb n a = true -> 0 <= r < n -> 0 <= c < n ->
  0 <= r' < n -> 0 <= c' < n -> (r, c) <> (r', c') ->
  np_set a r c v = Ok a' -> np_get a' r' c' = np_get a r' c'.
Proof.
  intros Hs Hr Hc Hr' Hc' Hne Hset.
  destruct (np_set_in n a r c v Hs Hr Hc) as (row & Hrow & Heq).
  rewrite Heq in Hset. injection Hset as <-.
  pose proof Hs as [Hl Hrows]%shapedb_spec.
  pose proof (Hrows _ _ Hrow) as Hlen.
  unfold np_get. rewrite length_insert.
  rewrite np_index_in by lia.
  destruct (decide (r = r')) as [<- | Hrr].
  - rewrite list_lookup_insert_eq by (eapply lookup_lt_Some; eauto).
    rewrite Hrow, length_insert.
    rewrite np_index_in by lia.
    rewrite list_lookup_insert_ne; [reflexivity |].
    intros Heq'. apply Hne. f_equal. lia.
  - rewrite list_lookup_insert_ne by lia. reflexivity.
Qed.

Lemma sum_Z_cons (h : Z) (t : list Z) : sum_Z (h :: t) = h + sum_Z t.
Proof. reflexivity. Qed.

Lemma sum_Z_insert (l : list Z) (i : nat) (old v : Z) :
  l !! i = Some old -> sum_Z (<[i := v]> l) = sum_Z l - old + v.
Proof.
  revert i. induction l as [| h t IH]; intros [| i] Hi; try discriminate.
  - injection Hi as ->. change (<[0%nat := v]> (old :: t)) with (v :: t).
    rewrite !sum_Z_cons. lia.
  - change (<[S i := v]> (h :: t)) with (h :: <[i := v]> t).
    rewrite !sum_Z_cons, (IH i Hi). lia.
Qed.

Lemma np_sum_insert (a : ndarray) (i : nat) (row row' : list Z) :
  a !! i = Some row ->
  np_sum (<[i := row']> a) = np_sum a - sum_Z row + sum_Z row'.
Proof.
  unfold np_sum. revert i.
  induction a as [| h t IH]; intros [| i] Hi; try discriminate.
  - injection Hi as ->. change (<[0%nat := row']> (row :: t)) with (row' :: t).
    rewrite !map_cons, !sum_Z_cons. lia.
  - change (<[S i := row']> (h :: t)) with (h :: <[i := row']> t).
    rewrite !map_cons, !sum_Z_cons, (IH i Hi). lia.
Qed.

Lemma np_sum_set (a a' : ndarray) (r c old v : Z) :
  np_get a r c = Ok old -> np_set a r c v = Ok a' ->
  np_sum a' = np_sum a - old + v.
Proof.
  unfold np_get, np_set.
  destruct (np_index (length a) r) as [i |]; [| discriminate].
  destruct (a !! i) as [row |] eqn:Hrow; [| discriminate].
  destruct (np_index (length row) c) as [j |]; [| discriminate].
  destruct (row !! j) as [w |] eqn:Hw; [| discriminate].
  intros [= ->] [= <-].
  rewrite (np_sum_insert _ _ _ _ Hrow), (sum_Z_insert _ _ _ _ Hw). lia.
Qed.

(** A successful read is followed by a successful write at the same place. *)
Lemma np_set_after_get (a : ndarray) (r c old v : Z) :
  np_get a r c = Ok old -> exists a', np_set a r c v = Ok a'.
Proof.
  unfold np_get, np_set.
  destruct (np_index (length a) r) as [i |]; [| discriminate].
  destruct (a !! i) as [row |]; [| discriminate].
  destruct (np_index (length row) c) as [j |]; [| discriminate].
  eauto.
Qed.

Lemma binaryb_spec (a : ndarray) :
  binaryb a = true <->
  forall i row j v, a !! i = Some row -> row !! j = Some v -> v = 0 \/ v = 1.
Proof.
  unfold binaryb. rewrite forallb_forall. split.
  - intros H i row j v Hrow Hv.
    assert (Hin : In row a) by (apply list_elem_of_In, list_elem_of_lookup; eauto).
    specialize (H _ Hin). rewrite forallb_forall in H.
    assert (Hin' : In v row) by (apply list_elem_of_In, list_elem_of_lookup; eauto).
    specialize (H _ Hin'). lia.
  - intros H row Hin. apply forallb_forall. intros v Hin'.
    apply list_elem_of_In, list_elem_of_lookup in Hin as [i Hi].
    apply list_elem_of_In, list_elem_of_lookup in Hin' as [j Hj].
    specialize (H _ _ _ _ Hi Hj). lia.
Qed.

Lemma np_set_binary (a a' : ndarray) (r c v : Z) :
  np_set a r c v = Ok a' -> v = 0 \/ v = 1 ->
  binaryb a = true -> binaryb a' = true.
Proof.
  unfold np_set.
  destruct (np_index (length a) r) as [i |]; [| discriminate].
  destruct (a !! i) as [row |] eqn:Hrow; [| discriminate].
  destruct (np_index (length row) c) as [j |]; [| discriminate].
  intros [= <-] Hv. rewrite !binaryb_spec. intros H k row' l w Hk Hl.
  destruct (decide (i = k)) as [-> | Hne].
  - rewrite list_lookup_insert_eq in Hk by (eapply lookup_lt_Some; eauto).
    injection Hk as <-.
    destruct (decide (j = l)) as [-> | Hne'].
    + assert (Hlt : (l < length row)%nat).
      { apply lookup_lt_Some in Hl. now rewrite length_insert in Hl. }
      rewrite list_lookup_insert_eq in Hl by assumption.
      now injection Hl as <-.
    + rewrite list_lookup_insert_ne in Hl by assumption. eauto.
  - rewrite list_lookup_insert_ne in Hk by assumption. eauto.
Qed.

(** On a 0/1 array the sum counts the ones. *)
Lemma np_sum_count_ones (a : ndarray) :
  binaryb a = true -> np_sum a = count_ones a.
Proof.
  unfold binaryb, np_sum, count_ones.
  induction a as [| row t IH]; [reflexivity |].
  cbn [forallb]. intros [Hrow Ht]%andb_true_iff.
  rewrite !map_cons, !sum_Z_cons, (IH Ht). f_equal.
  clear -Hrow. induction row as [| v row IH]; [reflexivity |].
  cbn [forallb] in Hrow. apply andb_true_iff in Hrow as [Hv Hrow].
  rewrite filter_cons, sum_Z_cons, (IH Hrow).
  destruct (decide (v = 1)) as [-> | Hne]; cbn [length]; lia.
Qed.

Lemma count_ones_nonneg (a : ndarray) : 0 <= count_ones a.
Proof.
  unfold count_ones. induction a as [| row t IH]; [cbn; lia |].
  rewrite map_cons, sum_Z_cons. lia.
Qed.

(** Inside [[-n, n)] an index and its residue modulo [n] select the same
    place, for reading and for writing. *)
Lemma np_index_mod (n : nat) (i : Z) :
  - Z.of_nat n <= i < Z.of_nat n ->
  np_index n i = np_index n (i mod Z.of_nat n).
Proof.
  intros Hi. destruct (Z_lt_le_dec i 0) as [Hneg | Hpos].
  - assert (Hm : i mod Z.of_nat n = Z.of_nat n + i).
    { symmetry. apply Z.mod_unique with (q := -1); lia. }
    rewrite Hm, np_index_wrap by lia. now rewrite np_index_in by lia.
  - now rewrite Z.mod_small by lia.
Qed.

Lemma np_get_mod (n : Z) (a : ndarray) (r c : Z) :
  shapedb n a = true -> - n <= r < n -> - n <= c < n ->
  np_get a r c = np_get a (r mod n) (c mod n).
Proof.
  intros [Hl Hrows]%shapedb_spec Hr Hc. unfold np_get.
  rewrite (np_index_mod (length a) r) by lia. rewrite Hl.
  destruct (np_index (length a) (r mod n)) as [i |]; [| reflexivity].
  destruct (a !! i) as [row |] eqn:Hrow; [| reflexivity].
  pose proof (Hrows _ _ Hrow) as Hlen.
  rewrite (np_index_mod (length row) c) by lia. now rewrite Hlen.
Qed.

Lemma np_set_mod (n : Z) (a : ndarray) (r c v : Z) :
  shapedb n a = true -> - n <= r < n -> - n <= c < n ->
  np_set a r c v = np_set a (r mod n) (c mod n) v.
Proof.
  intros [Hl Hrows]%shapedb_spec Hr Hc. unfold np_set.
  rewrite (np_index_mod (length a) r) by lia. rewrite Hl.
  destruct (np_index (length a) (r mod n)) as [i |]; [| reflexivity].
  destruct (a !! i) as [row |] eqn:Hrow; [| reflexivity].
  pose proof (Hrows _ _ Hrow) as Hlen.
  rewrite (np_index_mod (length row) c) by lia. now rewrite Hlen.
Qed.

End Indexing.

(** ** The environment's methods *)

Section Environment.

Lemma env_wf_shape (e : VacuumEnvironment) :
  env_wf e -> shapedb (e_size e) (e_grid e) = true.
Proof. unfold env_wf. now intros [? ?]%andb_true_iff. Qed.

Lemma env_wf_binary (e : VacuumEnvironment) :
  env_wf e -> binaryb (e_grid e) = true.
Proof. unfold env_wf. now intros [? ?]%andb_true_iff. Qed.

Lemma is_dirty_in (e : VacuumEnvironment) (x y : Z) :
  env_wf e -> in_bounds (e_size e) x y ->
  is_dirty e x y = Ok true \/ is_dirty e x y = Ok false.
Proof.
  intros Hwf [Hx Hy]. unfold is_dirty.
  destruct (np_get_in _ _ y x (env_wf_shape _ Hwf) Hy Hx) as (row & v & _ & _ & ->).
  destruct (v =? 1); auto.
Qed.

Lemma clean_raise (e : VacuumEnvironment) (x y : Z) (ex : exn) :
  is_dirty e x y = Raise ex -> clean e x y = (Raise ex, e).
Proof.
  unfold is_dirty, clean. destruct (np_get (e_grid e) y x); [discriminate |].
  now intros [= ->].
Qed.

Lemma clean_clean (e : VacuumEnvironment) (x y : Z) :
  is_dirty e x y = Ok false -> clean e x y = (Ok false, e).
Proof.
  unfold is_dirty, clean. destruct (np_get (e_grid e) y x); [| discriminate].
  now intros [= ->].
Qed.

(** Cleaning a dirty cell: it answers [True], writes 0 into that one cell,
    and touches neither [size] nor [initial_dirt]. *)
Lemma clean_dirty (e : VacuumEnvironment) (x y : Z) :
  is_dirty e x y = Ok true ->
  exists g,
    np_set (e_grid e) y x 0 = Ok g /\
    clean e x y = (Ok true, Env (e_size e) g (e_initial_dirt e)) /\
    np_sum g = get_total_dirt e - 1 /\
    is_dirty (Env (e_size e) g (e_initial_dirt e)) x y = Ok false.
Proof.
  unfold is_dirty, clean, get_total_dirt.
  destruct (np_get (e_grid e) y x) as [v |] eqn:Hget; [| discriminate].
  intros [= Hv]. rewrite Hv. apply Z.eqb_eq in Hv as ->.
  destruct (np_set_after_get _ _ _ _ 0 Hget) as [g Hset].
  exists g. rewrite Hset. repeat split; try reflexivity.
  - rewrite (np_sum_set _ _ _ _ _ _ Hget Hset). lia.
  - cbn [e_grid]. now rewrite (np_get_set_same _ _ _ _ _ Hset).
Qed.

(** [clean] never changes [size] or [initial_dirt], and keeps the grid
    well formed. *)
Lemma clean_frame (e : VacuumEnvironment) (x y : Z) :
  e_size (snd (clean e x y)) = e_size e /\
  e_initial_dirt (snd (clean e x y)) = e_initial_dirt e /\
  (env_wf e -> env_wf (snd (clean e x y))).
Proof.
  unfold clean.
  destruct (np_get (e_grid e) y x) as [v |]; [| now auto].
  destruct (v =? 1); [| now auto].
  destruct (np_set (e_grid e) y x 0) as [g |] eqn:Hset; [| now auto].
  cbn. repeat split. unfold env_wf. cbn.
  intros [Hs Hb]%andb_true_iff. apply andb_true_iff. split.
  - eapply np_set_shaped; eauto.
  - eapply np_set_binary; eauto.
Qed.

(** What [clean] returns is what [is_dirty] would have returned. *)
Lemma clean_result (e : VacuumEnvironment) (x y : Z) :
  fst (clean e x y) = is_dirty e x y.
Proof.
  destruct (is_dirty e x y) as [[|] |] eqn:H.
  - destruct (clean_dirty _ _ _ H) as (g & _ & -> & _). reflexivity.
  - now rewrite (clean_clean _ _ _ H).
  - now rewrite (clean_raise _ _ _ _ H).
Qed.

(** The dirt count moves down by one exactly when [clean] answers [True]. *)
Lemma clean_total_dirt (e : VacuumEnvironment) (x y : Z) :
  get_total_dirt (snd (clean e x y)) =
  get_total_dirt e - (match fst (clean e x y) with Ok true => 1 | _ => 0 end).
Proof.
  destruct (is_dirty e x y) as [[|] |] eqn:H.
  - destruct (clean_dirty _ _ _ H) as (g & _ & -> & Hsum & _). cbn.
    unfold get_total_dirt at 1. cbn. assumption.
  - rewrite (clean_clean _ _ _ H). cbn. lia.
  - rewrite (clean_raise _ _ _ _ H). cbn. lia.
Qed.

End Environment.

(** C4 (as amended). Coordinates are checked by numpy's indexing only: with
    x or y outside [-N, N) both [is_dirty] and [clean] raise [IndexError]
    and leave the environment as it was; with both inside [-N, N) both
    return normally, and a coordinate in [-N, 0) addresses the cell counted
    from the far edge: [is_dirty(x, y)] and [clean(x, y)] answer, and
    [clean] leaves the environment, exactly as at (x mod N, y mod N). *)
Theorem index_checked_by_numpy (e : VacuumEnvironment) (x y : Z) :
  env_wf e ->
  (~ (- e_size e <= x < e_size e) \/ ~ (- e_size e <= y < e_size e) ->
   is_dirty e x y = Raise IndexError /\ clean e x y = (Raise IndexError, e)) /\
  (- e_size e <= x < e_size e -> - e_size e <= y < e_size e ->
   is_ok (is_dirty e x y) = true /\ is_ok (fst (clean e x y)) = true /\
   is_dirty e x y = is_dirty e (x mod e_size e) (y mod e_size e) /\
   clean e x y = clean e (x mod e_size e) (y mod e_size e) /\
   in_bounds (e_size e) (x mod e_size e) (y mod e_size e)).
Proof.
  intros Hwf. split.
  - intros Hout.
    assert (H : is_dirty e x y = Raise IndexError).
    { unfold is_dirty.
      rewrite (np_get_out _ _ y x (env_wf_shape _ Hwf)) by tauto. reflexivity. }
    split; [assumption | now apply clean_raise].
  - intros Hx Hy.
    destruct (np_get_wrap _ _ y x (env_wf_shape _ Hwf) Hy Hx) as (v & Hv & Hv').
    assert (H : is_dirty e x y = Ok (v =? 1)) by (unfold is_dirty; now rewrite Hv).
    rewrite clean_result, H.
    split; [reflexivity |]. split; [reflexivity |]. split; [| split].
    + unfold is_dirty. now rewrite Hv'.
    + unfold clean.
      rewrite (np_get_mod _ _ y x (env_wf_shape _ Hwf) Hy Hx).
      now rewrite (np_set_mod _ _ y x 0 (env_wf_shape _ Hwf) Hy Hx).
    + split; apply Z.mod_pos_bound; lia.
Qed.

Lemma index_checked_by_numpy_witness :
  is_dirty env_2x2 (-1) 0 = is_dirty env_2x2 1 0 /\
  clean env_2x2 (-1) (-2) = clean env_2x2 1 0 /\
  clean env_2x2 5 0 = (Raise IndexError, env_2x2).
Proof.
  pose proof (index_checked_by_numpy env_2x2 (-1) 0 eq_refl) as [_ Hin].
  pose proof (index_checked_by_numpy env_2x2 (-1) (-2) eq_refl) as [_ Hin'].
  pose proof (index_checked_by_numpy env_2x2 5 0 eq_refl) as [Hout _].
  split; [| split].
  - apply Hin; cbn; lia.
  - apply Hin'; cbn; lia.
  - apply Hout. left. cbn. lia.
Defined.

(** C4, counterexample: on a 2 x 2 grid the coordinate x = -1 is outside
    [0, N), yet [is_dirty] and [clean] both return normally. *)
Lemma negative_coordinate_accepted :
  env_wf env_2x2 /\ ~ (0 <= -1 < e_size env_2x2) /\
  is_dirty env_2x2 (-1) 0 = Ok true /\
  fst (clean env_2x2 (-1) 0) = Ok true.
Proof.
  repeat split. cbn. lia.
Qed.

(** C5. On a well-formed environment and a position on the grid: if the
    cell is dirty, [clean] answers [True] and the dirt count drops by
    exactly one, and a second [clean] answers [False] and changes nothing;
    if the cell is clean, [clean] answers [False] and changes nothing. *)
Theorem clean_twice (e : VacuumEnvironment) (x y : Z) :
  env_wf e -> in_bounds (e_size e) x y ->
  (is_dirty e x y = Ok true /\
   exists e1,
     clean e x y = (Ok true, e1) /\
     get_total_dirt e1 = get_total_dirt e - 1 /\
     clean e1 x y = (Ok false, e1)) \/
  (is_dirty e x y = Ok false /\ clean e x y = (Ok false, e)).
Proof.
  intros Hwf Hin.
  destruct (is_dirty_in e x y Hwf Hin) as [Hd | Hc].
  - left. split; [assumption |].
    destruct (clean_dirty _ _ _ Hd) as (g & _ & Hcl & Hsum & Hafter).
    eexists. split; [eassumption |]. split; [assumption |].
    now apply clean_clean.
  - right. split; [assumption | now apply clean_clean].
Qed.

Lemma clean_twice_witness :
  exists e1,
    clean env_2x2 1 0 = (Ok true, e1) /\
    get_total_dirt e1 = get_total_dirt env_2x2 - 1 /\
    clean e1 1 0 = (Ok false, e1).
Proof.
  assert (Hin : in_bounds (e_size env_2x2) 1 0) by (cbn; unfold in_bounds; lia).
  destruct (clean_twice env_2x2 1 0 eq_refl Hin) as [[_ H] | [H _]].
  - exact H.
  - discriminate H.
Defined.

(** ** Construction of the environment *)

Section Construction.

Lemma uniform_lt_1 (raw : N) : (uniform raw < 1)%Q.
Proof.
  unfold uniform, Qlt. cbn [Qnum Qden].
  pose proof (Z.mod_pos_bound (Z.of_N raw) (2 ^ 53) eq_refl). lia.
Qed.

Lemma choose01_binary (p0 p1 u : Q) :
  (p0 + p1 == 1)%Q -> (u < 1)%Q ->
  choose01 p0 p1 u = 0 \/ choose01 p0 p1 u = 1.
Proof.
  intros Hsum Hu. unfold choose01.
  destruct (Qle_bool (p0 + p1) u) eqn:E.
  - apply Qle_bool_iff in E. rewrite Hsum in E.
    exfalso. apply (Qlt_not_le _ _ Hu E).
  - destruct (Qle_bool p0 u); auto.
Qed.

Lemma table_shaped (k : nat) (f : nat -> nat -> Z) :
  shapedb (Z.of_nat k)
    (map (fun i => map (f i) (seq 0 k)) (seq 0 k)) = true.
Proof.
  apply shapedb_spec. split.
  - now rewrite length_map, length_seq.
  - intros i row Hrow.
    apply list_elem_of_lookup_2, list_elem_of_In, in_map_iff in Hrow
      as (i' & <- & _).
    now rewrite length_map, length_seq.
Qed.

Lemma table_binary (k : nat) (f : nat -> nat -> Z) :
  (forall i j, f i j = 0 \/ f i j = 1) ->
  binaryb (map (fun i => map (f i) (seq 0 k)) (seq 0 k)) = true.
Proof.
  intros Hf. apply binaryb_spec. intros i row j v Hrow Hv.
  apply list_elem_of_lookup_2, list_elem_of_In, in_map_iff in Hrow
    as (i' & <- & _).
  apply list_elem_of_lookup_2, list_elem_of_In, in_map_iff in Hv
    as (j' & <- & _).
  apply Hf.
Qed.

(** With a size that is not negative and a probability in [0, 1] the
    constructor returns a well-formed environment whose [initial_dirt] is
    the sum of its grid. *)
Lemma VacuumEnvironment_init_ok (size : Z) (p : Q) (r : random_state) :
  0 <= size -> (0 <= p)%Q -> (p <= 1)%Q ->
  exists g,
    VacuumEnvironment_init size p r =
      (Ok (Env size g (np_sum g)), advance (Z.to_nat size * Z.to_nat size) r) /\
    env_wf (Env size g (np_sum g)).
Proof.
  intros Hn Hp0 Hp1. unfold VacuumEnvironment_init, np_random_choice01.
  assert (H0 : Qle_bool 0 (1 - p) = true).
  { apply Qle_bool_iff. unfold Qminus. rewrite <- (Qplus_opp_r p).
    apply Qplus_le_l. assumption. }
  assert (H1 : Qle_bool 0 p = true) by now apply Qle_bool_iff.
  assert (Hsum : (1 - p + p == 1)%Q) by ring.
  assert (H2 : Qeq_bool (1 - p + p) 1 = true) by now apply Qeq_bool_iff.
  rewrite H0, H1, H2. cbn [negb orb].
  destruct (size <? 0) eqn:E; [lia |].
  eexists. split; [reflexivity |].
  unfold env_wf. cbn [e_size e_grid]. apply andb_true_iff. split.
  - rewrite <- (Z2Nat.id size) at 1 by assumption.
    apply (table_shaped (Z.to_nat size)
             (fun i j => choose01 (1 - p) p
                (uniform (draws r (cursor r + i * Z.to_nat size + j)%nat)))).
  - apply (table_binary (Z.to_nat size)
             (fun i j => choose01 (1 - p) p
                (uniform (draws r (cursor r + i * Z.to_nat size + j)%nat)))).
    intros i j. apply choose01_binary; [assumption | apply uniform_lt_1].
Qed.

(** A negative size, or a probability outside [0, 1], is refused by numpy
    with a [ValueError]. *)
Lemma VacuumEnvironment_init_refused (size : Z) (p : Q) (r : random_state) :
  size < 0 \/ (p < 0)%Q \/ (1 < p)%Q ->
  VacuumEnvironment_init size p r = (Raise ValueError, r).
Proof.
  intros H. unfold VacuumEnvironment_init, np_random_choice01.
  destruct (Qle_bool 0 (1 - p)) eqn:E0; [| reflexivity].
  destruct (Qle_bool 0 p) eqn:E1; [| reflexivity].
  cbn [negb orb].
  destruct (negb (Qeq_bool (1 - p + p) 1)); [reflexivity |].
  apply Qle_bool_iff in E0, E1.
  destruct H as [H | [H | H]].
  - destruct (size <? 0) eqn:E; [reflexivity | lia].
  - exfalso. apply (Qlt_not_le _ _ H E1).
  - exfalso. apply (Qlt_not_le _ _ H).
    apply (Qplus_le_l _ _ (- p)). rewrite Qplus_opp_r. exact E0.
Qed.

End Construction.

(** ** One call of [act], case by case *)

Section SimpleReflexSteps.

Variables (e : VacuumEnvironment) (a : SimpleReflexAgent) (g : random_state).

Lemma simple_act_capped :
  MAX_STEPS <= sr_moves a ->
  SimpleReflexAgent_act (Heap e a g) = (Ok None, Heap e a g).
Proof.
  intros H. unfold SimpleReflexAgent_act, bind, get_self, ret. cbn.
  destruct (MAX_STEPS <=? sr_moves a) eqn:E; [reflexivity | lia].
Qed.

Lemma simple_act_raise (ex : exn) :
  sr_moves a < MAX_STEPS ->
  is_dirty e (sr_x a) (sr_y a) = Raise ex ->
  SimpleReflexAgent_act (Heap e a g) = (Raise ex,
     Heap e (SimpleReflex (sr_x a) (sr_y a) (sr_moves a + 1) (sr_cleaned a)) g).
Proof.
  intros H Hd.
  unfold SimpleReflexAgent_act, SimpleReflexAgent_perceive, bind, get_self,
    set_self, env_is_dirty, ret. cbn.
  destruct (MAX_STEPS <=? sr_moves a) eqn:E; [lia |].
  cbn. now rewrite Hd.
Qed.

Lemma simple_act_dirty :
  sr_moves a < MAX_STEPS ->
  is_dirty e (sr_x a) (sr_y a) = Ok true ->
  SimpleReflexAgent_act (Heap e a g) =
    (Ok (Some CLEAN),
     Heap (snd (clean e (sr_x a) (sr_y a)))
       (SimpleReflex (sr_x a) (sr_y a) (sr_moves a + 1) (sr_cleaned a + 1)) g).
Proof.
  intros H Hd.
  destruct (clean_dirty _ _ _ Hd) as (gr & _ & Hcl & _).
  unfold SimpleReflexAgent_act, SimpleReflexAgent_perceive, bind, get_self,
    set_self, env_is_dirty, env_clean, ret. cbn.
  destruct (MAX_STEPS <=? sr_moves a) eqn:E; [lia |].
  cbn. rewrite Hd. cbn. rewrite Hcl. reflexivity.
Qed.

Lemma simple_act_clean :
  sr_moves a < MAX_STEPS ->
  is_dirty e (sr_x a) (sr_y a) = Ok false ->
  SimpleReflexAgent_act (Heap e a g) =
    match random_choice (possible_moves (e_size e) (sr_x a) (sr_y a)) g with
    | (Ok (d, nx, ny), g') =>
        (Ok (Some d),
         Heap e (SimpleReflex nx ny (sr_moves a + 1) (sr_cleaned a)) g')
    | (Raise ex, g') =>
        (Raise ex,
         Heap e (SimpleReflex (sr_x a) (sr_y a) (sr_moves a + 1) (sr_cleaned a)) g')
    end.
Proof.
  intros H Hd.
  unfold SimpleReflexAgent_act, SimpleReflexAgent_perceive, bind, get_self,
    get_env, set_self, env_is_dirty, choice, ret. cbn.
  destruct (MAX_STEPS <=? sr_moves a) eqn:E; [lia |].
  cbn. rewrite Hd. cbn.
  destruct (random_choice _ g) as [[[[d nx] ny] | ex] g']; reflexivity.
Qed.

End SimpleReflexSteps.

Section ModelBasedSteps.

Variables (e : VacuumEnvironment) (a : ModelBasedAgent) (g : random_state).

Lemma model_perceive (b : bool) (m : ndarray) :
  is_dirty e (mb_x a) (mb_y a) = Ok b ->
  np_set (mb_memory a) (mb_y a) (mb_x a) (if b then 1 else 0) = Ok m ->
  ModelBasedAgent_perceive (Heap e a g) = (Ok b, Heap e (with_memory a m) g).
Proof.
  intros Hd Hm.
  unfold ModelBasedAgent_perceive, memory_set, bind, get_self, set_self,
    env_is_dirty, lift_result, ret. cbn.
  rewrite Hd. cbn. rewrite Hm. reflexivity.
Qed.

Lemma model_act_capped :
  MAX_STEPS <= mb_moves a ->
  ModelBasedAgent_act (Heap e a g) = (Ok None, Heap e a g).
Proof.
  intros H. unfold ModelBasedAgent_act, bind, get_self, ret. cbn.
  destruct (MAX_STEPS <=? mb_moves a) eqn:E; [reflexivity | lia].
Qed.

Lemma model_act_dirty (m1 m2 : ndarray) :
  mb_moves a < MAX_STEPS ->
  is_dirty e (mb_x a) (mb_y a) = Ok true ->
  np_set (mb_memory a) (mb_y a) (mb_x a) 1 = Ok m1 ->
  np_set m1 (mb_y a) (mb_x a) 0 = Ok m2 ->
  ModelBasedAgent_act (Heap e a g) =
    (Ok (Some CLEAN),
     Heap (snd (clean e (mb_x a) (mb_y a)))
       (ModelBased (mb_x a) (mb_y a) (mb_moves a + 1) (mb_cleaned a + 1) m2) g).
Proof.
  intros H Hd Hm1 Hm2.
  destruct (clean_dirty _ _ _ Hd) as (gr & _ & Hcl & _).
  unfold ModelBasedAgent_act, ModelBasedAgent_perceive, memory_set, bind,
    get_self, set_self, env_is_dirty, env_clean, lift_result, ret. cbn.
  destruct (MAX_STEPS <=? mb_moves a) eqn:E; [lia |].
  cbn. rewrite Hd. cbn. rewrite Hm1. cbn. rewrite Hcl. cbn. rewrite Hm2.
  reflexivity.
Qed.

Lemma model_act_clean (m1 : ndarray) (unvisited : list move) :
  mb_moves a < MAX_STEPS ->
  is_dirty e (mb_x a) (mb_y a) = Ok false ->
  np_set (mb_memory a) (mb_y a) (mb_x a) 0 = Ok m1 ->
  unvisited_of m1 (possible_moves (e_size e) (mb_x a) (mb_y a)) = Ok unvisited ->
  ModelBasedAgent_act (Heap e a g) =
    match random_choice
            (match unvisited with
             | [] => possible_moves (e_size e) (mb_x a) (mb_y a)
             | _ => unvisited
             end) g with
    | (Ok (d, nx, ny), g') =>
        (Ok (Some d),
         Heap e (ModelBased nx ny (mb_moves a + 1) (mb_cleaned a) m1) g')
    | (Raise ex, g') =>
        (Raise ex,
         Heap e (ModelBased (mb_x a) (mb_y a) (mb_moves a + 1) (mb_cleaned a) m1) g')
    end.
Proof.
  intros H Hd Hm1 Hu.
  unfold ModelBasedAgent_act, ModelBasedAgent_perceive, memory_set, bind,
    get_self, get_env, set_self, env_is_dirty, choice, lift_result, ret. cbn.
  destruct (MAX_STEPS <=? mb_moves a) eqn:E; [lia |].
  cbn. rewrite Hd. cbn. rewrite Hm1. cbn. rewrite Hu.
  destruct (random_choice _ g) as [[[[d nx] ny] | ex] g']; reflexivity.
Qed.

End ModelBasedSteps.

(** ** Candidate moves and the choice among them *)

Section Moves.

Ltac split_ifs :=
  repeat match goal with
    | |- context [if ?b then _ else _] => destruct b eqn:?
    | H : context [if ?b then _ else _] |- _ => destruct b eqn:?
    end.

Lemma possible_moves_spec (size x y : Z) (m : move) :
  in_bounds size x y ->
  m ∈ possible_moves size x y <-> neighbour size x y m.
Proof.
  intros [Hx Hy]. destruct m as [[d x'] y'].
  unfold possible_moves, neighbour, in_bounds.
  rewrite !elem_of_app. split.
  - intros H. split_ifs;
      rewrite ?elem_of_cons, ?elem_of_nil in H;
      destruct_or?; simplify_eq; try contradiction;
      (split; [lia | tauto]).
  - intros [Hb [(-> & -> & ->) | [(-> & -> & ->) | [(-> & -> & ->) | (-> & -> & ->)]]]].
    + left. destruct (x <? size - 1) eqn:E; [apply list_elem_of_singleton; reflexivity | lia].
    + right; left. destruct (0 <? x) eqn:E; [apply list_elem_of_singleton; reflexivity | lia].
    + right; right; left.
      destruct (y <? size - 1) eqn:E; [apply list_elem_of_singleton; reflexivity | lia].
    + right; right; right.
      destruct (0 <? y) eqn:E; [apply list_elem_of_singleton; reflexivity | lia].
Qed.

Lemma possible_moves_in_bounds (size x y : Z) (d : action) (x' y' : Z) :
  in_bounds size x y -> (d, x', y') ∈ possible_moves size x y ->
  in_bounds size x' y'.
Proof.
  intros Hin Hm. apply (possible_moves_spec _ _ _ _ Hin) in Hm. apply Hm.
Qed.

Lemma possible_moves_not_clean (size x y : Z) (d : action) (x' y' : Z) :
  (d, x', y') ∈ possible_moves size x y -> d <> CLEAN /\ (x', y') <> (x, y).
Proof.
  unfold possible_moves. rewrite !elem_of_app.
  intros H. split_ifs;
    rewrite ?elem_of_cons, ?elem_of_nil in H;
    destruct_or?; simplify_eq; try contradiction;
    (split; [discriminate | intros [=]; lia]).
Qed.

Lemma possible_moves_nonempty (size x y : Z) :
  2 <= size -> in_bounds size x y -> possible_moves size x y <> [].
Proof.
  intros Hn [Hx Hy]. unfold possible_moves.
  destruct (x <? size - 1) eqn:E1; [discriminate |].
  destruct (0 <? x) eqn:E2; [discriminate | lia].
Qed.

Lemma possible_moves_single_cell : possible_moves 1 0 0 = [].
Proof. reflexivity. Qed.

(** At each of the four corners of a grid with at least two rows there are
    exactly two candidates. *)
Lemma possible_moves_corner (size x y : Z) :
  2 <= size -> (x = 0 \/ x = size - 1) -> (y = 0 \/ y = size - 1) ->
  length (possible_moves size x y) = 2%nat.
Proof.
  intros Hn Hx Hy. unfold possible_moves.
  destruct (x <? size - 1) eqn:E1, (0 <? x) eqn:E2,
    (y <? size - 1) eqn:E3, (0 <? y) eqn:E4; try reflexivity; lia.
Qed.

Lemma random_choice_nonempty {A} (seq : list A) (g : random_state) :
  seq <> [] ->
  exists a, a ∈ seq /\ random_choice seq g = (Ok a, advance 1 g).
Proof.
  intros Hne. unfold random_choice. destruct seq as [| a0 t]; [congruence |].
  eexists. split; [| reflexivity].
  apply list_elem_of_In, nth_In.
  pose proof (N.mod_lt (draws g (cursor g)) (N.of_nat (length (a0 :: t)))) as H.
  cbn [length] in *. lia.
Qed.

Lemma random_choice_empty {A} (g : random_state) :
  random_choice (@nil A) g = (Raise IndexError, g).
Proof. reflexivity. Qed.

(** On a memory of the grid's shape and candidates on the grid, the
    comprehension is a filter. *)
Lemma unvisited_of_filter (n : Z) (memory : ndarray) (moves : list move) :
  shapedb n memory = true ->
  (forall d x y, (d, x, y) ∈ moves -> in_bounds n x y) ->
  unvisited_of memory moves = Ok (List.filter (unknownb memory) moves).
Proof.
  intros Hs. induction moves as [| [[d x] y] rest IH]; intros Hin; [reflexivity |].
  cbn [unvisited_of List.filter unknownb].
  destruct (Hin d x y) as [Hx Hy]; [left |].
  destruct (np_get_in _ _ y x Hs Hy Hx) as (row & v & _ & _ & ->).
  rewrite IH by (intros; eapply Hin; right; eassumption).
  reflexivity.
Qed.

Lemma filter_unknown_elem (memory : ndarray) (moves : list move) (m : move) :
  m ∈ List.filter (unknownb memory) moves <->
  m ∈ moves /\ unknownb memory m = true.
Proof. rewrite !list_elem_of_In. apply filter_In. Qed.

End Moves.

(** ** One call of [act] on a well-formed world *)

Section ActOnWorlds.

Lemma clean_keeps_wf (e : VacuumEnvironment) (x y : Z) :
  env_wf e -> env_wf (snd (clean e x y)).
Proof. apply clean_frame. Qed.

Lemma clean_keeps_size (e : VacuumEnvironment) (x y : Z) :
  e_size (snd (clean e x y)) = e_size e.
Proof. apply clean_frame. Qed.

Lemma simple_act_cases (e : VacuumEnvironment) (a : SimpleReflexAgent)
    (g : random_state) :
  world_wf (Heap e (Simple a) g) ->
  act_case (Heap e (Simple a) g)
    (fst (act (Heap e (Simple a) g))) (snd (act (Heap e (Simple a) g))) /\
  world_wf (snd (act (Heap e (Simple a) g))).
Proof.
  intros [Hwf [Hin _]]. cbn in Hwf, Hin.
  unfold act, dispatch. cbn [h_self h_env h_random].
  destruct (Z_lt_le_dec (sr_moves a) MAX_STEPS) as [Hlt | Hge].
  2: { rewrite simple_act_capped by assumption. cbn.
       split; [apply act_capped; exact Hge | exact (conj Hwf (conj Hin I))]. }
  destruct (is_dirty_in e _ _ Hwf Hin) as [Hd | Hd].
  - rewrite simple_act_dirty by assumption. cbn. split.
    + apply act_cleaned; cbn; auto.
    + refine (conj (clean_keeps_wf _ _ _ Hwf) (conj _ I)). cbn.
      now rewrite clean_keeps_size.
  - rewrite simple_act_clean by assumption.
    destruct (possible_moves (e_size e) (sr_x a) (sr_y a)) as [| m0 t] eqn:Hpm.
    + rewrite random_choice_empty. cbn. split.
      * apply act_stuck; cbn; auto.
      * exact (conj Hwf (conj Hin I)).
    + destruct (random_choice_nonempty (m0 :: t) g) as ([[d nx] ny] & Hm & ->);
        [discriminate |].
      cbn. rewrite <- Hpm in Hm. split.
      * apply (act_moved _ d nx ny); cbn; auto.
      * refine (conj Hwf (conj _ I)). cbn.
        eapply possible_moves_in_bounds; eauto.
Qed.

Lemma model_act_cases (e : VacuumEnvironment) (a : ModelBasedAgent)
    (g : random_state) :
  world_wf (Heap e (Model a) g) ->
  act_case (Heap e (Model a) g)
    (fst (act (Heap e (Model a) g))) (snd (act (Heap e (Model a) g))) /\
  world_wf (snd (act (Heap e (Model a) g))).
Proof.
  intros [Hwf [Hin Hmem]]. cbn in Hwf, Hin, Hmem.
  unfold act, dispatch. cbn [h_self h_env h_random].
  destruct (Z_lt_le_dec (mb_moves a) MAX_STEPS) as [Hlt | Hge].
  2: { rewrite model_act_capped by assumption. cbn.
       split; [apply act_capped; exact Hge | exact (conj Hwf (conj Hin Hmem))]. }
  pose proof Hin as [Hx Hy].
  destruct (is_dirty_in e _ _ Hwf Hin) as [Hd | Hd].
  - destruct (np_set_in _ _ (mb_y a) (mb_x a) 1 Hmem Hy Hx) as (r1 & _ & Hm1).
    pose proof (np_set_shaped _ _ _ _ _ _ Hm1 Hmem) as Hs1.
    destruct (np_set_in _ _ (mb_y a) (mb_x a) 0 Hs1 Hy Hx) as (r2 & _ & Hm2).
    pose proof (np_set_shaped _ _ _ _ _ _ Hm2 Hs1) as Hs2.
    rewrite (model_act_dirty e a g _ _ Hlt Hd Hm1 Hm2). cbn. split.
    + apply act_cleaned; cbn; auto.
    + refine (conj (clean_keeps_wf _ _ _ Hwf) (conj _ _)); cbn;
        now rewrite clean_keeps_size.
  - destruct (np_set_in _ _ (mb_y a) (mb_x a) 0 Hmem Hy Hx) as (r1 & _ & Hm1).
    pose proof (np_set_shaped _ _ _ _ _ _ Hm1 Hmem) as Hs1.
    pose proof (unvisited_of_filter _ _
                  (possible_moves (e_size e) (mb_x a) (mb_y a)) Hs1) as Hu.
    rewrite (model_act_clean e a g _ _ Hlt Hd Hm1
               (Hu (fun d x y => possible_moves_in_bounds _ _ _ d x y Hin))).
    destruct (possible_moves (e_size e) (mb_x a) (mb_y a)) as [| m0 t] eqn:Hpm.
    + cbn [List.filter]. rewrite random_choice_empty. cbn. split.
      * apply act_stuck; cbn; auto.
      * exact (conj Hwf (conj Hin Hs1)).
    + set (cands := match List.filter _ (m0 :: t) with [] => m0 :: t | _ => _ end).
      assert (Hsub : forall m, m ∈ cands -> m ∈ m0 :: t).
      { subst cands. destruct (List.filter _ (m0 :: t)) eqn:Hf; [auto |].
        intros m' Hm. rewrite <- Hf in Hm.
        now apply filter_unknown_elem in Hm. }
      assert (Hne : cands <> []).
      { subst cands. destruct (List.filter _ (m0 :: t)); discriminate. }
      destruct (random_choice_nonempty cands g Hne) as ([[d nx] ny] & Hm & ->).
      apply Hsub in Hm. rewrite <- Hpm in Hm. cbn. split.
      * apply (act_moved _ d nx ny); cbn; auto.
      * refine (conj Hwf (conj _ Hs1)). cbn.
        eapply possible_moves_in_bounds; eauto.
Qed.

(** A call of [act] on a well-formed world follows one of the four cases
    and leaves a well-formed world. *)
Lemma act_cases (w : world) :
  world_wf w -> act_case w (fst (act w)) (snd (act w)) /\ world_wf (snd (act w)).
Proof.
  destruct w as [e [a | a] g].
  - apply simple_act_cases.
  - apply model_act_cases.
Qed.

Lemma act_keeps_wf (w : world) : world_wf w -> world_wf (snd (act w)).
Proof. apply act_cases. Qed.

Lemma after_acts_wf (k : nat) (w : world) :
  world_wf w -> world_wf (after_acts k w).
Proof.
  revert w. induction k as [| k IH]; intros w Hw; [assumption |].
  cbn. apply IH, act_keeps_wf, Hw.
Qed.

End ActOnWorlds.

(** ** What [act] can do to the environment, in any world *)

Section Frame.

(** Whatever the state, the environment after [act] is the one before, or
    the one [clean] leaves. *)
Lemma simple_act_env (e : VacuumEnvironment) (a : SimpleReflexAgent)
    (g : random_state) :
  let e' := h_env (snd (SimpleReflexAgent_act (Heap e a g))) in
  e' = e \/ e' = snd (clean e (sr_x a) (sr_y a)).
Proof.
  cbn zeta.
  destruct (Z_lt_le_dec (sr_moves a) MAX_STEPS) as [Hlt | Hge].
  2: { rewrite simple_act_capped by assumption. now left. }
  destruct (is_dirty e (sr_x a) (sr_y a)) as [[|] | ex] eqn:Hd.
  - rewrite simple_act_dirty by assumption. now right.
  - rewrite simple_act_clean by assumption.
    destruct (random_choice _ g) as [[[[d nx] ny] | ex] g']; now left.
  - rewrite (simple_act_raise _ _ _ ex) by assumption. now left.
Qed.

Lemma model_act_env (e : VacuumEnvironment) (a : ModelBasedAgent)
    (g : random_state) :
  let e' := h_env (snd (ModelBasedAgent_act (Heap e a g))) in
  e' = e \/ e' = snd (clean e (mb_x a) (mb_y a)).
Proof.
  cbn zeta.
  unfold ModelBasedAgent_act, ModelBasedAgent_perceive, memory_set, bind,
    get_self, get_env, set_self, env_is_dirty, env_clean, choice,
    lift_result, ret.
  cbn.
  destruct (MAX_STEPS <=? mb_moves a); [now left |]. cbn.
  destruct (is_dirty e (mb_x a) (mb_y a)) as [[|] | ex]; cbn; [| | now left].
  - destruct (np_set (mb_memory a) (mb_y a) (mb_x a) 1) as [m1 | ex]; cbn;
      [| now left].
    destruct (clean e (mb_x a) (mb_y a)) as [[[|] | ex] e1]; cbn;
      [| now right | now right].
    destruct (np_set m1 (mb_y a) (mb_x a) 0); cbn; now right.
  - destruct (np_set (mb_memory a) (mb_y a) (mb_x a) 0) as [m1 | ex]; cbn;
      [| now left].
    destruct (unvisited_of m1 _) as [u | ex]; cbn; [| now left].
    destruct (random_choice _ g) as [[[[d nx] ny] | ex] g']; cbn; now left.
Qed.

Lemma act_env (w : world) :
  h_env (snd (act w)) = h_env w \/
  h_env (snd (act w)) =
    snd (clean (h_env w) (agent_x (h_self w)) (agent_y (h_self w))).
Proof.
  destruct w as [e [a | a] g]; unfold act, dispatch; cbn [h_self h_env h_random].
  - pose proof (simple_act_env e a g) as H. cbn zeta in H.
    destruct (SimpleReflexAgent_act _) as [r h]. exact H.
  - pose proof (model_act_env e a g) as H. cbn zeta in H.
    destruct (ModelBasedAgent_act _) as [r h]. exact H.
Qed.

Lemma act_initial_dirt (w : world) :
  e_initial_dirt (h_env (snd (act w))) = e_initial_dirt (h_env w).
Proof.
  destruct (act_env w) as [-> | ->]; [reflexivity | apply clean_frame].
Qed.

Lemma after_acts_initial_dirt (k : nat) (w : world) :
  e_initial_dirt (h_env (after_acts k w)) = e_initial_dirt (h_env w).
Proof.
  revert w. induction k as [| k IH]; intros w; [reflexivity |].
  cbn. now rewrite IH, act_initial_dirt.
Qed.

End Frame.

(** ** Freshly constructed agents *)

Section Fresh.

Lemma np_full_shaped (n v : Z) :
  0 <= n ->
  np_full n n v = Ok (replicate (Z.to_nat n) (replicate (Z.to_nat n) v)) /\
  shapedb n (replicate (Z.to_nat n) (replicate (Z.to_nat n) v)) = true.
Proof.
  intros Hn. unfold np_full.
  destruct (n <? 0) eqn:E; [lia |]. split; [reflexivity |].
  apply shapedb_spec. split.
  - rewrite length_replicate. lia.
  - intros i row [-> _]%lookup_replicate. rewrite length_replicate. lia.
Qed.

(** On a well-formed environment with at least one cell, either class
    builds its agent at (0, 0) with both counters at 0. *)
Lemma construct_ok (c : agent_class) (env : VacuumEnvironment)
    (g : random_state) :
  env_wf env -> 1 <= e_size env ->
  exists a,
    construct c env = Ok a /\ world_wf (Heap env a g) /\
    agent_x a = 0 /\ agent_y a = 0 /\
    agent_moves a = 0 /\ agent_cleaned a = 0.
Proof.
  intros Hwf Hn.
  assert (Hin : in_bounds (e_size env) 0 0) by (unfold in_bounds; lia).
  destruct c; cbn.
  - eexists. split; [reflexivity |].
    repeat split; try reflexivity; try exact Hwf; apply Hin.
  - unfold ModelBasedAgent_init.
    destruct (np_full_shaped (e_size env) (-1)) as [-> Hs]; [lia |].
    destruct (np_set_in _ _ 0 0 0 Hs) as (row & _ & Hset); [lia | lia |].
    rewrite Hset. eexists. split; [reflexivity |].
    split; [| repeat split].
    split; [exact Hwf |]. split; [exact Hin |]. cbn.
    eapply np_set_shaped; eauto.
Qed.

End Fresh.

(** ** Counting: every cleaned cell is one dirty cell less *)

Section Counting.

Lemma act_conserves (w : world) :
  world_wf w ->
  agent_cleaned (h_self (snd (act w))) + get_total_dirt (h_env (snd (act w))) =
  agent_cleaned (h_self w) + get_total_dirt (h_env w).
Proof.
  intros Hw. destruct (act_cases w Hw) as [Hc _].
  destruct (act w) as [r w']. cbn in *.
  inversion Hc as [Hcap | w1 Hlt Hd He Hx Hy Hm Hcl | d nx ny w1 Hlt Hd Hin He Hx Hy Hm Hcl
                  | w1 Hlt Hd Hpm He Hx Hy Hm Hcl]; subst.
  - reflexivity.
  - rewrite He, Hcl, clean_total_dirt, clean_result, Hd. lia.
  - now rewrite He, Hcl.
  - now rewrite He, Hcl.
Qed.

Lemma after_acts_conserves (k : nat) (w : world) :
  world_wf w ->
  agent_cleaned (h_self (after_acts k w)) + get_total_dirt (h_env (after_acts k w)) =
  agent_cleaned (h_self w) + get_total_dirt (h_env w).
Proof.
  revert w. induction k as [| k IH]; intros w Hw; [reflexivity |].
  cbn. rewrite IH by now apply act_keeps_wf. now apply act_conserves.
Qed.

Lemma total_dirt_nonneg (e : VacuumEnvironment) :
  env_wf e -> 0 <= get_total_dirt e.
Proof.
  intros Hwf. unfold get_total_dirt.
  rewrite np_sum_count_ones by now apply env_wf_binary.
  apply count_ones_nonneg.
Qed.

(** A grid with a single cell. *)
Lemma single_cell_env (e : VacuumEnvironment) :
  env_wf e -> e_size e = 1 ->
  exists v, e_grid e = [[v]] /\ (v = 0 \/ v = 1).
Proof.
  intros Hwf Hn.
  pose proof (env_wf_shape _ Hwf) as [Hl Hrows]%shapedb_spec.
  pose proof (env_wf_binary _ Hwf) as Hb. rewrite binaryb_spec in Hb.
  rewrite Hn in *.
  destruct (e_grid e) as [| row [| ? ?]]; try (cbn in Hl; lia).
  pose proof (Hrows 0%nat row eq_refl) as Hr.
  destruct row as [| v [| ? ?]]; try (cbn in Hr; lia).
  exists v. split; [reflexivity |].
  apply (Hb 0%nat [v] 0%nat v); reflexivity.
Qed.

Lemma single_cell_dirt (e : VacuumEnvironment) :
  env_wf e -> e_size e = 1 ->
  is_dirty e 0 0 = Ok false -> get_total_dirt e = 0.
Proof.
  intros Hwf Hn. destruct (single_cell_env e Hwf Hn) as (v & Hg & Hv).
  unfold is_dirty, get_total_dirt. rewrite Hg. cbn.
  destruct Hv as [-> | ->]; [reflexivity | discriminate].
Qed.

(** The step taken on a dirty cell. *)
Lemma dirty_cell_step (w : world) :
  world_wf w ->
  agent_moves (h_self w) < MAX_STEPS ->
  is_dirty (h_env w) (agent_x (h_self w)) (agent_y (h_self w)) = Ok true ->
  exists w',
    act w = (Ok (Some CLEAN), w') /\
    h_env w' = snd (clean (h_env w) (agent_x (h_self w)) (agent_y (h_self w))) /\
    agent_cleaned (h_self w') = agent_cleaned (h_self w) + 1 /\
    world_wf w' /\
    agent_x (h_self w') = agent_x (h_self w) /\
    agent_y (h_self w') = agent_y (h_self w) /\
    agent_moves (h_self w') = agent_moves (h_self w) + 1.
Proof.
  intros Hw Hlt Hd. destruct (act_cases w Hw) as [Hc Hw'].
  destruct (act w) as [r w'] eqn:Hact. cbn in Hc, Hw'.
  inversion Hc as [Hcap | w1 _ _ He Hx Hy Hm Hcl | d nx ny w1 _ Hd' | w1 _ Hd'];
    subst; try lia; try congruence.
  exists w'. repeat split; try assumption; apply Hw'.
Qed.

(** On a single clean cell [act] has nothing to return. *)
Lemma single_cell_clean_step (w : world) :
  world_wf w -> e_size (h_env w) = 1 -> is_dirty (h_env w) 0 0 = Ok false ->
  (forall d, fst (act w) <> Ok (Some d)) /\
  h_env (snd (act w)) = h_env w /\
  agent_cleaned (h_self (snd (act w))) = agent_cleaned (h_self w) /\
  world_wf (snd (act w)).
Proof.
  intros Hw Hn Hd. destruct (act_cases w Hw) as [Hc Hw'].
  assert (Hx : agent_x (h_self w) = 0 /\ agent_y (h_self w) = 0).
  { destruct Hw as [_ [[Hx Hy] _]]. rewrite Hn in Hx, Hy. lia. }
  destruct Hx as [Hx Hy].
  destruct (act w) as [r w']. cbn in *.
  inversion Hc as [Hcap | w1 _ Hd' | d nx ny w1 _ _ Hin He _ _ _ Hcl
                  | w1 _ _ _ He _ _ _ Hcl]; subst.
  - refine (conj _ (conj eq_refl (conj eq_refl Hw'))). discriminate.
  - rewrite Hx, Hy in Hd'. congruence.
  - rewrite Hn, Hx, Hy, possible_moves_single_cell in Hin.
    now apply elem_of_nil in Hin.
  - refine (conj _ (conj He (conj Hcl Hw'))). discriminate.
Qed.

Lemma single_cell_clean_forever (k : nat) (w : world) :
  world_wf w -> e_size (h_env w) = 1 -> is_dirty (h_env w) 0 0 = Ok false ->
  world_wf (after_acts k w) /\
  h_env (after_acts k w) = h_env w /\
  agent_cleaned (h_self (after_acts k w)) = agent_cleaned (h_self w).
Proof.
  revert w. induction k as [| k IH]; intros w Hw Hn Hd; [now auto |].
  destruct (single_cell_clean_step w Hw Hn Hd) as (_ & He & Hcl & Hw').
  cbn [after_acts].
  destruct (IH (snd (act w)) Hw') as (H1 & H2 & H3).
  - now rewrite He.
  - now rewrite He.
  - refine (conj H1 (conj _ _)); congruence.
Qed.

End Counting.

(** C2. In a well-formed world whose agent (of either class) stands on a
    dirty cell with [moves] below the cap, [act] returns ['CLEAN'], leaves
    the position alone, counts the move, performs exactly the environment's
    [clean] call at that position, and adds one to [cleaned] when, and only
    when, that call answered [True] (which it does). *)
Theorem dirty_cell_is_cleaned (w : world) :
  world_wf w ->
  agent_moves (h_self w) < MAX_STEPS ->
  is_dirty (h_env w) (agent_x (h_self w)) (agent_y (h_self w)) = Ok true ->
  exists w' b,
    act w = (Ok (Some CLEAN), w') /\
    agent_x (h_self w') = agent_x (h_self w) /\
    agent_y (h_self w') = agent_y (h_self w) /\
    agent_moves (h_self w') = agent_moves (h_self w) + 1 /\
    clean (h_env w) (agent_x (h_self w)) (agent_y (h_self w)) = (Ok b, h_env w') /\
    agent_cleaned (h_self w') =
      agent_cleaned (h_self w) + (if b then 1 else 0) /\
    b = true.
Proof.
  intros Hw Hlt Hd. destruct (act_cases w Hw) as [Hc _].
  destruct (act w) as [r w'] eqn:Hact. cbn in Hc.
  inversion Hc as [Hcap | w1 _ _ He Hx Hy Hm Hcl | d nx ny w1 _ Hd' | w1 _ Hd'];
    subst; try lia; try congruence.
  exists w', true. repeat split; try assumption.
  rewrite He. rewrite <- Hd, <- clean_result. now destruct (clean _ _ _).
Qed.

Lemma dirty_cell_is_cleaned_witness :
  (exists w', act simple_on_dirt = (Ok (Some CLEAN), w') /\
              agent_cleaned (h_self w') = 1) /\
  (exists w', act model_on_dirt = (Ok (Some CLEAN), w') /\
              agent_cleaned (h_self w') = 1).
Proof.
  split.
  - destruct (dirty_cell_is_cleaned simple_on_dirt)
      as (w' & b & Hact & _ & _ & _ & _ & Hc & ->).
    + repeat split; cbn; lia.
    + cbn. unfold MAX_STEPS. lia.
    + reflexivity.
    + exists w'. split; [exact Hact | exact Hc].
  - destruct (dirty_cell_is_cleaned model_on_dirt)
      as (w' & b & Hact & _ & _ & _ & _ & Hc & ->).
    + repeat split; cbn; lia.
    + cbn. unfold MAX_STEPS. lia.
    + reflexivity.
    + exists w'. split; [exact Hact | exact Hc].
Defined.

(** C10. Build an environment (size at least 1, probability in [0, 1]) and
    an agent of either class on it; after any number of [act] calls,
    [cleaned] plus the dirt left equals [initial_dirt], so [cleaned] never
    exceeds [initial_dirt]. *)
Theorem cleaned_plus_dirt_is_initial (size : Z) (p : Q) (c : agent_class)
    (np_rnd rnd : random_state) (k : nat) :
  1 <= size -> (0 <= p)%Q -> (p <= 1)%Q ->
  exists env a,
    fst (VacuumEnvironment_init size p np_rnd) = Ok env /\
    construct c env = Ok a /\
    let w := after_acts k (Heap env a rnd) in
    agent_cleaned (h_self w) + get_total_dirt (h_env w) =
      e_initial_dirt (h_env w) /\
    agent_cleaned (h_self w) <= e_initial_dirt (h_env w).
Proof.
  intros Hn Hp0 Hp1.
  destruct (VacuumEnvironment_init_ok size p np_rnd) as (gr & Hinit & Hwf);
    [lia | assumption | assumption |].
  destruct (construct_ok c (Env size gr (np_sum gr)) rnd Hwf Hn)
    as (a & Ha & Hw & _ & _ & _ & Hcl).
  exists (Env size gr (np_sum gr)), a. rewrite Hinit.
  split; [reflexivity |]. split; [assumption |]. cbn zeta.
  pose proof (after_acts_conserves k _ Hw) as Hsum.
  pose proof (after_acts_wf k _ Hw) as [Hwf' _].
  pose proof (total_dirt_nonneg _ Hwf') as Hpos.
  rewrite after_acts_initial_dirt. cbn [h_env h_self e_initial_dirt] in Hsum |- *.
  rewrite Hcl in Hsum. unfold get_total_dirt in *. cbn [e_grid] in Hsum. lia.
Qed.

Lemma cleaned_plus_dirt_is_initial_witness :
  exists env a,
    fst (VacuumEnvironment_init 3 (3 # 10) mixed_rnd) = Ok env /\
    construct ModelBasedAgent_class env = Ok a /\
    let w := after_acts 7 (Heap env a mixed_rnd) in
    agent_cleaned (h_self w) + get_total_dirt (h_env w) =
      e_initial_dirt (h_env w) /\
    agent_cleaned (h_self w) <= e_initial_dirt (h_env w).
Proof.
  apply (cleaned_plus_dirt_is_initial 3 (3 # 10) ModelBasedAgent_class
           mixed_rnd mixed_rnd 7).
  - lia.
  - unfold Qle. cbn. lia.
  - unfold Qle. cbn. lia.
Defined.

(** C6. The constructor sets [initial_dirt] to the number of dirty cells
    of the grid it has just drawn, and neither [is_dirty], nor [clean], nor
    any number of [act] calls changes it afterwards, whatever the state. *)
Theorem initial_dirt_is_a_snapshot (size : Z) (p : Q) (np_rnd : random_state)
    (e : VacuumEnvironment) (x y : Z) (w : world) (k : nat) :
  0 <= size -> (0 <= p)%Q -> (p <= 1)%Q ->
  (exists env,
     fst (VacuumEnvironment_init size p np_rnd) = Ok env /\
     e_initial_dirt env = count_ones (e_grid env) /\
     e_initial_dirt env = get_total_dirt env) /\
  e_initial_dirt (snd (clean e x y)) = e_initial_dirt e /\
  h_env (snd (env_is_dirty x y w)) = h_env w /\
  e_initial_dirt (h_env (snd (act w))) = e_initial_dirt (h_env w) /\
  e_initial_dirt (h_env (after_acts k w)) = e_initial_dirt (h_env w).
Proof.
  intros Hn Hp0 Hp1. split; [| split; [| split; [| split]]].
  - destruct (VacuumEnvironment_init_ok size p np_rnd Hn Hp0 Hp1)
      as (gr & -> & Hwf).
    eexists. split; [reflexivity |]. cbn. split; [| reflexivity].
    apply np_sum_count_ones. exact (env_wf_binary _ Hwf).
  - apply clean_frame.
  - reflexivity.
  - apply act_initial_dirt.
  - apply after_acts_initial_dirt.
Qed.

Lemma initial_dirt_is_a_snapshot_witness :
  e_initial_dirt (h_env (after_acts 5 model_on_dirt)) = 1 /\
  exists env,
    fst (VacuumEnvironment_init 3 (3 # 10) mixed_rnd) = Ok env /\
    e_initial_dirt env = count_ones (e_grid env).
Proof.
  destruct (initial_dirt_is_a_snapshot 3 (3 # 10) mixed_rnd env_2x2 1 0
              model_on_dirt 5) as ((env & H1 & H2 & _) & _ & _ & _ & H5).
  - lia.
  - unfold Qle. cbn. lia.
  - unfold Qle. cbn. lia.
  - split; [exact H5 | exists env; split; assumption].
Defined.

(** C7 (as amended). On a 1 x 1 grid the candidate list is empty.  If the
    single cell is dirty, a fresh agent of either class cleans it with its
    first [act] ([cleaned] becomes 1 and no dirt is left); after that, no
    call of [act] returns an action, the agent stays at (0, 0), the
    environment is not touched again, and [cleaned] stays 1. *)
Theorem single_cell_grid (env : VacuumEnvironment) (c : agent_class)
    (rnd : random_state) (k : nat) :
  env_wf env -> e_size env = 1 -> is_dirty env 0 0 = Ok true ->
  possible_moves (e_size env) 0 0 = [] /\
  exists a w1,
    construct c env = Ok a /\
    act (Heap env a rnd) = (Ok (Some CLEAN), w1) /\
    agent_cleaned (h_self w1) = 1 /\
    get_total_dirt (h_env w1) = 0 /\
    let wk := after_acts k w1 in
    agent_x (h_self wk) = 0 /\ agent_y (h_self wk) = 0 /\
    agent_cleaned (h_self wk) = 1 /\
    h_env wk = h_env w1 /\
    forall d, fst (act wk) <> Ok (Some d).
Proof.
  intros Hwf Hn Hd. split; [now rewrite Hn |].
  destruct (construct_ok c env rnd Hwf) as (a & Ha & Hw & Hx & Hy & Hm & Hcl);
    [lia |].
  destruct (dirty_cell_step (Heap env a rnd)) as (w1 & Hact & He & Hc1 & Hw1).
  { exact Hw. }
  { cbn. rewrite Hm. unfold MAX_STEPS. lia. }
  { cbn. now rewrite Hx, Hy. }
  cbn in He, Hc1. rewrite Hx, Hy in He. rewrite Hcl in Hc1.
  change (0 + 1) with 1 in Hc1.
  exists a, w1. split; [assumption |]. split; [assumption |].
  split; [assumption |].
  destruct (clean_dirty _ _ _ Hd) as (gr & _ & Hclean & Hsum & Hafter).
  rewrite Hclean in He. cbn in He.
  assert (Hsz : e_size (h_env w1) = 1) by now rewrite He.
  assert (Hd1 : is_dirty (h_env w1) 0 0 = Ok false) by now rewrite He.
  split.
  { apply single_cell_dirt; try assumption. apply Hw1. }
  cbn zeta.
  assert (Hinv : world_wf (after_acts k w1) /\
                 h_env (after_acts k w1) = h_env w1 /\
                 agent_cleaned (h_self (after_acts k w1)) = 1).
  { rewrite <- Hc1. now apply single_cell_clean_forever. }
  destruct Hinv as (Hwk & Hek & Hck).
  assert (Hpos : in_bounds 1 (agent_x (h_self (after_acts k w1)))
                   (agent_y (h_self (after_acts k w1)))).
  { destruct Hwk as [_ [Hin _]]. now rewrite Hek, Hsz in Hin. }
  destruct Hpos as [Hpx Hpy].
  repeat split; try assumption; try lia.
  apply (single_cell_clean_step _ Hwk).
  - now rewrite Hek.
  - now rewrite Hek.
Qed.

Lemma single_cell_grid_witness :
  exists a w1,
    construct SimpleReflexAgent_class env_1x1 = Ok a /\
    act (Heap env_1x1 a zero_rnd) = (Ok (Some CLEAN), w1) /\
    agent_cleaned (h_self w1) = 1 /\
    agent_cleaned (h_self (after_acts 3 w1)) = 1.
Proof.
  destruct (single_cell_grid env_1x1 SimpleReflexAgent_class zero_rnd 3)
    as (_ & a & w1 & Ha & Hact & Hc & _ & _ & _ & Hck & _).
  - reflexivity.
  - reflexivity.
  - reflexivity.
  - exists a, w1. repeat split; assumption.
Defined.

(** C7, counterexample: on the 1 x 1 grid with its cell dirty, the second
    call of [act], made with [moves] = 1, far below the cap, does not
    return ['CLEAN']: [random.choice] is given the empty candidate list
    and raises [IndexError]. *)
Lemma single_cell_second_act_raises :
  let w := Heap env_1x1 (Simple (SimpleReflex 0 0 0 0)) zero_rnd in
  construct SimpleReflexAgent_class env_1x1 = Ok (h_self w) /\
  fst (act w) = Ok (Some CLEAN) /\
  agent_moves (h_self (snd (act w))) = 1 /\
  fst (act (snd (act w))) = Raise IndexError /\
  fst (act (snd (act w))) <> Ok (Some CLEAN).
Proof.
  vm_compute. repeat split. discriminate.
Qed.

(** ** The model-based agent's memory *)

Section Memory.

Lemma is_dirty_after_clean_elsewhere (e : VacuumEnvironment) (x y cx cy : Z) :
  env_wf e -> in_bounds (e_size e) x y -> in_bounds (e_size e) cx cy ->
  is_dirty e cx cy = Ok false ->
  is_dirty (snd (clean e x y)) cx cy = Ok false.
Proof.
  intros Hwf [Hx Hy] [Hcx Hcy] Hc.
  destruct (is_dirty e x y) as [[|] | ex] eqn:Hd.
  - destruct (clean_dirty _ _ _ Hd) as (gr & Hset & -> & _ & _). cbn.
    unfold is_dirty in *. cbn [e_grid].
    rewrite (np_get_set_other _ _ _ y x 0 cy cx (env_wf_shape _ Hwf));
      try assumption.
    intros [= -> ->]. destruct (np_get (e_grid e) cy cx); congruence.
  - now rewrite (clean_clean _ _ _ Hd).
  - now rewrite (clean_raise _ _ _ _ Hd).
Qed.

(** Once a cell is clean and remembered as clean, [act] keeps it so. *)
Lemma act_keeps_known_clean (w : world) (cx cy : Z) :
  world_wf w -> in_bounds (e_size (h_env w)) cx cy ->
  known_clean cx cy w -> known_clean cx cy (snd (act w)).
Proof.
  destruct w as [e [a | a] g]; intros Hw Hc [Hk Hcl]; cbn in Hk, Hcl, Hc;
    [contradiction |].
  destruct Hw as [Hwf [Hin Hmem]]. cbn in Hwf, Hin, Hmem.
  pose proof Hin as [Hx Hy]. pose proof Hc as [Hcx Hcy].
  unfold act, dispatch, known_clean. cbn [h_self h_env h_random].
  destruct (Z_lt_le_dec (mb_moves a) MAX_STEPS) as [Hlt | Hge].
  2: { rewrite model_act_capped by assumption. now cbn. }
  destruct (is_dirty_in e _ _ Hwf Hin) as [Hd | Hd].
  - destruct (np_set_in _ _ (mb_y a) (mb_x a) 1 Hmem Hy Hx) as (r1 & _ & Hm1).
    pose proof (np_set_shaped _ _ _ _ _ _ Hm1 Hmem) as Hs1.
    destruct (np_set_in _ _ (mb_y a) (mb_x a) 0 Hs1 Hy Hx) as (r2 & _ & Hm2).
    rewrite (model_act_dirty e a g _ _ Hlt Hd Hm1 Hm2). cbn.
    assert (Hne : (mb_y a, mb_x a) <> (cy, cx)).
    { intros [= E1 E2]. rewrite E1, E2 in Hd. congruence. }
    split.
    + rewrite (np_get_set_other _ _ _ _ _ _ cy cx Hs1 Hy Hx Hcy Hcx Hne Hm2).
      now rewrite (np_get_set_other _ _ _ _ _ _ cy cx Hmem Hy Hx Hcy Hcx Hne Hm1).
    + now apply is_dirty_after_clean_elsewhere.
  - destruct (np_set_in _ _ (mb_y a) (mb_x a) 0 Hmem Hy Hx) as (r1 & _ & Hm1).
    pose proof (np_set_shaped _ _ _ _ _ _ Hm1 Hmem) as Hs1.
    pose proof (unvisited_of_filter _ _
                  (possible_moves (e_size e) (mb_x a) (mb_y a)) Hs1) as Hu.
    rewrite (model_act_clean e a g _ _ Hlt Hd Hm1
               (Hu (fun d x y => possible_moves_in_bounds _ _ _ d x y Hin))).
    match type of Hm1 with
    | _ = Ok ?m => assert (Hget : np_get m cy cx = Ok 0)
    end.
    { destruct (decide ((mb_y a, mb_x a) = (cy, cx))) as [[= <- <-] | Hne].
      - exact (np_get_set_same _ _ _ _ _ Hm1).
      - now rewrite (np_get_set_other _ _ _ _ _ _ cy cx Hmem Hy Hx Hcy Hcx Hne Hm1). }
    destruct (random_choice _ g) as [[[[d nx] ny] | ex] g']; cbn; now split.
Qed.

Lemma act_size (w : world) : e_size (h_env (snd (act w))) = e_size (h_env w).
Proof.
  destruct (act_env w) as [-> | ->]; [reflexivity | apply clean_frame].
Qed.

Lemma after_acts_known_clean (k : nat) (w : world) (cx cy : Z) :
  world_wf w -> in_bounds (e_size (h_env w)) cx cy ->
  known_clean cx cy w -> known_clean cx cy (after_acts k w).
Proof.
  revert w. induction k as [| k IH]; intros w Hw Hc Hk; [assumption |].
  cbn [after_acts]. apply IH.
  - now apply act_keeps_wf.
  - now rewrite act_size.
  - now apply act_keeps_known_clean.
Qed.

(** Cleaning the cell under the agent leaves it clean and remembered as
    clean. *)
Lemma model_clean_known (e : VacuumEnvironment) (a : ModelBasedAgent)
    (g : random_state) :
  world_wf (Heap e (Model a) g) ->
  mb_moves a < MAX_STEPS ->
  is_dirty e (mb_x a) (mb_y a) = Ok true ->
  known_clean (mb_x a) (mb_y a) (snd (act (Heap e (Model a) g))).
Proof.
  intros [Hwf [Hin Hmem]] Hlt Hd. cbn in Hwf, Hin, Hmem.
  pose proof Hin as [Hx Hy].
  destruct (np_set_in _ _ (mb_y a) (mb_x a) 1 Hmem Hy Hx) as (r1 & _ & Hm1).
  pose proof (np_set_shaped _ _ _ _ _ _ Hm1 Hmem) as Hs1.
  destruct (np_set_in _ _ (mb_y a) (mb_x a) 0 Hs1 Hy Hx) as (r2 & _ & Hm2).
  unfold act, dispatch, known_clean. cbn [h_self h_env h_random].
  rewrite (model_act_dirty e a g _ _ Hlt Hd Hm1 Hm2). cbn. split.
  - exact (np_get_set_same _ _ _ _ _ Hm2).
  - destruct (clean_dirty _ _ _ Hd) as (gr & _ & -> & _ & Hafter). exact Hafter.
Qed.

(** What [perceive] does for the model-based agent. *)
Lemma model_perceive_records (e : VacuumEnvironment) (a : ModelBasedAgent)
    (g : random_state) :
  world_wf (Heap e (Model a) g) ->
  exists b m,
    is_dirty e (mb_x a) (mb_y a) = Ok b /\
    perceive (Heap e (Model a) g) = (Ok b, Heap e (Model (with_memory a m)) g) /\
    np_get m (mb_y a) (mb_x a) = Ok (if b then 1 else 0).
Proof.
  intros [Hwf [Hin Hmem]]. cbn in Hwf, Hin, Hmem.
  pose proof Hin as [Hx Hy].
  assert (Hb : exists b, is_dirty e (mb_x a) (mb_y a) = Ok b).
  { destruct (is_dirty_in e _ _ Hwf Hin); eauto. }
  destruct Hb as [b Hb].
  destruct (np_set_in _ _ (mb_y a) (mb_x a) (if b then 1 else 0) Hmem Hy Hx)
    as (r1 & _ & Hm1).
  eexists b, _. split; [assumption |]. split.
  - unfold perceive, dispatch. cbn [h_self h_env h_random].
    now rewrite (model_perceive e a g b _ Hb Hm1).
  - exact (np_get_set_same _ _ _ _ _ Hm1).
Qed.

End Memory.

(** C8. For the model-based agent in a well-formed world: [perceive]
    returns the current cell's state, writes it (1 for dirty, 0 for clean)
    into the memory entry of that cell whatever was there, and hands back
    the environment untouched; and once [act] has cleaned the dirty cell
    under the agent, that cell is clean and its memory entry is 0 after
    that call and after any number of further calls, so also on a later
    visit. *)
Theorem memory_follows_the_cell (e : VacuumEnvironment) (a : ModelBasedAgent)
    (g : random_state) (k : nat) :
  world_wf (Heap e (Model a) g) ->
  (exists b m,
     is_dirty e (mb_x a) (mb_y a) = Ok b /\
     perceive (Heap e (Model a) g) = (Ok b, Heap e (Model (with_memory a m)) g) /\
     np_get m (mb_y a) (mb_x a) = Ok (if b then 1 else 0)) /\
  (mb_moves a < MAX_STEPS ->
   is_dirty e (mb_x a) (mb_y a) = Ok true ->
   known_clean (mb_x a) (mb_y a) (snd (act (Heap e (Model a) g))) /\
   known_clean (mb_x a) (mb_y a) (after_acts (S k) (Heap e (Model a) g))).
Proof.
  intros Hw. split; [now apply model_perceive_records |].
  intros Hlt Hd.
  pose proof (model_clean_known e a g Hw Hlt Hd) as Hk.
  split; [assumption |]. cbn [after_acts].
  apply after_acts_known_clean; try assumption.
  - now apply act_keeps_wf.
  - rewrite act_size. apply Hw.
Qed.

Lemma memory_follows_the_cell_witness :
  known_clean 1 0 (after_acts 6 model_on_dirt) /\
  exists m,
    perceive model_on_dirt =
      (Ok true, Heap env_2x2 (Model (with_memory (ModelBased 1 0 3 0
                                        [[0; -1]; [-1; -1]]) m)) zero_rnd) /\
    np_get m 0 1 = Ok 1.
Proof.
  destruct (memory_follows_the_cell env_2x2
              (ModelBased 1 0 3 0 [[0; -1]; [-1; -1]]) zero_rnd 5)
    as ((b & m & Hb & Hp & Hm) & Hclean).
  - repeat split; cbn; lia.
  - cbn in Hb. injection Hb as <-. split.
    + apply Hclean; [cbn; unfold MAX_STEPS; lia | reflexivity].
    + exists m. split; assumption.
Defined.

Section Exploration.

Lemma possible_moves_NoDup (size x y : Z) : NoDup (possible_moves size x y).
Proof.
  unfold possible_moves.
  destruct (x <? size - 1), (0 <? x), (y <? size - 1), (0 <? y); cbn;
    repeat (apply NoDup_cons; split;
            [rewrite ?elem_of_cons, ?elem_of_nil; intros H;
             destruct_or?; simplify_eq; try contradiction |]);
    apply NoDup_nil_2.
Qed.

(** The write [perceive] makes at the agent's own cell does not change what
    the memory says about the candidates. *)
Lemma unknown_after_perceive (n : Z) (memory m1 : ndarray) (x y v : Z) :
  shapedb n memory = true -> in_bounds n x y ->
  np_set memory y x v = Ok m1 ->
  List.filter (unknownb m1) (possible_moves n x y) =
  List.filter (unknownb memory) (possible_moves n x y).
Proof.
  intros Hs Hin Hset. apply filter_ext_in. intros [[d x'] y'] Hm.
  apply list_elem_of_In in Hm.
  pose proof (possible_moves_in_bounds _ _ _ _ _ _ Hin Hm) as [Hx' Hy'].
  pose proof (possible_moves_not_clean _ _ _ _ _ _ Hm) as [_ Hne].
  destruct Hin as [Hx Hy]. unfold unknownb.
  rewrite (np_get_set_other n memory m1 y x v y' x'); try assumption.
  - reflexivity.
  - intros [= -> ->]. now apply Hne.
Qed.

End Exploration.

(** C3 (as amended). For a model-based agent in a well-formed world, on a
    clean cell with [moves] below the cap: the candidate list holds exactly
    the orthogonal neighbours on the grid, each once; at a corner of a grid
    with N >= 2 it has two entries; and on a grid with N >= 2, [act]
    returns the direction of a move to a candidate whose memory entry is -1
    if there is such a candidate, and to some candidate otherwise. *)
Theorem model_based_move (e : VacuumEnvironment) (a : ModelBasedAgent)
    (g : random_state) :
  world_wf (Heap e (Model a) g) ->
  mb_moves a < MAX_STEPS ->
  is_dirty e (mb_x a) (mb_y a) = Ok false ->
  let moves := possible_moves (e_size e) (mb_x a) (mb_y a) in
  let unexplored := List.filter (unknownb (mb_memory a)) moves in
  (forall m, m ∈ moves <-> neighbour (e_size e) (mb_x a) (mb_y a) m) /\
  NoDup moves /\
  (2 <= e_size e ->
   (mb_x a = 0 \/ mb_x a = e_size e - 1) ->
   (mb_y a = 0 \/ mb_y a = e_size e - 1) ->
   length moves = 2%nat) /\
  (2 <= e_size e ->
   exists d nx ny w',
     act (Heap e (Model a) g) = (Ok (Some d), w') /\
     agent_x (h_self w') = nx /\ agent_y (h_self w') = ny /\
     (d, nx, ny) ∈ moves /\
     (unexplored <> [] -> (d, nx, ny) ∈ unexplored)).
Proof.
  intros [Hwf [Hin Hmem]] Hlt Hd moves unexplored.
  cbn in Hwf, Hin, Hmem. pose proof Hin as [Hx Hy].
  split; [intros m; now apply possible_moves_spec |].
  split; [apply possible_moves_NoDup |].
  split; [intros; now apply possible_moves_corner |].
  intros Hn.
  destruct (np_set_in _ _ (mb_y a) (mb_x a) 0 Hmem Hy Hx) as (r1 & _ & Hm1).
  pose proof (np_set_shaped _ _ _ _ _ _ Hm1 Hmem) as Hs1.
  pose proof (unvisited_of_filter _ _ moves Hs1
                (fun d x y => possible_moves_in_bounds _ _ _ d x y Hin)) as Hu.
  unfold moves in Hu at 2.
  rewrite (unknown_after_perceive _ _ _ _ _ _ Hmem Hin Hm1) in Hu.
  fold moves in Hu. fold unexplored in Hu.
  unfold act, dispatch. cbn [h_self h_env h_random].
  rewrite (model_act_clean e a g _ _ Hlt Hd Hm1 Hu). fold moves.
  pose proof (possible_moves_nonempty _ _ _ Hn Hin) as Hne. fold moves in Hne.
  set (cands := match unexplored with [] => moves | _ => unexplored end).
  assert (Hc : cands <> [] /\
               (forall m, m ∈ cands -> m ∈ moves) /\
               (unexplored <> [] -> forall m, m ∈ cands -> m ∈ unexplored)).
  { subst cands. destruct unexplored as [| u0 ut] eqn:E.
    - repeat split; auto. congruence.
    - repeat split; auto; try discriminate.
      intros m Hm. rewrite <- E in Hm. subst unexplored.
      now apply filter_unknown_elem in Hm. }
  destruct Hc as (Hc1 & Hc2 & Hc3).
  destruct (random_choice_nonempty cands g Hc1) as ([[d nx] ny] & Hm & ->).
  exists d, nx, ny. eexists. split; [reflexivity |]. cbn.
  repeat split; auto.
Qed.

Lemma model_based_move_witness :
  length (possible_moves 2 0 0) = 2%nat /\
  exists w',
    act (Heap env_2x2 (Model model_at_corner) zero_rnd) = (Ok (Some RIGHT), w') /\
    agent_x (h_self w') = 1 /\ agent_y (h_self w') = 0.
Proof.
  destruct (model_based_move env_2x2 model_at_corner zero_rnd)
    as (_ & _ & Hcorner & Hact).
  - repeat split; cbn; lia.
  - cbn. unfold MAX_STEPS. lia.
  - reflexivity.
  - split.
    + apply Hcorner; cbn; lia.
    + destruct Hact as (d & nx & ny & w' & Hact & Hnx & Hny & _ & Hun);
        [cbn; lia |].
      assert (Hin : (d, nx, ny) ∈ [(RIGHT, 1, 0)]).
      { apply Hun. cbn. discriminate. }
      apply list_elem_of_singleton in Hin. injection Hin as -> -> ->.
      exists w'. repeat split; assumption.
Defined.

(** C3, counterexample: a fresh model-based agent on a 1 x 1 grid whose
    cell is clean.  The cell is clean and [moves] is 0, far below the cap,
    but the candidate list is empty: [act] chooses no destination, raises
    [IndexError], and leaves the agent at (0, 0), which is no member of
    the candidate list. *)
Lemma single_clean_cell_has_no_destination :
  let w := model_on_clean_single_cell in
  construct ModelBasedAgent_class (h_env w) = Ok (h_self w) /\
  world_wf w /\
  agent_moves (h_self w) < MAX_STEPS /\
  is_dirty (h_env w) (agent_x (h_self w)) (agent_y (h_self w)) = Ok false /\
  possible_moves (e_size (h_env w)) (agent_x (h_self w)) (agent_y (h_self w)) = [] /\
  fst (act w) = Raise IndexError /\
  agent_x (h_self (snd (act w))) = 0 /\ agent_y (h_self (snd (act w))) = 0 /\
  ~ (exists d, (d, 0, 0) ∈ possible_moves (e_size (h_env w))
                            (agent_x (h_self w)) (agent_y (h_self w))).
Proof.
  cbn zeta. split; [reflexivity |].
  split; [repeat split; cbn; lia |].
  split; [cbn; unfold MAX_STEPS; lia |].
  split; [reflexivity |]. split; [reflexivity |]. split; [reflexivity |].
  split; [reflexivity |]. split; [reflexivity |].
  intros [d Hd]. cbn in Hd. now apply elem_of_nil in Hd.
Qed.

(** ** The simulation loop *)

Section Loop.

Variable max_steps : Z.
Hypothesis budget_within_cap : max_steps <= MAX_STEPS.

(** With dirt left, on a well-formed world and below the cap, [act]
    returns normally and counts one move. *)
Lemma act_with_dirt_left (w : world) :
  world_wf w ->
  agent_moves (h_self w) < MAX_STEPS ->
  get_total_dirt (h_env w) <> 0 ->
  exists o w',
    act w = (Ok o, w') /\ world_wf w' /\
    agent_moves (h_self w') = agent_moves (h_self w) + 1.
Proof.
  intros Hw Hlt Hdirt. destruct (act_cases w Hw) as [Hc Hw'].
  destruct (act w) as [res w']. cbn in Hc, Hw'.
  inversion Hc as [Hcap | w1 _ _ _ _ _ Hm _ | d nx ny w1 _ _ _ _ _ _ Hm _
                  | w1 _ Hd Hpm _ _ _ _ _]; subst.
  - lia.
  - eauto.
  - eauto.
  - exfalso. apply Hdirt.
    destruct Hw as [Hwf [Hin _]].
    assert (Hn : e_size (h_env w) = 1).
    { destruct (Z_lt_le_dec (e_size (h_env w)) 2) as [Hs | Hs].
      - destruct Hin as [? ?]. lia.
      - now destruct (possible_moves_nonempty _ _ _ Hs Hin). }
    assert (Hx : agent_x (h_self w) = 0 /\ agent_y (h_self w) = 0).
    { destruct Hin as [? ?]. lia. }
    destruct Hx as [Hx Hy]. rewrite Hx, Hy in Hd.
    now apply single_cell_dirt.
Qed.

Lemma loop_step_cases (r : runner) :
  run_inv max_steps r ->
  (r_steps r < max_steps /\ get_total_dirt (h_env (r_world r)) = 0 /\
   loop_step max_steps r = (Broke, r)) \/
  (r_steps r = max_steps /\ loop_step max_steps r = (Exited, r)) \/
  (r_steps r < max_steps /\ get_total_dirt (h_env (r_world r)) <> 0 /\
   exists r', loop_step max_steps r = (Running, r') /\
              run_inv max_steps r' /\ r_steps r' = r_steps r + 1 /\
              r_world r' = snd (act (r_world r))).
Proof.
  intros (Hw & Hs & Hb). unfold loop_step.
  destruct (r_steps r <? max_steps) eqn:E.
  2: { right; left. split; [lia | reflexivity]. }
  destruct (get_total_dirt (h_env (r_world r)) =? 0) eqn:E0.
  { left. repeat split; lia. }
  right; right. split; [lia |]. split; [lia |].
  destruct (act_with_dirt_left (r_world r) Hw) as (o & w' & Hact & Hw' & Hm);
    [lia | lia |].
  rewrite Hact. eexists. split; [reflexivity |].
  repeat split; cbn; try apply Hw'; lia.
Qed.

Lemma reaches_inv (r r' : runner) :
  run_inv max_steps r -> loop_reaches max_steps r r' -> run_inv max_steps r'.
Proof.
  intros Hr Hreach. induction Hreach as [| r r' r'' Hstep _ IH]; [assumption |].
  apply IH.
  destruct (loop_step_cases r Hr) as [(_ & _ & H) | [(_ & H) | (_ & _ & r1 & H & Hr1 & _)]];
    rewrite H in Hstep; try discriminate.
  now injection Hstep as <-.
Qed.

(** With fuel above the number of steps still allowed, the loop ends by
    [break] or by its condition. *)
Lemma while_loop_ends (fuel : nat) (r : runner) :
  run_inv max_steps r ->
  (Z.to_nat (max_steps - r_steps r) < fuel)%nat ->
  exists st rf,
    while_loop fuel max_steps r = (st, rf) /\
    loop_reaches max_steps r rf /\
    ((st = Broke /\ get_total_dirt (h_env (r_world rf)) = 0 /\
      r_steps rf < max_steps) \/
     (st = Exited /\ r_steps rf = max_steps)).
Proof.
  revert r. induction fuel as [| fuel IH]; intros r Hr Hfuel; [lia |].
  cbn [while_loop].
  destruct (loop_step_cases r Hr)
    as [(Hlt & Hz & ->) | [(Heq & ->) | (Hlt & _ & r1 & Hstep & Hr1 & Hs1 & _)]].
  - exists Broke, r. split; [reflexivity |]. split; [constructor |]. now left.
  - exists Exited, r. split; [reflexivity |]. split; [constructor |]. now right.
  - rewrite Hstep.
    destruct (IH r1 Hr1) as (st & rf & Hrun & Hreach & Hend); [lia |].
    exists st, rf. split; [assumption |]. split; [| assumption].
    eapply reaches_iter; eassumption.
Qed.

End Loop.

(** C1 (as amended). Take a well-formed environment with at least one
    cell, either agent class, and a step budget B with 0 <= B <= MAX_STEPS
    (the cap of 200 built into [act]).  Then the agent is built, and
    - at every test of the loop condition the step counter equals the
      agent's [moves] and is at most B, and once no dirt is left the loop
      stops there without calling [act];
    - the loop ends, either by [break] with no dirt left and fewer than B
      steps taken, or by its condition with exactly B steps taken and
      [moves] equal to B;
    - [run_simulation]'s body returns the final statistics and
      [initial_dirt]. *)
Theorem run_stays_in_lockstep (env : VacuumEnvironment) (c : agent_class)
    (B : Z) (rnd : random_state) :
  env_wf env -> 1 <= e_size env -> 0 <= B <= MAX_STEPS ->
  exists a st rf,
    construct c env = Ok a /\
    (forall r, loop_reaches B (start env a rnd) r ->
       r_steps r = agent_moves (h_self (r_world r)) /\
       r_steps r <= B /\
       (get_total_dirt (h_env (r_world r)) = 0 ->
        exists st', loop_step B r = (st', r) /\ st' <> Running)) /\
    while_loop (loop_fuel B) B (start env a rnd) = (st, rf) /\
    loop_reaches B (start env a rnd) rf /\
    ((st = Broke /\ get_total_dirt (h_env (r_world rf)) = 0 /\ r_steps rf < B) \/
     (st = Exited /\ r_steps rf = B /\ agent_moves (h_self (r_world rf)) = B)) /\
    run_simulation_in env c B rnd =
      Some (Ok (get_stats (h_self (r_world rf)),
                e_initial_dirt (h_env (r_world rf)))).
Proof.
  intros Hwf Hn [HB0 HB].
  destruct (construct_ok c env rnd Hwf Hn) as (a & Ha & Hw & _ & _ & Hm & _).
  assert (Hr0 : run_inv B (start env a rnd)).
  { unfold run_inv, start. cbn. rewrite Hm. repeat split; try apply Hw; lia. }
  destruct (while_loop_ends B HB (loop_fuel B) _ Hr0) as (st & rf & Hrun & Hreach & Hend).
  { unfold loop_fuel, start. cbn. lia. }
  exists a, st, rf. split; [assumption |]. split; [| split; [assumption |]].
  - intros r Hr. pose proof (reaches_inv B HB _ _ Hr0 Hr) as Hinv.
    pose proof Hinv as (_ & Hs & _ & Hle). split; [assumption |].
    split; [assumption |]. intros Hz.
    destruct (loop_step_cases B HB r Hinv)
      as [(_ & _ & ->) | [(_ & ->) | (_ & Hnz & _)]]; try contradiction;
      eexists; (split; [reflexivity | discriminate]).
  - split; [assumption |].
    pose proof (reaches_inv B HB _ _ Hr0 Hreach) as (_ & Hs & _).
    split.
    + destruct Hend as [(-> & Hz & Hlt) | (-> & Heq)]; [left | right];
        repeat split; try assumption; lia.
    + unfold run_simulation_in. rewrite Ha, Hrun.
      destruct Hend as [(-> & _) | (-> & _)]; reflexivity.
Qed.

Lemma run_stays_in_lockstep_witness :
  exists st rf,
    while_loop (loop_fuel 5) 5
      (start env_3x3 (Model (ModelBased 0 0 0 0 [[0; -1; -1]; [-1; -1; -1]; [-1; -1; -1]]))
         zero_rnd) = (st, rf) /\
    ((st = Broke /\ r_steps rf < 5) \/
     (st = Exited /\ agent_moves (h_self (r_world rf)) = 5)).
Proof.
  destruct (run_stays_in_lockstep env_3x3 ModelBasedAgent_class 5 zero_rnd)
    as (a & st & rf & Ha & _ & Hrun & _ & Hend & _).
  - reflexivity.
  - cbn. lia.
  - unfold MAX_STEPS. lia.
  - injection Ha as <-. exists st, rf. split; [exact Hrun |].
    destruct Hend as [(? & _ & ?) | (? & _ & ?)]; [left | right]; now split.
Defined.

(** C1, counterexample: a budget of 201 on an 8 x 8 grid that is dirty
    everywhere, with a generator that always draws 0.  The reflex agent
    ends up pacing between two cells; its [moves] stops at the cap of 200
    while the loop counts 201 steps, with dirt still left. *)
Lemma budget_above_cap_breaks_lockstep :
  exists env a rf,
    fst (VacuumEnvironment_init 8 (3 # 10) all_dirty_rnd) = Ok env /\
    construct SimpleReflexAgent_class env = Ok a /\
    while_loop (loop_fuel 201) 201 (start env a zero_rnd) = (Exited, rf) /\
    r_steps rf = 201 /\
    agent_moves (h_self (r_world rf)) = 200 /\
    get_total_dirt (h_env (r_world rf)) = 56.
Proof.
  eexists _, _, _.
  split; [vm_compute; reflexivity |].
  split; [reflexivity |].
  split; [vm_compute; reflexivity |].
  vm_compute. repeat split.
Qed.

(** C9 (as amended). The constructor takes a size and a probability and
    checks neither itself; numpy refuses a negative size and a probability
    outside [0, 1] with a [ValueError], while the size 0 is accepted and
    gives an empty grid.  The step budget is no part of construction: with
    a budget below 1, [run_simulation] builds its environment and agent
    and returns their initial statistics without a single call of [act]. *)
Theorem construction_checked_by_numpy (size : Z) (p : Q) (B : Z)
    (c : agent_class) (np_rnd py_rnd : random_state) :
  (size < 0 \/ (p < 0)%Q \/ (1 < p)%Q ->
   VacuumEnvironment_init size p np_rnd = (Raise ValueError, np_rnd)) /\
  ((0 <= p)%Q -> (p <= 1)%Q ->
   fst (VacuumEnvironment_init 0 p np_rnd) = Ok (Env 0 [] 0)) /\
  (B < 1 ->
   exists env a,
     fst (VacuumEnvironment_init 8 (3 # 10) np_rnd) = Ok env /\
     construct c env = Ok a /\
     agent_moves a = 0 /\
     run_simulation c B np_rnd py_rnd =
       Some (Ok (get_stats a, e_initial_dirt env))).
Proof.
  split; [apply VacuumEnvironment_init_refused |]. split.
  - intros Hp0 Hp1. unfold VacuumEnvironment_init, np_random_choice01.
    assert (H0 : Qle_bool 0 (1 - p) = true).
    { apply Qle_bool_iff. unfold Qminus. rewrite <- (Qplus_opp_r p).
      apply Qplus_le_l. assumption. }
    assert (H1 : Qle_bool 0 p = true) by now apply Qle_bool_iff.
    assert (H2 : Qeq_bool (1 - p + p) 1 = true) by (apply Qeq_bool_iff; ring).
    rewrite H0, H1, H2. reflexivity.
  - intros HB.
    destruct (VacuumEnvironment_init_ok 8 (3 # 10) np_rnd) as (gr & Hinit & Hwf);
      [lia | unfold Qle; cbn; lia | unfold Qle; cbn; lia |].
    destruct (construct_ok c _ py_rnd Hwf) as (a & Ha & _ & _ & _ & Hm & _);
      [cbn; lia |].
    eexists _, a. rewrite Hinit. split; [reflexivity |].
    split; [exact Ha |]. split; [exact Hm |].
    unfold run_simulation. rewrite Hinit. unfold run_simulation_in.
    rewrite Ha. unfold loop_fuel. cbn [while_loop].
    unfold loop_step, start. cbn [r_steps r_world].
    destruct (0 <? B) eqn:E; [lia |]. reflexivity.
Qed.

Lemma construction_checked_by_numpy_witness :
  VacuumEnvironment_init (-1) (3 # 10) zero_rnd = (Raise ValueError, zero_rnd) /\
  VacuumEnvironment_init 8 (13 # 10) zero_rnd = (Raise ValueError, zero_rnd) /\
  fst (VacuumEnvironment_init 0 (3 # 10) zero_rnd) = Ok (Env 0 [] 0) /\
  exists env a,
    fst (VacuumEnvironment_init 8 (3 # 10) mixed_rnd) = Ok env /\
    construct ModelBasedAgent_class env = Ok a /\
    agent_moves a = 0 /\
    run_simulation ModelBasedAgent_class 0 mixed_rnd zero_rnd =
      Some (Ok (get_stats a, e_initial_dirt env)).
Proof.
  split; [| split; [| split]].
  - apply (construction_checked_by_numpy (-1) (3 # 10) 0 SimpleReflexAgent_class
             zero_rnd zero_rnd). left. lia.
  - apply (construction_checked_by_numpy 8 (13 # 10) 0 SimpleReflexAgent_class
             zero_rnd zero_rnd). right; right. unfold Qlt. cbn. lia.
  - apply (construction_checked_by_numpy 0 (3 # 10) 0 SimpleReflexAgent_class
             zero_rnd zero_rnd); unfold Qle; cbn; lia.
  - apply (construction_checked_by_numpy 8 (3 # 10) 0 ModelBasedAgent_class
             mixed_rnd zero_rnd). lia.
Defined.

(** C9, counterexample: a size of 0 is below 1, yet the constructor
    returns an environment with an empty grid; and with a step budget of
    0, also below 1, [run_simulation] constructs its environment and
    returns normally. *)
Lemma construction_accepts_size_0_and_budget_0 :
  fst (VacuumEnvironment_init 0 (3 # 10) zero_rnd) = Ok (Env 0 [] 0) /\
  is_ok (fst (VacuumEnvironment_init 8 (3 # 10) all_dirty_rnd)) = true /\
  run_simulation SimpleReflexAgent_class 0 all_dirty_rnd zero_rnd =
    Some (Ok (Stats "Simple Reflex" 0 0 0, 64)).
Proof.
  vm_compute. repeat split.
Qed.

(** * Further properties of the agents and the runner *)

(** ** The move counter and the cap *)

Section Cap.

Lemma act_at_cap (w : world) :
  MAX_STEPS <= agent_moves (h_self w) -> act w = (Ok None, w).
Proof.
  destruct w as [e [a | a] g]; cbn; intros H; unfold act, dispatch;
    cbn [h_self h_env h_random].
  - now rewrite simple_act_capped.
  - now rewrite model_act_capped.
Qed.

Lemma simple_act_moves (e : VacuumEnvironment) (a : SimpleReflexAgent)
    (g : random_state) :
  sr_moves a < MAX_STEPS ->
  sr_moves (h_self (snd (SimpleReflexAgent_act (Heap e a g)))) = sr_moves a + 1.
Proof.
  intros Hlt.
  destruct (is_dirty e (sr_x a) (sr_y a)) as [[|] | ex] eqn:Hd.
  - now rewrite simple_act_dirty.
  - rewrite simple_act_clean by assumption.
    now destruct (random_choice _ g) as [[[[d nx] ny] | ex] g'].
  - now rewrite (simple_act_raise _ _ _ ex).
Qed.

Lemma model_act_moves (e : VacuumEnvironment) (a : ModelBasedAgent)
    (g : random_state) :
  mb_moves a < MAX_STEPS ->
  mb_moves (h_self (snd (ModelBasedAgent_act (Heap e a g)))) = mb_moves a + 1.
Proof.
  intros Hlt.
  unfold ModelBasedAgent_act, ModelBasedAgent_perceive, memory_set, bind,
    get_self, get_env, set_self, env_is_dirty, env_clean, choice,
    lift_result, ret.
  cbn.
  destruct (MAX_STEPS <=? mb_moves a) eqn:E; [lia |]. cbn.
  destruct (is_dirty e (mb_x a) (mb_y a)) as [[|] | ex]; cbn; [| | reflexivity].
  - destruct (np_set (mb_memory a) (mb_y a) (mb_x a) 1) as [m1 | ex]; cbn;
      [| reflexivity].
    destruct (clean e (mb_x a) (mb_y a)) as [[[|] | ex] e1]; cbn;
      try reflexivity.
    destruct (np_set m1 (mb_y a) (mb_x a) 0); reflexivity.
  - destruct (np_set (mb_memory a) (mb_y a) (mb_x a) 0) as [m1 | ex]; cbn;
      [| reflexivity].
    destruct (unvisited_of m1 _) as [u | ex]; cbn; [| reflexivity].
    destruct (random_choice _ g) as [[[[d nx] ny] | ex] g']; reflexivity.
Qed.

(** Below the cap a call of [act] counts one move, whatever the state and
    whether it returns or raises. *)
Lemma act_counts_one (w : world) :
  agent_moves (h_self w) < MAX_STEPS ->
  agent_moves (h_self (snd (act w))) = agent_moves (h_self w) + 1.
Proof.
  destruct w as [e [a | a] g]; cbn; intros H; unfold act, dispatch;
    cbn [h_self h_env h_random].
  - pose proof (simple_act_moves e a g H) as Hm.
    destruct (SimpleReflexAgent_act _) as [r h]. exact Hm.
  - pose proof (model_act_moves e a g H) as Hm.
    destruct (ModelBasedAgent_act _) as [r h]. exact Hm.
Qed.

End Cap.

(** X1. Once [moves] has reached the cap, [act] answers [None] and changes
    nothing, in any state of either class; so any number of further calls
    leaves the world exactly as it was. *)
Theorem capped_agent_is_inert (w : world) (k : nat) :
  MAX_STEPS <= agent_moves (h_self w) ->
  after_acts k w = w /\ act (after_acts k w) = (Ok None, w).
Proof.
  intros H.
  assert (Hk : after_acts k w = w).
  { induction k as [| k IH]; [reflexivity |].
    cbn [after_acts]. now rewrite (act_at_cap w H). }
  rewrite Hk. split; [reflexivity | now apply act_at_cap].
Qed.

Lemma capped_agent_is_inert_witness :
  let w := Heap env_2x2 (Model (ModelBased 1 0 200 4 [[0; -1]; [-1; -1]])) zero_rnd in
  after_acts 9 w = w /\ act (after_acts 9 w) = (Ok None, w).
Proof.
  apply (capped_agent_is_inert
           (Heap env_2x2 (Model (ModelBased 1 0 200 4 [[0; -1]; [-1; -1]])) zero_rnd) 9).
  cbn. unfold MAX_STEPS. lia.
Defined.

Lemma moves_step_count (k : nat) (w : world) :
  agent_moves (h_self (after_acts k w)) =
  Z.max (agent_moves (h_self w))
        (Z.min (agent_moves (h_self w) + Z.of_nat k) MAX_STEPS).
Proof.
  revert w. induction k as [| k IH]; intros w; [cbn; lia |].
  cbn [after_acts]. rewrite IH.
  destruct (Z_lt_le_dec (agent_moves (h_self w)) MAX_STEPS) as [Hlt | Hge].
  - rewrite act_counts_one by assumption. lia.
  - rewrite (act_at_cap w Hge). cbn [snd]. lia.
Qed.

(** X2. The move counter counts the calls of [act] up to the cap: after
    [k] calls from a counter [m], it is [min (m + k) MAX_STEPS] when [m]
    was below the cap, and still [m] otherwise.  This holds in every state,
    also when calls raise. *)
Theorem moves_counts_calls (w : world) (k : nat) :
  agent_moves (h_self (after_acts k w)) =
  Z.max (agent_moves (h_self w))
        (Z.min (agent_moves (h_self w) + Z.of_nat k) MAX_STEPS).
Proof. apply moves_step_count. Qed.

(** ** Movement *)

Section Movement.

Lemma after_acts_size (k : nat) (w : world) :
  e_size (h_env (after_acts k w)) = e_size (h_env w).
Proof.
  revert w. induction k as [| k IH]; intros w; [reflexivity |].
  cbn [after_acts]. now rewrite IH, act_size.
Qed.

(** On a grid with at least two rows a well-formed world has no call of
    [act] that raises. *)
Lemma act_returns (w : world) :
  world_wf w -> 2 <= e_size (h_env w) ->
  exists o, fst (act w) = Ok o /\
            (o = None <-> MAX_STEPS <= agent_moves (h_self w)).
Proof.
  intros Hw Hn. destruct (act_cases w Hw) as [Hc _].
  destruct (act w) as [r w']. cbn in Hc |- *.
  inversion Hc as [Hcap | w1 Hlt H2 H3 H4 H5 H6 H7
                  | d nx ny w1 Hlt H2 H3 H4 H5 H6 H7 H8
                  | w1 H1 H2 Hpm H4 H5 H6 H7 H8]; subst.
  - exists None. split; [reflexivity | tauto].
  - eexists. split; [reflexivity |]. split; [discriminate | lia].
  - eexists. split; [reflexivity |]. split; [discriminate | lia].
  - exfalso. destruct Hw as [_ [Hin _]].
    now apply (possible_moves_nonempty _ _ _ Hn Hin).
Qed.

Lemma neighbour_displacement (size x y : Z) (d : action) (x' y' : Z) :
  neighbour size x y (d, x', y') ->
  x' = x + fst (displacement (Ok (Some d))) /\
  y' = y + snd (displacement (Ok (Some d))).
Proof.
  intros [_ [(-> & -> & ->) | [(-> & -> & ->) | [(-> & -> & ->) | (-> & -> & ->)]]]];
    cbn; lia.
Qed.

End Movement.

(** X3. On a grid with at least two rows, a well-formed world never sees
    [act] raise, however many calls came before: each call returns, and it
    returns [None] exactly when [moves] has reached the cap. *)
Theorem act_never_raises (w : world) (k : nat) :
  world_wf w -> 2 <= e_size (h_env w) ->
  exists o,
    fst (act (after_acts k w)) = Ok o /\
    (o = None <-> MAX_STEPS <= agent_moves (h_self (after_acts k w))).
Proof.
  intros Hw Hn. apply act_returns.
  - now apply after_acts_wf.
  - now rewrite after_acts_size.
Qed.

Lemma act_never_raises_witness :
  exists o, fst (act (after_acts 40 model_on_dirt)) = Ok o /\
            (o = None <-> MAX_STEPS <= agent_moves (h_self (after_acts 40 model_on_dirt))).
Proof.
  apply (act_never_raises model_on_dirt 40).
  - repeat split; cbn; lia.
  - cbn. lia.
Defined.

(** X4. The answer of [act] tells where the agent went: in a well-formed
    world the position changes by (+1, 0) for ['RIGHT'], (-1, 0) for
    ['LEFT'], (0, +1) for ['DOWN'], (0, -1) for ['UP'], and not at all for
    ['CLEAN'], [None] or an exception; the new position is on the grid. *)
Theorem answer_matches_displacement (w : world) :
  world_wf w ->
  agent_x (h_self (snd (act w))) =
    agent_x (h_self w) + fst (displacement (fst (act w))) /\
  agent_y (h_self (snd (act w))) =
    agent_y (h_self w) + snd (displacement (fst (act w))) /\
  in_bounds (e_size (h_env w))
    (agent_x (h_self (snd (act w)))) (agent_y (h_self (snd (act w)))).
Proof.
  intros Hw. destruct (act_cases w Hw) as [Hc Hw'].
  pose proof Hw as [_ [Hin _]].
  assert (Hin' : in_bounds (e_size (h_env w))
                   (agent_x (h_self (snd (act w)))) (agent_y (h_self (snd (act w))))).
  { rewrite <- (act_size w). apply Hw'. }
  destruct (act w) as [r w']. cbn in Hc, Hw', Hin' |- *.
  inversion Hc as [Hcap | w1 H1 H2 H3 Hx Hy H6 H7
                  | d nx ny w1 H1 H2 Hm H4 Hx Hy H7 H8
                  | w1 H1 H2 H3 H4 Hx Hy H7 H8]; subst; cbn;
    (split; [| split; [| exact Hin']]); try lia.
  - apply (possible_moves_spec _ _ _ _ Hin) in Hm.
    apply (neighbour_displacement _ _ _ _ _ _ Hm).
  - apply (possible_moves_spec _ _ _ _ Hin) in Hm.
    apply (neighbour_displacement _ _ _ _ _ _ Hm).
Qed.

Lemma answer_matches_displacement_witness :
  let w := Heap env_2x2 (Model model_at_corner) zero_rnd in
  fst (act w) = Ok (Some RIGHT) /\ agent_x (h_self (snd (act w))) = 0 + 1.
Proof.
  destruct (answer_matches_displacement
              (Heap env_2x2 (Model model_at_corner) zero_rnd)) as (Hx & _ & _).
  - repeat split; cbn; lia.
  - split; [reflexivity | exact Hx].
Defined.

(** ** Dirt only goes away *)

Section Dirt.

Lemma is_dirty_after_clean_other (e : VacuumEnvironment) (x y cx cy : Z) :
  env_wf e -> in_bounds (e_size e) x y -> in_bounds (e_size e) cx cy ->
  (cx, cy) <> (x, y) ->
  is_dirty (snd (clean e x y)) cx cy = is_dirty e cx cy.
Proof.
  intros Hwf [Hx Hy] [Hcx Hcy] Hne.
  destruct (is_dirty e x y) as [[|] | ex] eqn:Hd.
  - destruct (clean_dirty _ _ _ Hd) as (gr & Hset & -> & _ & _). cbn.
    unfold is_dirty. cbn [e_grid].
    rewrite (np_get_set_other _ _ _ y x 0 cy cx (env_wf_shape _ Hwf));
      try assumption; [reflexivity |].
    intros [= -> ->]. now apply Hne.
  - now rewrite (clean_clean _ _ _ Hd).
  - now rewrite (clean_raise _ _ _ _ Hd).
Qed.

Lemma act_total_dirt_le (w : world) :
  get_total_dirt (h_env (snd (act w))) <= get_total_dirt (h_env w).
Proof.
  destruct (act_env w) as [-> | ->]; [lia |].
  rewrite clean_total_dirt.
  destruct (fst (clean _ _ _)) as [[|] | ex]; lia.
Qed.

Lemma act_keeps_cell_clean (w : world) (cx cy : Z) :
  world_wf w -> in_bounds (e_size (h_env w)) cx cy ->
  is_dirty (h_env w) cx cy = Ok false ->
  is_dirty (h_env (snd (act w))) cx cy = Ok false.
Proof.
  intros [Hwf [Hin _]] Hc Hd.
  destruct (act_env w) as [-> | ->]; [assumption |].
  now apply is_dirty_after_clean_elsewhere.
Qed.

End Dirt.

(** X5. Dirt never comes back and never grows: over any number of [act]
    calls in a well-formed world, a cell of the grid that is clean stays
    clean, and the total dirt does not increase. *)
Theorem dirt_never_comes_back (w : world) (k : nat) (cx cy : Z) :
  world_wf w -> in_bounds (e_size (h_env w)) cx cy ->
  get_total_dirt (h_env (after_acts k w)) <= get_total_dirt (h_env w) /\
  (is_dirty (h_env w) cx cy = Ok false ->
   is_dirty (h_env (after_acts k w)) cx cy = Ok false).
Proof.
  revert w. induction k as [| k IH]; intros w Hw Hc; [cbn; split; [lia | auto] |].
  cbn [after_acts].
  destruct (IH (snd (act w))) as [Hle Hcell].
  - now apply act_keeps_wf.
  - now rewrite act_size.
  - split.
    + pose proof (act_total_dirt_le w). lia.
    + intros Hd. apply Hcell. now apply act_keeps_cell_clean.
Qed.

Lemma dirt_never_comes_back_witness :
  get_total_dirt (h_env (after_acts 12 simple_on_dirt)) <= 1 /\
  is_dirty (h_env (after_acts 12 simple_on_dirt)) 0 1 = Ok false.
Proof.
  destruct (dirt_never_comes_back simple_on_dirt 12 0 1) as [Hle Hcell].
  - repeat split; cbn; lia.
  - cbn. unfold in_bounds. lia.
  - split; [exact Hle | apply Hcell; reflexivity].
Defined.

(** X6. A call of [act] can change no cell of the grid but the one the
    agent stands on: every other cell of the grid answers [is_dirty] after
    the call as it did before. *)
Theorem act_touches_only_own_cell (w : world) (cx cy : Z) :
  world_wf w -> in_bounds (e_size (h_env w)) cx cy ->
  (cx, cy) <> (agent_x (h_self w), agent_y (h_self w)) ->
  is_dirty (h_env (snd (act w))) cx cy = is_dirty (h_env w) cx cy.
Proof.
  intros [Hwf [Hin _]] Hc Hne.
  destruct (act_env w) as [-> | ->]; [reflexivity |].
  now apply is_dirty_after_clean_other.
Qed.

Lemma act_touches_only_own_cell_witness :
  is_dirty (h_env (snd (act model_on_dirt))) 0 1 = is_dirty env_2x2 0 1.
Proof.
  apply (act_touches_only_own_cell model_on_dirt 0 1).
  - repeat split; cbn; lia.
  - cbn. unfold in_bounds. lia.
  - cbn. intros [=].
Defined.

(** ** Statistics *)

Section Statistics.

Lemma act_cleaned_le_moves (w : world) :
  world_wf w ->
  agent_cleaned (h_self w) <= agent_cleaned (h_self (snd (act w))) /\
  agent_cleaned (h_self (snd (act w))) - agent_cleaned (h_self w) <=
    agent_moves (h_self (snd (act w))) - agent_moves (h_self w).
Proof.
  intros Hw. destruct (act_cases w Hw) as [Hc _].
  destruct (act w) as [r w']. cbn in Hc |- *.
  inversion Hc as [Hcap | w1 H1 H2 H3 H4 H5 H6 H7
                  | d nx ny w1 H1 H2 H3 H4 H5 H6 H7 H8
                  | w1 H1 H2 H3 H4 H5 H6 H7 H8]; subst; lia.
Qed.

Lemma after_acts_cleaned_le_moves (k : nat) (w : world) :
  world_wf w ->
  agent_cleaned (h_self w) <= agent_cleaned (h_self (after_acts k w)) /\
  agent_cleaned (h_self (after_acts k w)) - agent_cleaned (h_self w) <=
    agent_moves (h_self (after_acts k w)) - agent_moves (h_self w).
Proof.
  revert w. induction k as [| k IH]; intros w Hw; [cbn; lia |].
  cbn [after_acts].
  pose proof (act_cleaned_le_moves w Hw).
  pose proof (IH (snd (act w)) (act_keeps_wf _ Hw)). lia.
Qed.

Lemma efficiency_bounds (cleaned moves : Z) :
  0 <= cleaned <= moves ->
  (0 <= efficiency cleaned moves)%Q /\ (efficiency cleaned moves <= 1)%Q.
Proof.
  intros H. unfold efficiency.
  destruct (0 <? moves) eqn:E.
  - unfold Qle. cbn [Qnum Qden]. rewrite Z2Pos.id by lia. lia.
  - unfold Qle. cbn. lia.
Qed.

Lemma get_stats_fields (a : agent) :
  st_moves (get_stats a) = agent_moves a /\
  st_cleaned (get_stats a) = agent_cleaned a /\
  st_efficiency (get_stats a) = efficiency (agent_cleaned a) (agent_moves a).
Proof. destruct a; repeat split. Qed.

End Statistics.

(** X7. The statistics of an agent built on a well-formed environment and
    driven through any number [k] of [act] calls are consistent:
    0 <= cleaned <= moves = min (k, MAX_STEPS), the efficiency lies
    between 0 and 1, and it is 0 when no move has been made. *)
Theorem stats_are_consistent (env : VacuumEnvironment) (c : agent_class)
    (rnd : random_state) (k : nat) :
  env_wf env -> 1 <= e_size env ->
  exists a,
    construct c env = Ok a /\
    let s := get_stats (h_self (after_acts k (Heap env a rnd))) in
    0 <= st_cleaned s <= st_moves s /\
    st_moves s = Z.min (Z.of_nat k) MAX_STEPS /\
    (0 <= st_efficiency s)%Q /\ (st_efficiency s <= 1)%Q /\
    (st_moves s = 0 -> st_efficiency s = 0%Q).
Proof.
  intros Hwf Hn.
  destruct (construct_ok c env rnd Hwf Hn) as (a & Ha & Hw & _ & _ & Hm & Hcl).
  exists a. split; [assumption |]. cbn zeta.
  destruct (get_stats_fields (h_self (after_acts k (Heap env a rnd))))
    as (-> & -> & ->).
  pose proof (after_acts_cleaned_le_moves k _ Hw) as [H1 H2].
  pose proof (moves_step_count k (Heap env a rnd)) as H3.
  cbn [h_self] in H1, H2, H3. rewrite Hm in *. rewrite Hcl in *.
  assert (Hb : 0 <= agent_cleaned (h_self (after_acts k (Heap env a rnd))) <=
               agent_moves (h_self (after_acts k (Heap env a rnd)))) by lia.
  split; [exact Hb |]. split; [rewrite H3; unfold MAX_STEPS; lia |].
  destruct (efficiency_bounds _ _ Hb) as [He0 He1].
  split; [exact He0 |]. split; [exact He1 |].
  intros ->. reflexivity.
Qed.

Lemma stats_are_consistent_witness :
  exists a,
    construct ModelBasedAgent_class env_3x3 = Ok a /\
    let s := get_stats (h_self (after_acts 9 (Heap env_3x3 a zero_rnd))) in
    0 <= st_cleaned s <= st_moves s /\ st_moves s = Z.min 9 MAX_STEPS /\
    (0 <= st_efficiency s)%Q /\ (st_efficiency s <= 1)%Q /\
    (st_moves s = 0 -> st_efficiency s = 0%Q).
Proof.
  apply (stats_are_consistent env_3x3 ModelBasedAgent_class zero_rnd 9).
  - reflexivity.
  - cbn. lia.
Defined.

(** ** The model-based agent's memory, from construction on *)

Section MemoryInvariant.

Lemma np_get_replicate (n v r c : Z) :
  0 <= r < n -> 0 <= c < n ->
  np_get (replicate (Z.to_nat n) (replicate (Z.to_nat n) v)) r c = Ok v.
Proof.
  intros Hr Hc.
  destruct (np_full_shaped n v) as [_ Hs]; [lia |].
  destruct (np_get_in _ _ r c Hs Hr Hc) as (row & w & Hrow & Hw & ->).
  apply lookup_replicate in Hrow as [-> _].
  apply lookup_replicate in Hw as [-> _]. reflexivity.
Qed.

(** The memory [__init__] builds when the grid has a cell. *)
Lemma model_init_memory (env : VacuumEnvironment) :
  1 <= e_size env ->
  exists m,
    ModelBasedAgent_init env = Ok (ModelBased 0 0 0 0 m) /\
    shapedb (e_size env) m = true /\
    np_get m 0 0 = Ok 0 /\
    forall x y, in_bounds (e_size env) x y -> (x, y) <> (0, 0) ->
                np_get m y x = Ok (-1).
Proof.
  intros Hn. unfold ModelBasedAgent_init.
  destruct (np_full_shaped (e_size env) (-1)) as [-> Hs]; [lia |].
  destruct (np_set_in _ _ 0 0 0 Hs) as (row & _ & Hset); [lia | lia |].
  rewrite Hset. eexists. split; [reflexivity |].
  split; [eapply np_set_shaped; eauto |].
  split; [exact (np_get_set_same _ _ _ _ _ Hset) |].
  intros x y [Hx Hy] Hne.
  rewrite (np_get_set_other _ _ _ 0 0 0 y x Hs); try assumption; try lia.
  - now apply np_get_replicate.
  - intros [= <- <-]. now apply Hne.
Qed.

(** The memory after one call of [act]: untouched at the cap; otherwise
    the entry of the cell the agent stood on is 0, that cell is clean, and
    the other entries are as before. *)
Lemma model_act_memory (e : VacuumEnvironment) (a : ModelBasedAgent)
    (g : random_state) :
  world_wf (Heap e (Model a) g) ->
  exists a',
    h_self (snd (act (Heap e (Model a) g))) = Model a' /\
    ((MAX_STEPS <= mb_moves a /\ a' = a) \/
     (mb_moves a < MAX_STEPS /\
      np_get (mb_memory a') (mb_y a) (mb_x a) = Ok 0 /\
      is_dirty (h_env (snd (act (Heap e (Model a) g)))) (mb_x a) (mb_y a) = Ok false /\
      forall cx cy, in_bounds (e_size e) cx cy -> (cx, cy) <> (mb_x a, mb_y a) ->
                    np_get (mb_memory a') cy cx = np_get (mb_memory a) cy cx)).
Proof.
  intros [Hwf [Hin Hmem]]. cbn in Hwf, Hin, Hmem.
  pose proof Hin as [Hx Hy].
  unfold act, dispatch. cbn [h_self h_env h_random].
  destruct (Z_lt_le_dec (mb_moves a) MAX_STEPS) as [Hlt | Hge].
  2: { rewrite model_act_capped by assumption. cbn. eauto. }
  assert (Hother : forall m1 v, np_set (mb_memory a) (mb_y a) (mb_x a) v = Ok m1 ->
            forall cx cy, in_bounds (e_size e) cx cy -> (cx, cy) <> (mb_x a, mb_y a) ->
            np_get m1 cy cx = np_get (mb_memory a) cy cx).
  { intros m1 v Hset cx cy [Hcx Hcy] Hne.
    apply (np_get_set_other (e_size e) (mb_memory a) m1 (mb_y a) (mb_x a) v
             cy cx Hmem Hy Hx Hcy Hcx); [| exact Hset].
    intros [= <- <-]. now apply Hne. }
  destruct (is_dirty_in e _ _ Hwf Hin) as [Hd | Hd].
  - destruct (np_set_in _ _ (mb_y a) (mb_x a) 1 Hmem Hy Hx) as (r1 & _ & Hm1).
    pose proof (np_set_shaped _ _ _ _ _ _ Hm1 Hmem) as Hs1.
    destruct (np_set_in _ _ (mb_y a) (mb_x a) 0 Hs1 Hy Hx) as (r2 & _ & Hm2).
    rewrite (model_act_dirty e a g _ _ Hlt Hd Hm1 Hm2). cbn.
    eexists. split; [reflexivity |]. right. cbn. split; [assumption |].
    split; [exact (np_get_set_same _ _ _ _ _ Hm2) |]. split.
    + destruct (clean_dirty _ _ _ Hd) as (gr & _ & -> & _ & Hafter). exact Hafter.
    + intros cx cy Hc Hne. pose proof Hc as [Hcx Hcy].
      assert (Hne' : (mb_y a, mb_x a) <> (cy, cx)).
      { intros [= <- <-]. now apply Hne. }
      rewrite (np_get_set_other _ _ _ _ _ _ cy cx Hs1 Hy Hx Hcy Hcx Hne' Hm2).
      now apply (Hother _ 1 Hm1).
  - destruct (np_set_in _ _ (mb_y a) (mb_x a) 0 Hmem Hy Hx) as (r1 & _ & Hm1).
    pose proof (np_set_shaped _ _ _ _ _ _ Hm1 Hmem) as Hs1.
    pose proof (unvisited_of_filter _ _
                  (possible_moves (e_size e) (mb_x a) (mb_y a)) Hs1) as Hu.
    rewrite (model_act_clean e a g _ _ Hlt Hd Hm1
               (Hu (fun d x y => possible_moves_in_bounds _ _ _ d x y Hin))).
    pose proof (np_get_set_same _ _ _ _ _ Hm1) as Hsame.
    pose proof (Hother _ 0 Hm1) as Hrest.
    destruct (random_choice _ g) as [[[[d nx] ny] | ex] g']; cbn;
      (eexists; split; [reflexivity |]); right; cbn; auto.
Qed.

Lemma act_keeps_memory_sound (w : world) :
  world_wf w -> memory_sound w -> memory_sound (snd (act w)).
Proof.
  destruct w as [e [a | a] g]; intros Hw Hs.
  - unfold memory_sound, act, dispatch. cbn [h_self h_env h_random].
    now destruct (SimpleReflexAgent_act _) as [r h].
  - destruct (model_act_memory e a g Hw) as (a' & Ha' & Hcases).
    pose proof (act_size (Heap e (Model a) g)) as Hsize.
    pose proof (act_keeps_cell_clean (Heap e (Model a) g)) as Hkeep.
    unfold memory_sound in *. rewrite Ha', Hsize. cbn [h_self h_env] in *.
    destruct Hcases as [[Hge ->] | (Hlt & H0 & Hcl & Hrest)].
    + rewrite (act_at_cap (Heap e (Model a) g)) by exact Hge. exact Hs.
    + intros cx cy Hc.
      destruct (decide ((cx, cy) = (mb_x a, mb_y a))) as [[= -> ->] | Hne].
      * right. split; [assumption | now right].
      * rewrite (Hrest cx cy Hc Hne).
        destruct (Hs cx cy Hc) as [Hu | [Hz [Hp | Hd]]]; [now left | contradiction |].
        right. split; [assumption |]. right. now apply Hkeep.
Qed.

Lemma after_acts_memory_sound (k : nat) (w : world) :
  world_wf w -> memory_sound w -> memory_sound (after_acts k w).
Proof.
  revert w. induction k as [| k IH]; intros w Hw Hs; [assumption |].
  cbn [after_acts]. apply IH; [now apply act_keeps_wf |].
  now apply act_keeps_memory_sound.
Qed.

(** An object keeps its class. *)
Lemma model_stays_model (k : nat) (e : VacuumEnvironment) (a : ModelBasedAgent)
    (g : random_state) (s : SimpleReflexAgent) :
  h_self (after_acts k (Heap e (Model a) g)) = Simple s -> False.
Proof.
  revert e a g. induction k as [| k IH]; intros e a g; [discriminate |].
  cbn [after_acts]. unfold act at 1, dispatch. cbn [h_self h_env h_random].
  destruct (ModelBasedAgent_act _) as [r [e' a' g']]. cbn [snd h_env h_self h_random].
  apply IH.
Qed.

End MemoryInvariant.

(** X8. Constructing the model-based agent: on an environment with at
    least one cell it starts at (0, 0) with both counters 0 and a memory of
    the grid's shape that holds 0 at [0, 0] and -1 everywhere else; on an
    empty grid (size 0) the write to [memory[0, 0]] raises [IndexError];
    a negative size is a [ValueError] of [np.full]. *)
Theorem model_agent_construction (env : VacuumEnvironment) :
  (1 <= e_size env ->
   exists m,
     ModelBasedAgent_init env = Ok (ModelBased 0 0 0 0 m) /\
     shapedb (e_size env) m = true /\
     np_get m 0 0 = Ok 0 /\
     forall x y, in_bounds (e_size env) x y -> (x, y) <> (0, 0) ->
                 np_get m y x = Ok (-1)) /\
  (e_size env = 0 -> ModelBasedAgent_init env = Raise IndexError) /\
  (e_size env < 0 -> ModelBasedAgent_init env = Raise ValueError).
Proof.
  split; [apply model_init_memory |]. split.
  - intros H0. unfold ModelBasedAgent_init. now rewrite H0.
  - intros Hneg. unfold ModelBasedAgent_init, np_full.
    destruct (e_size env <? 0) eqn:E; [reflexivity | lia].
Qed.

Lemma model_agent_construction_witness :
  ModelBasedAgent_init (Env 0 [] 0) = Raise IndexError /\
  ModelBasedAgent_init (Env (-2) [] 0) = Raise ValueError /\
  exists m, ModelBasedAgent_init env_3x3 = Ok (ModelBased 0 0 0 0 m) /\
            np_get m 2 1 = Ok (-1).
Proof.
  split; [| split].
  - apply (model_agent_construction (Env 0 [] 0)). reflexivity.
  - apply (model_agent_construction (Env (-2) [] 0)). cbn. lia.
  - destruct (model_agent_construction env_3x3) as ((m & Hm & _ & _ & Hrest) & _).
    + cbn. lia.
    + exists m. split; [exact Hm |]. apply Hrest.
      * cbn. unfold in_bounds. lia.
      * intros [=].
Defined.

(** X9. A call of [act] writes the model-based agent's memory at the cell
    it stands on and nowhere else: in a well-formed world every other
    entry on the grid reads after the call as before. *)
Theorem memory_written_at_own_cell (e : VacuumEnvironment)
    (a : ModelBasedAgent) (g : random_state) (cx cy : Z) :
  world_wf (Heap e (Model a) g) ->
  in_bounds (e_size e) cx cy -> (cx, cy) <> (mb_x a, mb_y a) ->
  np_get (agent_memory (h_self (snd (act (Heap e (Model a) g))))) cy cx =
  np_get (mb_memory a) cy cx.
Proof.
  intros Hw Hc Hne.
  destruct (model_act_memory e a g Hw) as (a' & -> & [[_ ->] | (_ & _ & _ & Hrest)]).
  - reflexivity.
  - now apply Hrest.
Qed.

Lemma memory_written_at_own_cell_witness :
  np_get (agent_memory (h_self (snd (act model_on_dirt)))) 1 1 = Ok (-1).
Proof.
  apply (memory_written_at_own_cell env_2x2
           (ModelBased 1 0 3 0 [[0; -1]; [-1; -1]]) zero_rnd 1 1).
  - repeat split; cbn; lia.
  - cbn. unfold in_bounds. lia.
  - cbn. intros [=].
Defined.

(** X10. From construction on and between any two calls of [act], the
    model-based agent's memory holds only -1 and 0 on the grid (the 1 that
    [perceive] writes on a dirty cell is overwritten before [act]
    returns), and every cell it holds 0 for, other than the one the agent
    stands on, is clean in the environment. *)
Theorem memory_stays_sound (env : VacuumEnvironment) (rnd : random_state)
    (k : nat) :
  env_wf env -> 1 <= e_size env ->
  exists a,
    construct ModelBasedAgent_class env = Ok a /\
    forall cx cy, in_bounds (e_size env) cx cy ->
      let w := after_acts k (Heap env a rnd) in
      np_get (agent_memory (h_self w)) cy cx = Ok (-1) \/
      (np_get (agent_memory (h_self w)) cy cx = Ok 0 /\
       ((cx, cy) = (agent_x (h_self w), agent_y (h_self w)) \/
        is_dirty (h_env w) cx cy = Ok false)).
Proof.
  intros Hwf Hn.
  destruct (model_init_memory env Hn) as (m & Hinit & Hs & H00 & Hrest).
  exists (Model (ModelBased 0 0 0 0 m)). split.
  { cbn. now rewrite Hinit. }
  assert (Hw : world_wf (Heap env (Model (ModelBased 0 0 0 0 m)) rnd)).
  { split; [exact Hwf |]. split; [cbn; unfold in_bounds; lia | exact Hs]. }
  assert (H0 : memory_sound (Heap env (Model (ModelBased 0 0 0 0 m)) rnd)).
  { unfold memory_sound. cbn. intros cx cy Hc.
    destruct (decide ((cx, cy) = (0, 0))) as [[= -> ->] | Hne].
    - right. split; [assumption | now left].
    - left. now apply Hrest. }
  pose proof (after_acts_memory_sound k _ Hw H0) as Hk.
  intros cx cy Hc. cbn zeta. unfold memory_sound in Hk.
  rewrite after_acts_size in Hk. cbn [h_env] in Hk.
  destruct (h_self (after_acts k _)) as [s | m'] eqn:E.
  - exfalso. revert E. apply model_stays_model.
  - cbn. now apply Hk.
Qed.

Lemma memory_stays_sound_witness :
  exists a,
    construct ModelBasedAgent_class env_3x3 = Ok a /\
    let w := after_acts 6 (Heap env_3x3 a zero_rnd) in
    np_get (agent_memory (h_self w)) 0 1 = Ok (-1) \/
    (np_get (agent_memory (h_self w)) 0 1 = Ok 0 /\
     ((1, 0) = (agent_x (h_self w), agent_y (h_self w)) \/
      is_dirty (h_env w) 1 0 = Ok false)).
Proof.
  destruct (memory_stays_sound env_3x3 zero_rnd 6) as (a & Ha & H).
  - reflexivity.
  - cbn. lia.
  - exists a. split; [exact Ha |]. apply H. cbn. unfold in_bounds. lia.
Defined.

(** ** The runner under any budget *)

Section AnyBudget.

Variable max_steps : Z.

Lemma act_returns_with_dirt_left (w : world) :
  world_wf w -> get_total_dirt (h_env w) <> 0 ->
  exists o, fst (act w) = Ok o.
Proof.
  intros Hw Hdirt.
  destruct (Z_lt_le_dec (agent_moves (h_self w)) MAX_STEPS) as [Hlt | Hge].
  - destruct (act_with_dirt_left w Hw Hlt Hdirt) as (o & w' & -> & _). eauto.
  - rewrite (act_at_cap w Hge). eauto.
Qed.

Lemma loop_step_cases_any (r : runner) :
  run_inv_any max_steps r ->
  (r_steps r < max_steps /\ get_total_dirt (h_env (r_world r)) = 0 /\
   loop_step max_steps r = (Broke, r)) \/
  (max_steps <= r_steps r /\ loop_step max_steps r = (Exited, r)) \/
  (r_steps r < max_steps /\
   exists r', loop_step max_steps r = (Running, r') /\
              run_inv_any max_steps r' /\ r_steps r' = r_steps r + 1).
Proof.
  intros (Hw & Hs & Hm & Hc & Hsum). unfold loop_step.
  destruct (r_steps r <? max_steps) eqn:E.
  2: { right; left. split; [lia | reflexivity]. }
  destruct (get_total_dirt (h_env (r_world r)) =? 0) eqn:E0.
  { left. repeat split; lia. }
  right; right. split; [lia |].
  destruct (act_returns_with_dirt_left (r_world r) Hw) as [o Ho]; [lia |].
  pose proof (act_keeps_wf _ Hw) as Hw'.
  pose proof (act_cleaned_le_moves _ Hw) as [Hc1 Hc2].
  pose proof (act_conserves _ Hw) as Hcons.
  pose proof (act_initial_dirt (r_world r)) as Hinit.
  assert (Hmoves : agent_moves (h_self (snd (act (r_world r)))) =
                   Z.min (r_steps r + 1) MAX_STEPS).
  { destruct (Z_lt_le_dec (agent_moves (h_self (r_world r))) MAX_STEPS) as [Hlt | Hge].
    - rewrite act_counts_one by assumption. lia.
    - rewrite (act_at_cap _ Hge). cbn [snd]. lia. }
  destruct (act (r_world r)) as [res w']. cbn [fst snd] in *. subst res.
  eexists. split; [reflexivity |]. split; [| reflexivity].
  unfold run_inv_any. cbn [r_world r_steps].
  split; [assumption |]. split; [lia |]. split; [assumption |].
  split; lia.
Qed.

Lemma while_loop_ends_any (fuel : nat) (r : runner) :
  run_inv_any max_steps r ->
  (Z.to_nat (max_steps - r_steps r) < fuel)%nat ->
  exists st rf,
    while_loop fuel max_steps r = (st, rf) /\
    run_inv_any max_steps rf /\
    ((st = Broke /\ get_total_dirt (h_env (r_world rf)) = 0) \/
     (st = Exited /\ max_steps <= r_steps rf)).
Proof.
  revert r. induction fuel as [| fuel IH]; intros r Hr Hfuel; [lia |].
  cbn [while_loop].
  destruct (loop_step_cases_any r Hr)
    as [(Hlt & Hz & ->) | [(Hge & ->) | (Hlt & r1 & -> & Hr1 & Hs1)]].
  - exists Broke, r. auto.
  - exists Exited, r. auto.
  - apply IH; [assumption | lia].
Qed.

End AnyBudget.

(** X11. [run_simulation] returns for every budget, negative, zero or
    above the cap, and for either class and any random draws; the numbers
    it returns satisfy 0 <= cleaned <= moves <= min (max (0, B), MAX_STEPS)
    and cleaned <= initial dirt; and the run has either cleaned everything
    or used exactly min (max (0, B), MAX_STEPS) moves. *)
Theorem run_simulation_any_budget (c : agent_class) (B : Z)
    (np_rnd py_rnd : random_state) :
  exists s d,
    run_simulation c B np_rnd py_rnd = Some (Ok (s, d)) /\
    0 <= st_cleaned s <= st_moves s /\
    st_moves s <= Z.min (Z.max 0 B) MAX_STEPS /\
    st_cleaned s <= d /\
    (st_cleaned s = d \/ st_moves s = Z.min (Z.max 0 B) MAX_STEPS).
Proof.
  destruct (VacuumEnvironment_init_ok 8 (3 # 10) np_rnd) as (gr & Hinit & Hwf);
    [lia | unfold Qle; cbn; lia | unfold Qle; cbn; lia |].
  destruct (construct_ok c _ py_rnd Hwf) as (a & Ha & Hw & _ & _ & Hm & Hcl);
    [cbn; lia |].
  assert (Hr0 : run_inv_any B (start (Env 8 gr (np_sum gr)) a py_rnd)).
  { unfold run_inv_any, start. cbn [r_world r_steps h_self h_env e_initial_dirt].
    rewrite Hm, Hcl. split; [exact Hw |].
    unfold get_total_dirt, MAX_STEPS. cbn [e_grid]. lia. }
  destruct (while_loop_ends_any B (loop_fuel B) _ Hr0)
    as (st & rf & Hrun & (Hwf' & Hs & Hmv & Hc & Hsum) & Hend).
  { unfold loop_fuel, start. cbn. lia. }
  pose proof (total_dirt_nonneg _ (proj1 Hwf')) as Hpos.
  destruct (get_stats_fields (h_self (r_world rf))) as (Hf1 & Hf2 & _).
  exists (get_stats (h_self (r_world rf))), (e_initial_dirt (h_env (r_world rf))).
  split.
  - unfold run_simulation. rewrite Hinit. unfold run_simulation_in.
    rewrite Ha, Hrun. destruct Hend as [(-> & _) | (-> & _)]; reflexivity.
  - rewrite Hf1, Hf2. unfold MAX_STEPS in *.
    destruct Hend as [(_ & Hz) | (_ & Hge)]; repeat split; try lia.
Qed.

(** ** The plot data of visualize_agent *)

Section Plot.

Lemma act_keeps_counts (w : world) : counts_ok w -> counts_ok (snd (act w)).
Proof.
  intros (Hw & Hc & Hsum).
  pose proof (act_cleaned_le_moves _ Hw) as [Hc1 Hc2].
  pose proof (act_conserves _ Hw) as Hcons.
  pose proof (act_initial_dirt w) as Hinit.
  split; [now apply act_keeps_wf |]. split; lia.
Qed.

Lemma np_divide_ratio (t i : Z) :
  0 <= t <= i -> 0 < i ->
  exists q, np_divide t i = Some q /\ unit_range q.
Proof.
  intros Ht Hi. unfold np_divide.
  destruct (i =? 0) eqn:E; [lia |].
  eexists. split; [reflexivity |].
  assert (Hpos : (0 < inject_Z i)%Q) by (unfold Qlt; cbn; lia).
  split.
  - apply Qle_shift_div_l; [assumption |].
    rewrite Qmult_0_l. unfold Qle. cbn. lia.
  - apply Qle_shift_div_r; [assumption |].
    rewrite Qmult_1_l. unfold Qle. cbn. lia.
Qed.

Lemma animate_step (max_steps frame : Z) (w : world) (pd : plot_data) :
  counts_ok w -> plot_ok pd ->
  exists w' pd',
    animate max_steps frame w pd = (Ok tt, w', pd') /\
    counts_ok w' /\ plot_ok pd' /\
    (length (steps_list pd) <= length (steps_list pd')
       <= S (length (steps_list pd)))%nat.
Proof.
  intros Hc Hp. unfold animate.
  destruct ((max_steps <=? frame) || (get_total_dirt (h_env w) =? 0)) eqn:E.
  { exists w, pd. refine (conj eq_refl (conj Hc (conj Hp _))). lia. }
  apply orb_false_iff in E as [_ Hdirt]. apply Z.eqb_neq in Hdirt.
  pose proof Hc as (Hw & Hcl & Hsum).
  destruct (act_returns_with_dirt_left w Hw Hdirt) as [o Ho].
  pose proof (act_keeps_counts w Hc) as Hc'.
  pose proof (act_total_dirt_le w) as Hle.
  pose proof (act_initial_dirt w) as Hinit.
  pose proof (total_dirt_nonneg _ (proj1 Hw)) as Hpos.
  destruct (act w) as [res w']. cbn [fst snd] in *. subst res.
  pose proof Hc' as (Hw' & Hcl' & Hsum').
  pose proof (total_dirt_nonneg _ (proj1 Hw')) as Hpos'.
  destruct (np_divide_ratio (get_total_dirt (h_env w')) (e_initial_dirt (h_env w')))
    as (q & Hq & Hrange); [lia | lia |].
  destruct (get_stats_fields (h_self w')) as (_ & _ & Heff).
  destruct (efficiency_bounds (agent_cleaned (h_self w')) (agent_moves (h_self w')) Hcl')
    as [He0 He1].
  destruct Hp as (Hl1 & Hl2 & Hfe & Hfd).
  eexists w', _. split; [reflexivity |]. split; [assumption |].
  split; [| cbn; rewrite length_app; cbn; lia].
  unfold plot_ok. cbn [steps_list efficiency_list dirt_list].
  rewrite !length_app. cbn [length].
  split; [lia |]. split; [lia |]. split.
  - apply Forall_app. split; [assumption |].
    apply Forall_singleton. rewrite Heff. now split.
  - apply Forall_app. split; [assumption |].
    apply Forall_singleton. eauto.
Qed.

Lemma animate_frames_ok (max_steps : Z) (frames : list Z) (w : world)
    (pd : plot_data) :
  counts_ok w -> plot_ok pd ->
  exists w' pd',
    animate_frames max_steps frames w pd = (Ok tt, w', pd') /\
    counts_ok w' /\ plot_ok pd' /\
    (length (steps_list pd') <= length (steps_list pd) + length frames)%nat.
Proof.
  revert w pd. induction frames as [| frame rest IH]; intros w pd Hc Hp.
  - exists w, pd. refine (conj eq_refl (conj Hc (conj Hp _))). cbn. lia.
  - cbn [animate_frames].
    destruct (animate_step max_steps frame w pd Hc Hp)
      as (w1 & pd1 & -> & Hc1 & Hp1 & Hlen1).
    destruct (IH w1 pd1 Hc1 Hp1) as (w2 & pd2 & -> & Hc2 & Hp2 & Hlen2).
    exists w2, pd2. refine (conj eq_refl (conj Hc2 (conj Hp2 _))).
    cbn [length]. lia.
Qed.

End Plot.

(** X12. The plot data of [visualize_agent]: on the environment and agent
    it builds, whatever frames [animate] is called with and in whatever
    order, no call raises, the division [get_total_dirt() / initial_dirt]
    never meets a zero divisor, every recorded dirt ratio and efficiency
    lies between 0 and 1, the three lists keep the same length, and at
    most one entry is added per call. *)
Theorem plot_data_is_well_defined (c : agent_class) (max_steps : Z)
    (frames : list Z) (np_rnd py_rnd : random_state) :
  exists env a w' pd',
    fst (VacuumEnvironment_init 8 (3 # 10) np_rnd) = Ok env /\
    construct c env = Ok a /\
    animate_frames max_steps frames (Heap env a py_rnd) (PlotData [] [] []) =
      (Ok tt, w', pd') /\
    length (steps_list pd') = length (efficiency_list pd') /\
    length (steps_list pd') = length (dirt_list pd') /\
    (length (steps_list pd') <= length frames)%nat /\
    Forall unit_range (efficiency_list pd') /\
    Forall (fun o => exists q, o = Some q /\ unit_range q) (dirt_list pd').
Proof.
  destruct (VacuumEnvironment_init_ok 8 (3 # 10) np_rnd) as (gr & Hinit & Hwf);
    [lia | unfold Qle; cbn; lia | unfold Qle; cbn; lia |].
  destruct (construct_ok c _ py_rnd Hwf) as (a & Ha & Hw & _ & _ & Hm & Hcl);
    [cbn; lia |].
  assert (Hc : counts_ok (Heap (Env 8 gr (np_sum gr)) a py_rnd)).
  { split; [exact Hw |]. cbn [h_self h_env e_initial_dirt].
    rewrite Hm, Hcl. unfold get_total_dirt. cbn [e_grid]. lia. }
  assert (Hp : plot_ok (PlotData [] [] [])).
  { repeat split; constructor. }
  destruct (animate_frames_ok max_steps frames _ _ Hc Hp)
    as (w' & pd' & Hrun & _ & (H1 & H2 & H3 & H4) & Hlen).
  exists (Env 8 gr (np_sum gr)), a, w', pd'. rewrite Hinit.
  refine (conj eq_refl (conj Ha (conj Hrun (conj H1 (conj H2 (conj _ (conj H3 H4))))))).
  cbn in Hlen. lia.
Qed.

(** ** The averages of compare_agents *)

Section Averages.

(** [run_simulation_st] returns what [run_simulation] returns. *)
Lemma run_simulation_st_result (c : agent_class) (B : Z)
    (np_rnd py_rnd : random_state) :
  fst (fst (run_simulation_st c B np_rnd py_rnd)) =
  run_simulation c B np_rnd py_rnd.
Proof.
  unfold run_simulation_st, run_simulation, run_simulation_in.
  destruct (VacuumEnvironment_init 8 (3 # 10) np_rnd) as [[env | ex] np'];
    [| reflexivity].
  destruct (construct c env) as [a | ex]; [| reflexivity].
  destruct (while_loop _ _ _) as [[| | | ex |] r]; reflexivity.
Qed.

(** Every run returns, with statistics in range. *)
Lemma run_simulation_st_ok (c : agent_class) (B : Z)
    (np_rnd py_rnd : random_state) :
  exists s d np' py',
    run_simulation_st c B np_rnd py_rnd = (Some (Ok (s, d)), np', py') /\
    stats_ok s.
Proof.
  unfold run_simulation_st.
  destruct (VacuumEnvironment_init_ok 8 (3 # 10) np_rnd) as (gr & -> & Hwf);
    [lia | unfold Qle; cbn; lia | unfold Qle; cbn; lia |].
  destruct (construct_ok c _ py_rnd Hwf) as (a & -> & Hw & _ & _ & Hm & Hcl);
    [cbn; lia |].
  assert (Hr0 : run_inv_any B (start (Env 8 gr (np_sum gr)) a py_rnd)).
  { unfold run_inv_any, start. cbn [r_world r_steps h_self h_env e_initial_dirt].
    rewrite Hm, Hcl. split; [exact Hw |].
    unfold get_total_dirt, MAX_STEPS. cbn [e_grid]. lia. }
  destruct (while_loop_ends_any B (loop_fuel B) _ Hr0)
    as (st & rf & -> & (Hwf' & Hs & Hmv & Hc & Hsum) & Hend).
  { unfold loop_fuel, start. cbn. lia. }
  destruct (get_stats_fields (h_self (r_world rf))) as (Hf1 & Hf2 & Hf3).
  assert (Hok : stats_ok (get_stats (h_self (r_world rf)))).
  { unfold stats_ok. rewrite Hf1, Hf3. split; [lia |].
    unfold unit_range. now apply efficiency_bounds. }
  destruct Hend as [(-> & _) | (-> & _)]; eauto 8.
Qed.

Lemma trials_ok (n : nat) (np_rnd py_rnd : random_state) :
  exists rs ms,
    trials n np_rnd py_rnd = Some (Ok (rs, ms)) /\
    length rs = n /\ length ms = n /\
    Forall stats_ok rs /\ Forall stats_ok ms.
Proof.
  revert np_rnd py_rnd. induction n as [| n IH]; intros np_rnd py_rnd.
  - exists [], []. repeat split; constructor.
  - cbn [trials].
    destruct (run_simulation_st_ok SimpleReflexAgent_class MAX_STEPS np_rnd py_rnd)
      as (s1 & d1 & np1 & py1 & -> & Hs1).
    destruct (run_simulation_st_ok ModelBasedAgent_class MAX_STEPS np1 py1)
      as (s2 & d2 & np2 & py2 & -> & Hs2).
    destruct (IH np2 py2) as (rs & ms & -> & Hl1 & Hl2 & Hf1 & Hf2).
    exists (s1 :: rs), (s2 :: ms).
    split; [reflexivity |]. cbn [length].
    split; [lia |]. split; [lia |]. split; now constructor.
Qed.

Lemma sum_Q_bounds (lo hi : Q) (l : list Q) :
  Forall (fun q => (lo <= q)%Q /\ (q <= hi)%Q) l ->
  (inject_Z (Z.of_nat (length l)) * lo <= sum_Q l)%Q /\
  (sum_Q l <= inject_Z (Z.of_nat (length l)) * hi)%Q.
Proof.
  induction 1 as [| q t [Hlo Hhi] _ [IHlo IHhi]].
  - cbn. rewrite !Qmult_0_l. split; apply Qle_refl.
  - assert (Hn : (inject_Z (Z.of_nat (length (q :: t))) ==
                  1 + inject_Z (Z.of_nat (length t)))%Q).
    { cbn [length]. rewrite Nat2Z.inj_succ. unfold Qeq. cbn. lia. }
    change (sum_Q (q :: t)) with (q + sum_Q t)%Q.
    rewrite Hn, !Qmult_plus_distr_l, !Qmult_1_l.
    split; now apply Qplus_le_compat.
Qed.

(** The mean of a non-empty list lies where its elements lie. *)
Lemma np_mean_bounds (lo hi : Q) (l : list Q) :
  l <> [] ->
  Forall (fun q => (lo <= q)%Q /\ (q <= hi)%Q) l ->
  exists m, np_mean l = Some m /\ (lo <= m)%Q /\ (m <= hi)%Q.
Proof.
  intros Hne Hall. destruct (sum_Q_bounds lo hi l Hall) as [Hlo Hhi].
  destruct l as [| q t]; [congruence |].
  eexists. split; [reflexivity |].
  assert (Hpos : (0 < inject_Z (Z.of_nat (length (q :: t))))%Q).
  { unfold Qlt. cbn. lia. }
  split.
  - apply Qle_shift_div_l; [assumption |]. now rewrite Qmult_comm.
  - apply Qle_shift_div_r; [assumption |]. now rewrite Qmult_comm.
Qed.

End Averages.

(** X13. [compare_agents] with at least one trial never raises, and each
    of its four averages is defined: the average number of moves of either
    agent lies between 0 and MAX_STEPS and the average efficiency between
    0 and 1.  With no trial ([num_trials] <= 0) it still returns, but every
    average is the mean of an empty list, which numpy leaves undefined. *)
Theorem compare_agents_averages (num_trials : Z) (np_rnd py_rnd : random_state) :
  (1 <= num_trials ->
   exists rm mm re me,
     compare_agents num_trials np_rnd py_rnd =
       Some (Ok (Averages (Some rm) (Some mm) (Some re) (Some me))) /\
     (0 <= rm)%Q /\ (rm <= inject_Z MAX_STEPS)%Q /\
     (0 <= mm)%Q /\ (mm <= inject_Z MAX_STEPS)%Q /\
     unit_range re /\ unit_range me) /\
  (num_trials <= 0 ->
   compare_agents num_trials np_rnd py_rnd =
     Some (Ok (Averages None None None None))).
Proof.
  split.
  - intros Hn. unfold compare_agents.
    destruct (trials_ok (Z.to_nat num_trials) np_rnd py_rnd)
      as (rs & ms & -> & Hl1 & Hl2 & Hf1 & Hf2).
    assert (Hmoves : forall l, Forall stats_ok l ->
              Forall (fun q => (0 <= q)%Q /\ (q <= inject_Z MAX_STEPS)%Q)
                (map (fun s => inject_Z (st_moves s)) l)).
    { intros l Hl. induction Hl as [| s t [Hs _] _ IH]; constructor; [| exact IH].
      unfold Qle. cbn. lia. }
    assert (Heff : forall l, Forall stats_ok l ->
              Forall (fun q => (0 <= q)%Q /\ (q <= 1)%Q) (map st_efficiency l)).
    { intros l Hl. induction Hl as [| s t [_ Hs] _ IH]; constructor; [| exact IH].
      exact Hs. }
    assert (Hne : forall (f : stats -> Q) l, length l = Z.to_nat num_trials ->
              map f l <> []).
    { intros f [| s t] Hl; [cbn in Hl; lia | discriminate]. }
    destruct (np_mean_bounds _ _ _ (Hne _ rs Hl1) (Hmoves rs Hf1)) as (rm & -> & ? & ?).
    destruct (np_mean_bounds _ _ _ (Hne _ ms Hl2) (Hmoves ms Hf2)) as (mm & -> & ? & ?).
    destruct (np_mean_bounds _ _ _ (Hne _ rs Hl1) (Heff rs Hf1)) as (re & -> & ? & ?).
    destruct (np_mean_bounds _ _ _ (Hne _ ms Hl2) (Heff ms Hf2)) as (me & -> & ? & ?).
    exists rm, mm, re, me. unfold unit_range. repeat split; assumption.
  - intros Hn. unfold compare_agents.
    replace (Z.to_nat num_trials) with 0%nat by lia. reflexivity.
Qed.

Lemma compare_agents_averages_witness :
  (exists rm mm re me,
     compare_agents 2 mixed_rnd zero_rnd =
       Some (Ok (Averages (Some rm) (Some mm) (Some re) (Some me))) /\
     (rm <= inject_Z MAX_STEPS)%Q /\ unit_range me) /\
  compare_agents 0 mixed_rnd zero_rnd = Some (Ok (Averages None None None None)).
Proof.
  destruct (compare_agents_averages 2 mixed_rnd zero_rnd) as [H1 _].
  destruct (compare_agents_averages 0 mixed_rnd zero_rnd) as [_ H0].
  split.
  - destruct H1 as (rm & mm & re & me & Heq & _ & Hrm & _ & _ & _ & Hme); [lia |].
    exists rm, mm, re, me. repeat split; try assumption; apply Hme.
  - apply H0. lia.
Defined.

(** ** The dirt count and the cells *)

Section DirtCount.

Lemma sum_Z_binary (row : list Z) :
  Forall (fun v => v = 0 \/ v = 1) row ->
  0 <= sum_Z row <= Z.of_nat (length row) /\
  (sum_Z row = 0 <-> Forall (fun v => v = 0) row).
Proof.
  induction 1 as [| v t Hv _ [IHb IHz]].
  - cbn. split; [lia |]. split; [constructor | reflexivity].
  - rewrite sum_Z_cons. cbn [length]. split; [lia |]. split.
    + intros Hs. constructor; [lia |]. apply IHz. lia.
    + intros Hall. apply Forall_cons in Hall as [-> Ht].
      apply IHz in Ht. lia.
Qed.

Lemma np_sum_binary (n : Z) (a : ndarray) :
  Forall (Forall (fun v => v = 0 \/ v = 1)) a ->
  Forall (fun row => Z.of_nat (length row) = n) a ->
  0 <= np_sum a <= Z.of_nat (length a) * n /\
  (np_sum a = 0 <-> Forall (Forall (fun v => v = 0)) a).
Proof.
  unfold np_sum. intros Hb. induction Hb as [| row t Hrow _ IH]; intros Hs.
  - cbn. split; [lia |]. split; [constructor | reflexivity].
  - apply Forall_cons in Hs as [Hlen Hs]. destruct (IH Hs) as [IHb IHz].
    destruct (sum_Z_binary row Hrow) as [Hrb Hrz].
    rewrite map_cons, sum_Z_cons. cbn [length]. split; [lia |]. split.
    + intros Hsum. constructor; [apply Hrz; lia | apply IHz; lia].
    + intros Hall. apply Forall_cons in Hall as [Hr Ht].
      apply Hrz in Hr. apply IHz in Ht. lia.
Qed.

Lemma binaryb_Forall (a : ndarray) :
  binaryb a = true -> Forall (Forall (fun v => v = 0 \/ v = 1)) a.
Proof.
  intros Hb. rewrite binaryb_spec in Hb.
  apply Forall_lookup. intros i row Hrow.
  apply Forall_lookup. intros j v Hv. eauto.
Qed.

Lemma shapedb_Forall (n : Z) (a : ndarray) :
  shapedb n a = true -> Forall (fun row => Z.of_nat (length row) = n) a.
Proof.
  intros [_ Hs]%shapedb_spec. apply Forall_lookup. eauto.
Qed.

(** The dirt count of a well-formed environment is 0 exactly when no cell
    of the grid is dirty, and never exceeds the number of cells. *)
Lemma total_dirt_cells (e : VacuumEnvironment) :
  env_wf e ->
  0 <= get_total_dirt e <= e_size e * e_size e /\
  (get_total_dirt e = 0 <->
   forall x y, in_bounds (e_size e) x y -> is_dirty e x y = Ok false).
Proof.
  intros Hwf. pose proof (env_wf_shape _ Hwf) as Hs.
  pose proof (env_wf_binary _ Hwf) as Hb.
  destruct (np_sum_binary (e_size e) (e_grid e) (binaryb_Forall _ Hb)
              (shapedb_Forall _ _ Hs)) as [Hbound Hzero].
  pose proof Hs as [Hl Hrows]%shapedb_spec. rewrite Hl in Hbound.
  unfold get_total_dirt. split; [exact Hbound |].
  rewrite Hzero. split.
  - intros Hall x y [Hx Hy].
    destruct (np_get_in _ _ y x Hs Hy Hx) as (row & v & Hrow & Hv & Hget).
    unfold is_dirty. rewrite Hget.
    rewrite Forall_lookup in Hall. specialize (Hall _ _ Hrow).
    rewrite Forall_lookup in Hall. now rewrite (Hall _ _ Hv).
  - intros Hclean. apply Forall_lookup. intros i row Hrow.
    apply Forall_lookup. intros j v Hv.
    pose proof (lookup_lt_Some _ _ _ Hrow) as Hi.
    pose proof (lookup_lt_Some _ _ _ Hv) as Hj.
    pose proof (Hrows _ _ Hrow) as Hlen.
    destruct (np_get_in _ _ (Z.of_nat i) (Z.of_nat j) Hs)
      as (row' & v' & Hrow' & Hv' & Hget); [lia | lia |].
    rewrite Nat2Z.id in Hrow', Hv'.
    rewrite Hrow in Hrow'. injection Hrow' as <-.
    rewrite Hv in Hv'. injection Hv' as <-.
    specialize (Hclean (Z.of_nat j) (Z.of_nat i)).
    unfold is_dirty in Hclean. rewrite Hget in Hclean.
    assert (Hne : (v =? 1) = false).
    { assert (H : Ok (v =? 1) = Ok false) by (apply Hclean; split; lia).
      now injection H. }
    rewrite binaryb_spec in Hb. destruct (Hb _ _ _ _ Hrow Hv); lia.
Qed.

End DirtCount.

(** X14. What the runner tests is what it means: in a well-formed
    environment [get_total_dirt()] is 0 exactly when [is_dirty] answers
    [False] on every cell of the grid; and the count lies between 0 and
    the number of cells. *)
Theorem no_dirt_iff_all_clean (e : VacuumEnvironment) :
  env_wf e ->
  0 <= get_total_dirt e <= e_size e * e_size e /\
  (get_total_dirt e = 0 <->
   forall x y, in_bounds (e_size e) x y -> is_dirty e x y = Ok false).
Proof. apply total_dirt_cells. Qed.

Lemma no_dirt_iff_all_clean_witness :
  0 <= get_total_dirt env_3x3 <= 9 /\
  (get_total_dirt (Env 2 [[0; 0]; [0; 0]] 3) = 0 <->
   forall x y, in_bounds 2 x y -> is_dirty (Env 2 [[0; 0]; [0; 0]] 3) x y = Ok false).
Proof.
  split.
  - apply (no_dirt_iff_all_clean env_3x3). reflexivity.
  - apply (no_dirt_iff_all_clean (Env 2 [[0; 0]; [0; 0]] 3)). reflexivity.
Defined.

(** ** Calls of random.choice *)

Section Choices.

Lemma moved_answer (size x y : Z) (d : action) (nx ny : Z) (g : random_state) :
  (d, nx, ny) ∈ possible_moves size x y ->
  match d with CLEAN => g | _ => advance 1 g end = advance 1 g.
Proof.
  intros Hm. apply possible_moves_not_clean in Hm as [Hd _].
  now destruct d.
Qed.

Lemma simple_act_draws (e : VacuumEnvironment) (a : SimpleReflexAgent)
    (g : random_state) :
  world_wf (Heap e (Simple a) g) ->
  h_random (snd (act (Heap e (Simple a) g))) =
  match fst (act (Heap e (Simple a) g)) with
  | Ok (Some CLEAN) | Ok None | Raise _ => g
  | Ok (Some _) => advance 1 g
  end.
Proof.
  intros [Hwf [Hin _]]. cbn in Hwf, Hin.
  unfold act, dispatch. cbn [h_self h_env h_random].
  destruct (Z_lt_le_dec (sr_moves a) MAX_STEPS) as [Hlt | Hge].
  2: { now rewrite simple_act_capped. }
  destruct (is_dirty_in e _ _ Hwf Hin) as [Hd | Hd].
  - now rewrite simple_act_dirty.
  - rewrite simple_act_clean by assumption.
    destruct (possible_moves (e_size e) (sr_x a) (sr_y a)) as [| m0 t] eqn:Hpm.
    + now rewrite random_choice_empty.
    + destruct (random_choice_nonempty (m0 :: t) g) as ([[d nx] ny] & Hm & ->);
        [discriminate |].
      cbn. rewrite <- Hpm in Hm. symmetry. eapply moved_answer; eauto.
Qed.

Lemma model_act_draws (e : VacuumEnvironment) (a : ModelBasedAgent)
    (g : random_state) :
  world_wf (Heap e (Model a) g) ->
  h_random (snd (act (Heap e (Model a) g))) =
  match fst (act (Heap e (Model a) g)) with
  | Ok (Some CLEAN) | Ok None | Raise _ => g
  | Ok (Some _) => advance 1 g
  end.
Proof.
  intros [Hwf [Hin Hmem]]. cbn in Hwf, Hin, Hmem.
  pose proof Hin as [Hx Hy].
  unfold act, dispatch. cbn [h_self h_env h_random].
  destruct (Z_lt_le_dec (mb_moves a) MAX_STEPS) as [Hlt | Hge].
  2: { now rewrite model_act_capped. }
  destruct (is_dirty_in e _ _ Hwf Hin) as [Hd | Hd].
  - destruct (np_set_in _ _ (mb_y a) (mb_x a) 1 Hmem Hy Hx) as (r1 & _ & Hm1).
    pose proof (np_set_shaped _ _ _ _ _ _ Hm1 Hmem) as Hs1.
    destruct (np_set_in _ _ (mb_y a) (mb_x a) 0 Hs1 Hy Hx) as (r2 & _ & Hm2).
    now rewrite (model_act_dirty e a g _ _ Hlt Hd Hm1 Hm2).
  - destruct (np_set_in _ _ (mb_y a) (mb_x a) 0 Hmem Hy Hx) as (r1 & _ & Hm1).
    pose proof (np_set_shaped _ _ _ _ _ _ Hm1 Hmem) as Hs1.
    pose proof (unvisited_of_filter _ _
                  (possible_moves (e_size e) (mb_x a) (mb_y a)) Hs1) as Hu.
    rewrite (model_act_clean e a g _ _ Hlt Hd Hm1
               (Hu (fun d x y => possible_moves_in_bounds _ _ _ d x y Hin))).
    destruct (possible_moves (e_size e) (mb_x a) (mb_y a)) as [| m0 t] eqn:Hpm.
    + cbn [List.filter]. now rewrite random_choice_empty.
    + set (cands := match List.filter _ (m0 :: t) with [] => m0 :: t | _ => _ end).
      assert (Hsub : forall m, m ∈ cands -> m ∈ m0 :: t).
      { subst cands. destruct (List.filter _ (m0 :: t)) eqn:Hf; [auto |].
        intros m' Hm. rewrite <- Hf in Hm.
        now apply filter_unknown_elem in Hm. }
      assert (Hne : cands <> []).
      { subst cands. destruct (List.filter _ (m0 :: t)); discriminate. }
      destruct (random_choice_nonempty cands g Hne) as ([[d nx] ny] & Hm & ->).
      apply Hsub in Hm. rewrite <- Hpm in Hm. cbn.
      symmetry. eapply moved_answer; eauto.
Qed.

End Choices.

(** X15. Randomness is spent on movement only: in a well-formed world a
    call of [act] that returns a direction has made exactly one successful
    call of [random.choice], so the generator stands one call further; a
    call that returns ['CLEAN'] or [None] has not called it, and a call
    that raises has been refused on the empty list, so that in these cases
    the generator is left as it was. *)
Theorem act_chooses_once_when_moving (w : world) :
  world_wf w ->
  h_random (snd (act w)) =
  match fst (act w) with
  | Ok (Some CLEAN) | Ok None | Raise _ => h_random w
  | Ok (Some _) => advance 1 (h_random w)
  end.
Proof.
  destruct w as [e [a | a] g].
  - apply simple_act_draws.
  - apply model_act_draws.
Qed.

Lemma act_chooses_once_when_moving_witness :
  h_random (snd (act model_on_dirt)) = zero_rnd /\
  h_random (snd (act (Heap env_2x2 (Model model_at_corner) zero_rnd))) =
    advance 1 zero_rnd.
Proof.
  split.
  - apply (act_chooses_once_when_moving model_on_dirt). repeat split; cbn; lia.
  - apply (act_chooses_once_when_moving (Heap env_2x2 (Model model_at_corner) zero_rnd)).
    repeat split; cbn; lia.
Defined.

(** ** The two extreme probabilities *)

Section Extremes.

Lemma uniform_nonneg (raw : N) : (0 <= uniform raw)%Q.
Proof.
  unfold uniform, Qle. cbn [Qnum Qden].
  pose proof (Z.mod_pos_bound (Z.of_N raw) (2 ^ 53) eq_refl). lia.
Qed.

Lemma choose01_never (p u : Q) :
  (p == 0)%Q -> (u < 1)%Q -> choose01 (1 - p) p u = 0.
Proof.
  intros Hp Hu. unfold choose01.
  assert (Ha : (1 - p == 1)%Q) by (rewrite Hp; ring).
  assert (Hb : (1 - p + p == 1)%Q) by ring.
  destruct (Qle_bool (1 - p) u) eqn:E1.
  { apply Qle_bool_iff in E1. rewrite Ha in E1.
    exfalso. exact (Qlt_not_le _ _ Hu E1). }
  destruct (Qle_bool (1 - p + p) u) eqn:E2; [| reflexivity].
  apply Qle_bool_iff in E2. rewrite Hb in E2.
  exfalso. exact (Qlt_not_le _ _ Hu E2).
Qed.

Lemma choose01_always (p u : Q) :
  (p == 1)%Q -> (0 <= u)%Q -> (u < 1)%Q -> choose01 (1 - p) p u = 1.
Proof.
  intros Hp Hu0 Hu1. unfold choose01.
  assert (Ha : (1 - p == 0)%Q) by (rewrite Hp; ring).
  assert (Hb : (1 - p + p == 1)%Q) by ring.
  destruct (Qle_bool (1 - p) u) eqn:E1.
  - destruct (Qle_bool (1 - p + p) u) eqn:E2; [| reflexivity].
    apply Qle_bool_iff in E2. rewrite Hb in E2.
    exfalso. exact (Qlt_not_le _ _ Hu1 E2).
  - assert (H : Qle_bool (1 - p) u = true); [| congruence].
    apply Qle_bool_iff. now rewrite Ha.
Qed.

Lemma np_sum_all_ones (n : Z) (a : ndarray) :
  Forall (Forall (fun v => v = 1)) a ->
  Forall (fun row => Z.of_nat (length row) = n) a ->
  np_sum a = Z.of_nat (length a) * n.
Proof.
  unfold np_sum. intros Hall. induction Hall as [| row t Hrow _ IH]; intros Hs.
  - reflexivity.
  - apply Forall_cons in Hs as [Hlen Hs].
    rewrite map_cons, sum_Z_cons, (IH Hs). cbn [length].
    assert (Hr : sum_Z row = Z.of_nat (length row)).
    { clear -Hrow. induction Hrow as [| v r -> _ IHr]; [reflexivity |].
      rewrite sum_Z_cons, IHr. cbn [length]. lia. }
    lia.
Qed.

(** When every cell is dirty the dirt count is the number of cells. *)
Lemma total_dirt_all_dirty (e : VacuumEnvironment) :
  env_wf e ->
  (forall x y, in_bounds (e_size e) x y -> is_dirty e x y = Ok true) ->
  get_total_dirt e = e_size e * e_size e.
Proof.
  intros Hwf Hdirty. pose proof (env_wf_shape _ Hwf) as Hs.
  pose proof Hs as [Hl Hrows]%shapedb_spec.
  unfold get_total_dirt.
  rewrite (np_sum_all_ones (e_size e)); [now rewrite Hl | | now apply shapedb_Forall].
  apply Forall_lookup. intros i row Hrow.
  apply Forall_lookup. intros j v Hv.
  pose proof (lookup_lt_Some _ _ _ Hrow) as Hi.
  pose proof (lookup_lt_Some _ _ _ Hv) as Hj.
  pose proof (Hrows _ _ Hrow) as Hlen.
  destruct (np_get_in _ _ (Z.of_nat i) (Z.of_nat j) Hs)
    as (row' & v' & Hrow' & Hv' & Hget); [lia | lia |].
  rewrite Nat2Z.id in Hrow', Hv'.
  rewrite Hrow in Hrow'. injection Hrow' as <-.
  rewrite Hv in Hv'. injection Hv' as <-.
  specialize (Hdirty (Z.of_nat j) (Z.of_nat i)).
  unfold is_dirty in Hdirty. rewrite Hget in Hdirty.
  assert (H : Ok (v =? 1) = Ok true) by (apply Hdirty; split; lia).
  injection H as H. lia.
Qed.

(** The grid [__init__] draws, cell by cell. *)
Lemma VacuumEnvironment_init_cells (size : Z) (p : Q) (r : random_state) :
  0 <= size -> (0 <= p)%Q -> (p <= 1)%Q ->
  exists env,
    fst (VacuumEnvironment_init size p r) = Ok env /\
    env_wf env /\ e_size env = size /\
    e_initial_dirt env = get_total_dirt env /\
    forall x y, in_bounds size x y ->
      exists raw, is_dirty env x y = Ok (choose01 (1 - p) p (uniform raw) =? 1).
Proof.
  intros Hn Hp0 Hp1.
  destruct (VacuumEnvironment_init_ok size p r Hn Hp0 Hp1) as (gr & Hinit & Hwf).
  exists (Env size gr (np_sum gr)). rewrite Hinit.
  split; [reflexivity |]. split; [exact Hwf |]. split; [reflexivity |].
  split; [reflexivity |].
  intros x y [Hx Hy].
  destruct (np_get_in _ _ y x (env_wf_shape _ Hwf) Hy Hx) as (row & v & Hrow & Hv & Hget).
  unfold is_dirty. cbn [e_grid] in *. rewrite Hget.
  unfold VacuumEnvironment_init, np_random_choice01 in Hinit.
  destruct (negb (Qle_bool 0 (1 - p)) || negb (Qle_bool 0 p)); [discriminate |].
  destruct (negb (Qeq_bool (1 - p + p) 1)); [discriminate |].
  destruct (size <? 0); [discriminate |].
  injection Hinit as <-.
  apply list_elem_of_lookup_2, list_elem_of_In, in_map_iff in Hrow as (i & <- & _).
  apply list_elem_of_lookup_2, list_elem_of_In, in_map_iff in Hv as (j & <- & _).
  eauto.
Qed.

End Extremes.

(** X16. The two extreme probabilities.  With [dirt_probability] 0 the
    constructor draws a grid without any dirt, and [initial_dirt] is 0;
    with [dirt_probability] 1 every cell is dirty and [initial_dirt] is the
    number of cells.  This holds for every size from 0 upwards and
    whatever numpy's generator draws. *)
Theorem construction_extremes (size : Z) (p : Q) (np_rnd : random_state) :
  0 <= size ->
  ((p == 0)%Q ->
   exists env,
     fst (VacuumEnvironment_init size p np_rnd) = Ok env /\
     e_initial_dirt env = 0 /\
     forall x y, in_bounds size x y -> is_dirty env x y = Ok false) /\
  ((p == 1)%Q ->
   exists env,
     fst (VacuumEnvironment_init size p np_rnd) = Ok env /\
     e_initial_dirt env = size * size /\
     forall x y, in_bounds size x y -> is_dirty env x y = Ok true).
Proof.
  intros Hn. split.
  - intros Hp.
    destruct (VacuumEnvironment_init_cells size p np_rnd Hn)
      as (env & Hinit & Hwf & Hsize & Hdirt & Hcells).
    { rewrite Hp. apply Qle_refl. }
    { rewrite Hp. unfold Qle. cbn. lia. }
    assert (Hclean : forall x y, in_bounds size x y -> is_dirty env x y = Ok false).
    { intros x y Hin. destruct (Hcells x y Hin) as [raw ->].
      rewrite choose01_never; [reflexivity | assumption | apply uniform_lt_1]. }
    exists env. split; [assumption |]. split; [| assumption].
    rewrite Hdirt. apply (total_dirt_cells env Hwf). now rewrite Hsize.
  - intros Hp.
    destruct (VacuumEnvironment_init_cells size p np_rnd Hn)
      as (env & Hinit & Hwf & Hsize & Hdirt & Hcells).
    { rewrite Hp. unfold Qle. cbn. lia. }
    { rewrite Hp. apply Qle_refl. }
    assert (Hdirty : forall x y, in_bounds size x y -> is_dirty env x y = Ok true).
    { intros x y Hin. destruct (Hcells x y Hin) as [raw ->].
      rewrite choose01_always;
        [reflexivity | assumption | apply uniform_nonneg | apply uniform_lt_1]. }
    exists env. split; [assumption |]. split; [| assumption].
    rewrite Hdirt, <- Hsize. apply total_dirt_all_dirty; [assumption |].
    now rewrite Hsize.
Qed.

Lemma construction_extremes_witness :
  (exists env, fst (VacuumEnvironment_init 3 0 mixed_rnd) = Ok env /\
               e_initial_dirt env = 0) /\
  (exists env, fst (VacuumEnvironment_init 3 1 mixed_rnd) = Ok env /\
               e_initial_dirt env = 3 * 3).
Proof.
  destruct (construction_extremes 3 0 mixed_rnd) as [H0 _]; [lia |].
  destruct (construction_extremes 3 1 mixed_rnd) as [_ H1]; [lia |].
  split.
  - destruct H0 as (env & He & Hd & _); [reflexivity |]. eauto.
  - destruct H1 as (env & He & Hd & _); [reflexivity |]. eauto.
Defined.
